(** * drinks_bar: the atom inventory server of EX6/drinks_bar.c

    A shallow embedding of the request handlers of the server
    ([parse_and_update_tcp], [parse_and_update_udp], the console branch of
    the select loop, [load_atoms_from_file], [save_atoms_to_file] and the
    start-up code of [main]) together with the properties of the inventory
    that the protocol documentation states.

    Conventions of the embedding.
    - A [uint64_t] / [unsigned long long] is a [Z]; every C operation that
      can wrap is written with its reduction modulo 2^64 ([u64]).
    - A C string is a [string] (the characters before the terminating NUL).
    - The global [atom_stock], the global [save_file_path] and the content
      of the file it names are the fields of [World]; every handler takes a
      [World] and returns the next one together with the text it produces.
    - The snapshot file is a list of bytes; the [AtomStock] struct is three
      8-byte little-endian words without padding (x86-64 layout).
    - [fopen], [fread] and [fwrite] are taken to succeed: the branches in
      which they fail leave the process ([exit]) or only print a message.
    - Line numbers are those of EX6/drinks_bar.c. *)

From Stdlib Require Import ZArith String Ascii List Lia Bool DecimalString.
From Stdlib.Strings Require Byte.
From Stdlib Require DecimalN DecimalFacts.
Import ListNotations.

Local Open Scope Z_scope.
Local Open Scope string_scope.

Abbreviation byte := Corelib.Init.Byte.byte.

(** ** The C library functions used by the handlers

    [strtok_r], [strtoull], [isspace], [strncpy] and the conversion
    [%llu] are not code of the server: they are written here as ISO C
    and POSIX describe them, for the arguments that the server passes
    (base 10, the C locale). *)

Module Libc.

(** The line feed that ends every response. *)
Definition LF : string := String "010" "".

(** [isspace] in the C locale: space, and the control characters
    9 to 13 (tab, line feed, vertical tab, form feed, carriage return). *)
Definition isspace (c : ascii) : bool :=
  let n := nat_of_ascii c in
  Nat.eqb n 32 || (Nat.leb 9 n && Nat.leb n 13).

Definition isdigit (c : ascii) : bool :=
  let n := nat_of_ascii c in
  Nat.leb 48 n && Nat.leb n 57.

Definition digit_val (c : ascii) : Z := Z.of_nat (nat_of_ascii c) - 48.

(** [strchr delim c != NULL] for a character [c] other than NUL. *)
Fixpoint is_delim (delim : string) (c : ascii) : bool :=
  match delim with
  | EmptyString => false
  | String d rest => Ascii.eqb c d || is_delim rest c
  end.

(** [s + strspn (s, delim)]. *)
Fixpoint skip_delims (delim s : string) : string :=
  match s with
  | EmptyString => EmptyString
  | String c r => if is_delim delim c then skip_delims delim r else s
  end.

(** The token that starts at [s] and the position after the delimiter
    that ends it (the end of the string when no delimiter follows). *)
Fixpoint span_token (delim s : string) : string * string :=
  match s with
  | EmptyString => (EmptyString, EmptyString)
  | String c r =>
      if is_delim delim c then (EmptyString, r)
      else let (t, rest) := span_token delim r in (String c t, rest)
  end.

(** [strtok_r]: the string to scan is either the buffer (first call) or
    the saved position (later calls, where C passes NULL); the result is
    the token, if any, and the new saved position. *)
Definition strtok_r (s delim : string) : option string * string :=
  match skip_delims delim s with
  | EmptyString => (None, EmptyString)
  | String c r =>
      let (t, rest) := span_token delim (String c r) in (Some t, rest)
  end.

Definition ULLONG_MAX : Z := 2 ^ 64 - 1.

Fixpoint skip_space (s : string) : string :=
  match s with
  | EmptyString => EmptyString
  | String c r => if isspace c then skip_space r else s
  end.

(** The longest run of decimal digits at the start of [s]: its exact
    value on top of [acc], and what follows it. *)
Fixpoint scan_digits (acc : Z) (s : string) : Z * string :=
  match s with
  | EmptyString => (acc, EmptyString)
  | String c r =>
      if isdigit c then scan_digits (10 * acc + digit_val c) r
      else (acc, s)
  end.

(** [strtoull (nptr, &endptr, 10)]: leading white space, an optional
    sign, then decimal digits.  The result is the value and the string at
    [endptr].  Without any digit no conversion is performed: the value is
    0 and [endptr] is [nptr].  A value that does not fit is [ULLONG_MAX];
    a value after a minus sign is negated in the unsigned type. *)
Definition strtoull (nptr : string) : Z * string :=
  let s := skip_space nptr in
  let '(negative, body) :=
    match s with
    | String c r =>
        if Ascii.eqb c "-" then (true, r)
        else if Ascii.eqb c "+" then (false, r)
        else (false, s)
    | EmptyString => (false, s)
    end in
  match body with
  | EmptyString => (0, nptr)
  | String c _ =>
      if isdigit c then
        let (v, endptr) := scan_digits 0 body in
        (if Z.ltb ULLONG_MAX v then ULLONG_MAX
         else if negative then (2 ^ 64 - v) mod 2 ^ 64 else v,
         endptr)
      else (0, nptr)
  end.

(** The conversion [%llu] of [printf]. *)
Definition fmt_llu (z : Z) : string :=
  NilZero.string_of_uint (N.to_uint (Z.to_N z)).

(** [strncpy (temp, line, n); temp[n-1] = 0] for a buffer of [n] bytes. *)
Definition strncpy_buf (n : nat) (line : string) : string :=
  substring 0 (n - 1) line.

End Libc.

(** ** The inventory and its snapshot file *)

Definition MAX_ATOMS : Z := 1000000000000000000.
Definition MAXBUF : nat := 1024.

(** Reduction of an arithmetic result to [uint64_t]. *)
Definition u64 (z : Z) : Z := z mod 2 ^ 64.

Record AtomStock : Type := mkAtomStock {
  carbon : Z;
  oxygen : Z;
  hydrogen : Z
}.

(** [save_file_path] is [None] for the NULL pointer (no [-f] flag);
    [disk] is the content of the file of that name, [None] when [stat]
    finds no such file. *)
Record World : Type := mkWorld {
  atom_stock : AtomStock;
  save_file_path : option string;
  disk : option (list byte)
}.

Definition set_stock (w : World) (s : AtomStock) : World :=
  mkWorld s (save_file_path w) (disk w).

Definition set_disk (w : World) (d : option (list byte)) : World :=
  mkWorld (atom_stock w) (save_file_path w) d.

Module Snapshot.

Definition byte_of_Z (z : Z) : byte :=
  match Stdlib.Strings.Byte.of_N (Z.to_N (z mod 256)) with
  | Some b => b
  | None => Corelib.Init.Byte.x00
  end.

Definition Z_of_byte (b : byte) : Z := Z.of_N (Stdlib.Strings.Byte.to_N b).

(** The [n] low bytes of [z], least significant first. *)
Fixpoint le_encode (n : nat) (z : Z) : list byte :=
  match n with
  | O => []
  | S k => byte_of_Z z :: le_encode k (z / 256)
  end.

Fixpoint le_decode (bs : list byte) : Z :=
  match bs with
  | [] => 0
  | b :: r => Z_of_byte b + 256 * le_decode r
  end.

(** [sizeof (AtomStock)]. *)
Definition sizeof_AtomStock : nat := 24.

(** The bytes of the struct as [fwrite (&atom_stock, 1, sizeof, fp)]
    writes them. *)
Definition stock_bytes (s : AtomStock) : list byte :=
  (le_encode 8 (carbon s) ++ le_encode 8 (oxygen s)
     ++ le_encode 8 (hydrogen s))%list.

(** The struct that [fread (&atom_stock, 1, sizeof, fp)] fills from the
    first 24 bytes of the file. *)
Definition stock_of_bytes (bs : list byte) : AtomStock :=
  mkAtomStock (le_decode (firstn 8 bs))
              (le_decode (firstn 8 (skipn 8 bs)))
              (le_decode (firstn 8 (skipn 16 bs))).

End Snapshot.

(** [load_atoms_from_file (save_file_path, init_c, init_o, init_h)]:
    a file of at least [sizeof (AtomStock)] bytes is read into
    [atom_stock]; otherwise [atom_stock] takes the three given values and
    the file is created (mode "wb", which truncates) with them. *)
Definition load_atoms_from_file (w : World) (init_c init_o init_h : Z) : World :=
  let create :=
    let s := mkAtomStock init_c init_o init_h in
    mkWorld s (save_file_path w) (Some (Snapshot.stock_bytes s)) in
  match disk w with
  | Some bytes =>
      if Nat.leb Snapshot.sizeof_AtomStock (List.length bytes)
      then set_stock w (Snapshot.stock_of_bytes bytes)
      else create
  | None => create
  end.

(** [save_atoms_to_file (save_file_path)]: an existing file is opened in
    mode "r+b" and its first 24 bytes are overwritten; a missing file is
    created (mode "w+b"). *)
Definition save_atoms_to_file (w : World) : World :=
  let image := Snapshot.stock_bytes (atom_stock w) in
  match disk w with
  | Some bytes =>
      set_disk w (Some (image ++ skipn Snapshot.sizeof_AtomStock bytes)%list)
  | None => set_disk w (Some image)
  end.

(** The guarded calls [if (save_file_path) load_atoms_from_file
    (save_file_path, 0, 0, 0);] and [if (save_file_path)
    save_atoms_to_file (save_file_path);] of the handlers. *)
Definition reload (w : World) : World :=
  match save_file_path w with
  | Some _ => load_atoms_from_file w 0 0 0
  | None => w
  end.

Definition save (w : World) : World :=
  match save_file_path w with
  | Some _ => save_atoms_to_file w
  | None => w
  end.

(** ** The request handlers *)

Import Libc.

(** The delimiter set [" \t\r\n"] of the two network parsers and the set
    [" \t"] of the console. *)
Definition DELIM : string :=
  String " " (String "009" (String "013" (String "010" ""))).
Definition CONSOLE_DELIM : string := String " " (String "009" "").

(** The anonymous enum of [parse_and_update_tcp]. *)
Inductive AtomType : Type := CARBON | OXYGEN | HYDROGEN | TYPE_UNKNOWN.

(** Lines 156-192 of [parse_and_update_tcp]: the copy of the line into
    [temp], the three calls of [strtok_r] and the checks up to the one on
    [MAX_ATOMS].  The result is the error response, or the atom type and
    the value of [val]. *)
Definition add_request (line : string) : string + (AtomType * Z) :=
  let temp := strncpy_buf MAXBUF line in
  let (token_cmd, saveptr) := strtok_r temp DELIM in
  let (token_type, saveptr) := strtok_r saveptr DELIM in
  let (token_num, saveptr) := strtok_r saveptr DELIM in
  match token_cmd, token_type, token_num with
  | Some token_cmd, Some token_type, Some token_num =>
      if negb (String.eqb token_cmd "ADD")
      then inl ("ERROR: invalid command" ++ LF)
      else
        let type :=
          if String.eqb token_type "CARBON" then CARBON
          else if String.eqb token_type "OXYGEN" then OXYGEN
          else if String.eqb token_type "HYDROGEN" then HYDROGEN
          else TYPE_UNKNOWN in
        match type with
        | TYPE_UNKNOWN => inl ("ERROR: invalid atom type" ++ LF)
        | _ =>
            let (val, endptr) := strtoull token_num in
            if String.eqb endptr token_num || negb (String.eqb endptr "")
            then inl ("ERROR: invalid number" ++ LF)
            else if Z.ltb MAX_ATOMS val
            then inl ("ERROR: number too large" ++ LF)
            else inr (type, val)
        end
  | _, _, _ => inl ("ERROR: invalid command" ++ LF)
  end.

(** The success response of [parse_and_update_tcp]. *)
Definition tcp_ok (s : AtomStock) : string :=
  "OK: Carbon=" ++ fmt_llu (carbon s) ++ " Oxygen=" ++ fmt_llu (oxygen s)
    ++ " Hydrogen=" ++ fmt_llu (hydrogen s) ++ LF.

(** [parse_and_update_tcp (line, response, resp_size)]: the next world and
    the content of [response].  Every caller passes a buffer of [MAXBUF]
    bytes, which no response fills.  The inventory line that the function
    also prints on the server's standard output is left out. *)
Definition parse_and_update_tcp (w0 : World) (line : string) : World * string :=
  let w := reload w0 in
  match add_request line with
  | inl response => (w, response)
  | inr (type, val) =>
      let s := atom_stock w in
      let capacity := (w, "ERROR: capacity exceeded" ++ LF) in
      let commit (s' : AtomStock) :=
        let w' := save (set_stock w s') in
        (w', tcp_ok (atom_stock w')) in
      match type with
      | CARBON =>
          if Z.ltb MAX_ATOMS (u64 (carbon s + val)) then capacity
          else commit (mkAtomStock (u64 (carbon s + val)) (oxygen s) (hydrogen s))
      | OXYGEN =>
          if Z.ltb MAX_ATOMS (u64 (oxygen s + val)) then capacity
          else commit (mkAtomStock (carbon s) (u64 (oxygen s + val)) (hydrogen s))
      | HYDROGEN =>
          if Z.ltb MAX_ATOMS (u64 (hydrogen s + val)) then capacity
          else commit (mkAtomStock (carbon s) (oxygen s) (u64 (hydrogen s + val)))
      | TYPE_UNKNOWN => (w, "ERROR: unknown error" ++ LF)
      end
  end.

(** Lines 293-315 of [parse_and_update_udp]: the quantity token, which
    must be the last one, and its checks up to the one on [MAX_ATOMS]. *)
Definition deliver_quantity (full_mol saveptr : string) : string + (string * Z) :=
  let (token_num, saveptr) := strtok_r saveptr DELIM in
  match token_num with
  | None => inl ("ERROR: missing number" ++ LF)
  | Some token_num =>
      let (token_extra, _) := strtok_r saveptr DELIM in
      match token_extra with
      | Some _ => inl ("ERROR: too many arguments" ++ LF)
      | None =>
          let (count, endptr) := strtoull token_num in
          if String.eqb endptr token_num || negb (String.eqb endptr "")
          then inl ("ERROR: invalid number" ++ LF)
          else if Z.ltb MAX_ATOMS count
          then inl ("ERROR: number too large" ++ LF)
          else inr (full_mol, count)
      end
  end.

(** Lines 252-315 of [parse_and_update_udp]: tokens and checks up to the
    one on [MAX_ATOMS].  The result is the error response, or the content
    of [full_mol] and the value of [count]. *)
Definition deliver_request (line : string) : string + (string * Z) :=
  let temp := strncpy_buf MAXBUF line in
  let (token_cmd, saveptr) := strtok_r temp DELIM in
  let (token_mol, saveptr) := strtok_r saveptr DELIM in
  match token_cmd, token_mol with
  | Some token_cmd, Some token_mol =>
      if negb (String.eqb token_cmd "DELIVER")
      then inl ("ERROR: invalid command" ++ LF)
      else
        let molecule : option (string * string) :=
          if String.eqb token_mol "CARBON" then
            let (token_next, saveptr) := strtok_r saveptr DELIM in
            match token_next with
            | Some token_next =>
                if negb (String.eqb token_next "DIOXIDE") then None
                else Some ("CARBON DIOXIDE", saveptr)
            | None => None
            end
          else if String.eqb token_mol "WATER" then Some ("WATER", saveptr)
          else if String.eqb token_mol "GLUCOSE" then Some ("GLUCOSE", saveptr)
          else if String.eqb token_mol "ALCOHOL" then Some ("ALCOHOL", saveptr)
          else None in
        match molecule with
        | None => inl ("ERROR: invalid molecule type" ++ LF)
        | Some (full_mol, saveptr) => deliver_quantity full_mol saveptr
        end
  | _, _ => inl ("ERROR: invalid command" ++ LF)
  end.

(** Lines 317-346: the atoms needed for [count] molecules, as
    [(req_carbon, req_oxygen, req_hydrogen)]; the products are taken in
    [unsigned long long].  [None] is the branch "unknown molecule". *)
Definition needed_atoms (full_mol : string) (count : Z) : option (Z * Z * Z) :=
  if String.eqb full_mol "WATER"
  then Some (0, u64 (1 * count), u64 (2 * count))
  else if String.eqb full_mol "CARBON DIOXIDE"
  then Some (u64 (1 * count), u64 (2 * count), 0)
  else if String.eqb full_mol "GLUCOSE"
  then Some (u64 (6 * count), u64 (6 * count), u64 (12 * count))
  else if String.eqb full_mol "ALCOHOL"
  then Some (u64 (2 * count), u64 (1 * count), u64 (6 * count))
  else None.

(** The success response of [parse_and_update_udp]. *)
Definition udp_ok (s : AtomStock) : string :=
  "OK: Atoms left – Carbon=" ++ fmt_llu (carbon s)
    ++ " Oxygen=" ++ fmt_llu (oxygen s)
    ++ " Hydrogen=" ++ fmt_llu (hydrogen s) ++ LF.

(** [parse_and_update_udp (line, response, resp_size)]. *)
Definition parse_and_update_udp (w0 : World) (line : string) : World * string :=
  let w := reload w0 in
  match deliver_request line with
  | inl response => (w, response)
  | inr (full_mol, count) =>
      match needed_atoms full_mol count with
      | None => (w, "ERROR: unknown molecule" ++ LF)
      | Some (req_carbon, req_oxygen, req_hydrogen) =>
          let s := atom_stock w in
          if Z.ltb (carbon s) req_carbon
          then (w, "ERROR: not enough carbon atoms" ++ LF)
          else if Z.ltb (oxygen s) req_oxygen
          then (w, "ERROR: not enough oxygen atoms" ++ LF)
          else if Z.ltb (hydrogen s) req_hydrogen
          then (w, "ERROR: not enough hydrogen atoms" ++ LF)
          else
            let w' :=
              save (set_stock w
                      (mkAtomStock (u64 (carbon s - req_carbon))
                                   (u64 (oxygen s - req_oxygen))
                                   (u64 (hydrogen s - req_hydrogen)))) in
            (w', udp_ok (atom_stock w'))
      end
  end.

(** ** The console branch and the select loop of [main] *)

(** [L = strlen (linebuf); if (L > 0 && linebuf[L-1] == '\n')
    linebuf[L-1] = 0]. *)
Fixpoint strip_newline (linebuf : string) : string :=
  match linebuf with
  | EmptyString => EmptyString
  | String c EmptyString => if Ascii.eqb c "010" then EmptyString else linebuf
  | String c r => String c (strip_newline r)
  end.

(** The three blocks that count the drinks: the quotients for carbon,
    hydrogen and oxygen, and the least of them. *)
Definition can_make (s : AtomStock) (per_c per_h per_o : Z) : Z :=
  let c := carbon s / per_c in
  let h := hydrogen s / per_h in
  let o := oxygen s / per_o in
  let can_make := c in
  let can_make := if Z.ltb h can_make then h else can_make in
  if Z.ltb o can_make then o else can_make.

(** The text printed for one line read from the console (section 10.4,
    lines 980-1035); the inventory is only read. *)
Definition console_reply (s : AtomStock) (linebuf : string) : string :=
  let linebuf := strip_newline linebuf in
  let (cmd, saveptr) := strtok_r linebuf CONSOLE_DELIM in
  let invalid := "ERROR: invalid console command" ++ LF in
  match cmd with
  | None => invalid
  | Some cmd =>
      if negb (String.eqb cmd "GEN") then invalid
      else
        let (drink, saveptr) := strtok_r saveptr CONSOLE_DELIM in
        match drink with
        | None => "ERROR: missing drink type after GEN" ++ LF
        | Some drink =>
            if String.eqb drink "SOFT" then
              let (maybe_drink, _) := strtok_r saveptr CONSOLE_DELIM in
              let hint := "ERROR: did you mean 'GEN SOFT DRINK'?" ++ LF in
              match maybe_drink with
              | None => hint
              | Some maybe_drink =>
                  if negb (String.eqb maybe_drink "DRINK") then hint
                  else "You can make up to " ++ fmt_llu (can_make s 6 14 9)
                         ++ " SOFT DRINK(s)" ++ LF
              end
            else if String.eqb drink "VODKA" then
              "You can make up to " ++ fmt_llu (can_make s 8 20 8)
                ++ " VODKA(s)" ++ LF
            else if String.eqb drink "CHAMPAGNE" then
              "You can make up to " ++ fmt_llu (can_make s 3 9 4)
                ++ " CHAMPAGNE(s)" ++ LF
            else "ERROR: unknown drink type '" ++ drink ++ "'" ++ LF
        end
  end.

(** Section 10.4 of the loop, [FD_ISSET (STDIN_FILENO)]: the inventory is
    reloaded, then [fgets] gives a line ([Some]) or the end of the input
    ([None]), on which the loop is left.  The result is the next world, the
    text printed and whether the loop goes on. *)
Definition console_ready (w0 : World) (input : option string)
  : World * string * bool :=
  let w := reload w0 in
  match input with
  | Some linebuf => (w, console_reply (atom_stock w) linebuf, true)
  | None => (w, "Console closed or error – exiting." ++ LF, false)
  end.

(** [handle_tcp_client]: [None] stands for [recv] returning 0 or less,
    [Some buf] for the received bytes as a C string.  The result is the
    next world, the response sent (if any) and the returned boolean. *)
Definition handle_tcp_client (w : World) (received : option string)
  : World * option string * bool :=
  match received with
  | None => (w, None, false)
  | Some buf =>
      let (w', response) := parse_and_update_tcp w buf in
      (w', Some response, true)
  end.

(** The options of the command line that concern the inventory: the
    arguments of [-c], [-o], [-h] and [-f], when given. *)
Record Options : Type := mkOptions {
  opt_c : option string;
  opt_o : option string;
  opt_h : option string;
  opt_f : option string
}.

Definition init_quantity (optarg : option string) : Z :=
  match optarg with
  | Some a => fst (strtoull a)
  | None => 0
  end.

(** Lines 534-619 of [main]: the initial quantities are read with
    [strtoull (optarg, NULL, 10)]; with [-f] the inventory comes from
    [load_atoms_from_file], else from the initial quantities.  [disk0] is
    the content of the file before the server starts. *)
Definition main_init (o : Options) (disk0 : option (list byte)) : World :=
  let init_carbon := init_quantity (opt_c o) in
  let init_oxygen := init_quantity (opt_o o) in
  let init_hydrogen := init_quantity (opt_h o) in
  let w := mkWorld (mkAtomStock 0 0 0) (opt_f o) disk0 in
  match opt_f o with
  | Some _ => load_atoms_from_file w init_carbon init_oxygen init_hydrogen
  | None => set_stock w (mkAtomStock init_carbon init_oxygen init_hydrogen)
  end.

(** What one ready descriptor brings to the loop.  [FileChanged] is not a
    descriptor: it stands for another process that replaces or removes the
    snapshot file between two iterations. *)
Inductive Event : Type :=
| TcpClient (received : option string)
| UdpDatagram (received : option string)
| Console (input : option string)
| UdsStream (accepted : option (option string))
| UdsDatagram (received : option string)
| FileChanged (content : option (list byte)).

(** Sections 10.2 to 10.6 of the loop: the next world and whether the loop
    goes on.  Accepting a TCP connection (10.1) does not touch the
    inventory and is left out. *)
Definition dispatch (w : World) (e : Event) : World * bool :=
  match e with
  | TcpClient received => (fst (fst (handle_tcp_client w received)), true)
  | UdpDatagram (Some buf) => (fst (parse_and_update_udp w buf), true)
  | UdpDatagram None => (w, true)
  | Console input =>
      let '(w', _, go_on) := console_ready w input in (w', go_on)
  | UdsStream (Some received) =>
      (fst (fst (handle_tcp_client (reload w) received)), true)
  | UdsStream None => (w, true)
  | UdsDatagram (Some buf) =>
      (save (fst (parse_and_update_udp (reload w) buf)), true)
  | UdsDatagram None => (w, true)
  | FileChanged content => (set_disk w content, true)
  end.

(** The loop over a sequence of events; it stops at the end of the console
    input. *)
Fixpoint run (w : World) (events : list Event) : World :=
  match events with
  | [] => w
  | e :: rest =>
      let (w', go_on) := dispatch w e in
      if go_on then run w' rest else w'
  end.

(** ** The vocabulary of the protocol documentation

    The definitions of this part do not come from the C code: they say
    what the documentation means by a token, an unsigned integer literal,
    a recipe, the capacity bound and the order of the checks.  The
    theorems relate them to the handlers above. *)

Module Spec.

(** The tokens of a line: the maximal runs of characters that are not
    delimiters, from left to right. *)
Fixpoint tokens (delim s : string) : list string :=
  match s with
  | EmptyString => []
  | String c r =>
      if is_delim delim c then tokens delim r
      else
        match r with
        | EmptyString => [String c EmptyString]
        | String c' _ =>
            if is_delim delim c' then String c EmptyString :: tokens delim r
            else
              match tokens delim r with
              | t :: ts => String c t :: ts
              | [] => [String c EmptyString]
              end
        end
  end.

(** The tokens of a request line as a handler sees them, in its buffer
    of [MAXBUF] bytes. *)
Definition words (line : string) : list string :=
  tokens DELIM (strncpy_buf MAXBUF line).

Fixpoint only_digits (s : string) : bool :=
  match s with
  | EmptyString => true
  | String c r => isdigit c && only_digits r
  end.

(** A base-10 unsigned integer literal with no extra character. *)
Definition unsigned_literal (s : string) : bool :=
  match s with
  | EmptyString => false
  | String _ _ => only_digits s
  end.

Fixpoint decimal_from (acc : Z) (s : string) : Z :=
  match s with
  | EmptyString => acc
  | String c r => decimal_from (10 * acc + digit_val c) r
  end.

(** The number that a literal denotes. *)
Definition decimal_value (s : string) : Z := decimal_from 0 s.

(** What [strtoull] converts entirely: white space that is not a
    delimiter of the line (vertical tab, form feed), an optional sign,
    then a literal. *)
Definition strip_sign (s : string) : string :=
  match s with
  | EmptyString => EmptyString
  | String c r =>
      if Ascii.eqb c "-" || Ascii.eqb c "+" then r else s
  end.

Definition has_minus (s : string) : bool :=
  match s with
  | EmptyString => false
  | String c _ => Ascii.eqb c "-"
  end.

Definition signed_literal (s : string) : bool :=
  unsigned_literal (strip_sign (skip_space s)).

(** The number that the parsers take for a quantity token. *)
Definition parsed_value (tok : string) : Z := fst (strtoull tok).

Inductive Element : Type := Carbon | Oxygen | Hydrogen.

Definition element_name (k : Element) : string :=
  match k with
  | Carbon => "CARBON"
  | Oxygen => "OXYGEN"
  | Hydrogen => "HYDROGEN"
  end.

(** The value of the enum of the parser for an element. *)
Definition atom_type (k : Element) : AtomType :=
  match k with
  | Carbon => CARBON
  | Oxygen => OXYGEN
  | Hydrogen => HYDROGEN
  end.

Definition count_of (k : Element) (s : AtomStock) : Z :=
  match k with
  | Carbon => carbon s
  | Oxygen => oxygen s
  | Hydrogen => hydrogen s
  end.

Definition with_count (k : Element) (n : Z) (s : AtomStock) : AtomStock :=
  match k with
  | Carbon => mkAtomStock n (oxygen s) (hydrogen s)
  | Oxygen => mkAtomStock (carbon s) n (hydrogen s)
  | Hydrogen => mkAtomStock (carbon s) (oxygen s) n
  end.

Inductive Molecule : Type := Water | CarbonDioxide | Glucose | Alcohol.

(** The tokens that name a molecule in a request. *)
Definition molecule_tokens (m : Molecule) : list string :=
  match m with
  | Water => ["WATER"]
  | CarbonDioxide => ["CARBON"; "DIOXIDE"]
  | Glucose => ["GLUCOSE"]
  | Alcohol => ["ALCOHOL"]
  end.

(** The name of a molecule as the parser keeps it in [full_mol]. *)
Definition molecule_name (m : Molecule) : string :=
  match m with
  | Water => "WATER"
  | CarbonDioxide => "CARBON DIOXIDE"
  | Glucose => "GLUCOSE"
  | Alcohol => "ALCOHOL"
  end.

(** The recipe table: carbon, oxygen and hydrogen per molecule. *)
Definition recipe (m : Molecule) : Z * Z * Z :=
  match m with
  | Water => (0, 1, 2)
  | CarbonDioxide => (1, 2, 0)
  | Glucose => (6, 6, 12)
  | Alcohol => (2, 1, 6)
  end.

(** A counter that fits [uint64_t], and one within the capacity. *)
Definition is_u64 (z : Z) : Prop := 0 <= z < 2 ^ 64.
Definition within (z : Z) : Prop := 0 <= z <= MAX_ATOMS.

Definition u64_stock (s : AtomStock) : Prop :=
  is_u64 (carbon s) /\ is_u64 (oxygen s) /\ is_u64 (hydrogen s).

Definition bounded (s : AtomStock) : Prop :=
  within (carbon s) /\ within (oxygen s) /\ within (hydrogen s).

(** The snapshot that a reload would read, if any, is within the
    capacity. *)
Definition snapshot_bounded (content : option (list byte)) : Prop :=
  match content with
  | Some bytes =>
      (Snapshot.sizeof_AtomStock <= List.length bytes)%nat ->
      bounded (Snapshot.stock_of_bytes bytes)
  | None => True
  end.

(** The invariant of the capacity: the counters are within it, and so
    is the snapshot of the file that the server reloads. *)
Definition invariant (w : World) : Prop :=
  bounded (atom_stock w)
  /\ (save_file_path w <> None -> snapshot_bounded (disk w)).

(** The file is absent or smaller than one snapshot. *)
Definition no_snapshot (content : option (list byte)) : Prop :=
  match content with
  | Some bytes => (List.length bytes < Snapshot.sizeof_AtomStock)%nat
  | None => True
  end.

(** The order of the checks of a DELIVER request, as documented: the
    first failure among the eight, if any.  [clean] says which quantity
    tokens are numbers and [value] gives the number. *)
Definition quantity_failure (clean : string -> bool) (value : string -> Z)
           (rest : list string) : option string :=
  match rest with
  | [] => Some "missing number"
  | [num] =>
      if negb (clean num) then Some "invalid number"
      else if Z.ltb MAX_ATOMS (value num) then Some "number too large"
      else None
  | _ :: _ :: _ => Some "too many arguments"
  end.

Definition deliver_failure (clean : string -> bool) (value : string -> Z)
           (toks : list string) : option string :=
  match toks with
  | cmd :: mol :: rest =>
      if negb (String.eqb cmd "DELIVER") then Some "invalid command"
      else if String.eqb mol "CARBON" then
        match rest with
        | next :: rest' =>
            if String.eqb next "DIOXIDE"
            then quantity_failure clean value rest'
            else Some "invalid molecule type"
        | [] => Some "invalid molecule type"
        end
      else if String.eqb mol "WATER" || String.eqb mol "GLUCOSE"
              || String.eqb mol "ALCOHOL"
      then quantity_failure clean value rest
      else Some "invalid molecule type"
  | _ => Some "invalid command"
  end.

(** An event that does not put a snapshot beyond the capacity into the
    file. *)
Definition harmless (e : Event) : Prop :=
  match e with
  | FileChanged content => snapshot_bounded content
  | _ => True
  end.

End Spec.

(** ** The two parsers as functions of the tokens

    [strtok_r] is called at most three (ADD) or five (DELIVER) times; the
    functions below are the parsers with the tokens already cut, and the
    lemmas [add_request_words] and [deliver_request_words] show that they
    are the parsers. *)

Module OnTokens.

Definition number {A : Type} (token_num : string) (ok : Z -> string + A)
  : string + A :=
  let (count, endptr) := strtoull token_num in
  if String.eqb endptr token_num || negb (String.eqb endptr "")
  then inl ("ERROR: invalid number" ++ LF)
  else if Z.ltb MAX_ATOMS count
  then inl ("ERROR: number too large" ++ LF)
  else ok count.

Definition add (toks : list string) : string + (AtomType * Z) :=
  match toks with
  | token_cmd :: token_type :: token_num :: _ =>
      if negb (String.eqb token_cmd "ADD")
      then inl ("ERROR: invalid command" ++ LF)
      else
        let type :=
          if String.eqb token_type "CARBON" then CARBON
          else if String.eqb token_type "OXYGEN" then OXYGEN
          else if String.eqb token_type "HYDROGEN" then HYDROGEN
          else TYPE_UNKNOWN in
        match type with
        | TYPE_UNKNOWN => inl ("ERROR: invalid atom type" ++ LF)
        | _ => number token_num (fun val => inr (type, val))
        end
  | _ => inl ("ERROR: invalid command" ++ LF)
  end.

Definition quantity (full_mol : string) (rest : list string)
  : string + (string * Z) :=
  match rest with
  | [] => inl ("ERROR: missing number" ++ LF)
  | token_num :: [] => number token_num (fun count => inr (full_mol, count))
  | _ :: _ :: _ => inl ("ERROR: too many arguments" ++ LF)
  end.

Definition deliver (toks : list string) : string + (string * Z) :=
  match toks with
  | token_cmd :: token_mol :: rest =>
      if negb (String.eqb token_cmd "DELIVER")
      then inl ("ERROR: invalid command" ++ LF)
      else if String.eqb token_mol "CARBON" then
        match rest with
        | token_next :: rest' =>
            if negb (String.eqb token_next "DIOXIDE")
            then inl ("ERROR: invalid molecule type" ++ LF)
            else quantity "CARBON DIOXIDE" rest'
        | [] => inl ("ERROR: invalid molecule type" ++ LF)
        end
      else if String.eqb token_mol "WATER" then quantity "WATER" rest
      else if String.eqb token_mol "GLUCOSE" then quantity "GLUCOSE" rest
      else if String.eqb token_mol "ALCOHOL" then quantity "ALCOHOL" rest
      else inl ("ERROR: invalid molecule type" ++ LF)
  | _ => inl ("ERROR: invalid command" ++ LF)
  end.

End OnTokens.

(** ** The table of TCP clients and the descriptors that [select] watches

    The array [client_fds] of [main] is a list of descriptors, -1 for an
    empty slot.  [MAX_CLIENTS] is [FD_SETSIZE], a constant of the
    platform: the length of the list. *)

Module Sessions.

(** Lines 797-800: every slot is empty. *)
Definition init_clients (max_clients : nat) : list Z := repeat (-1) max_clients.

(** Lines 886-893: [new_fd] goes into the first empty slot; the boolean
    is [added]. *)
Fixpoint store_client (client_fds : list Z) (new_fd : Z) : list Z * bool :=
  match client_fds with
  | [] => ([], false)
  | fd :: rest =>
      if Z.eqb fd (-1) then (new_fd :: rest, true)
      else
        let (rest', added) := store_client rest new_fd in
        (fd :: rest', added)
  end.

(** Section 10.1, lines 876-904: [new_fd] is what [accept] returned,
    negative on error.  The result is the table and the descriptor that
    is closed at once, if any. *)
Definition accept_tcp (client_fds : list Z) (new_fd : Z) : list Z * option Z :=
  if Z.ltb new_fd 0 then (client_fds, None)
  else
    let (fds, added) := store_client client_fds new_fd in
    if added then (fds, None) else (fds, Some new_fd).

(** Section 10.3, lines 955-968: the slots are visited in order; a
    client that is ready is served by [handle_tcp_client], and its slot
    is emptied when that returns false.  [isset] is [FD_ISSET] on the set
    that [select] filled, [recv] is what [recv] gives on a descriptor.
    The result is the world, the table and the responses sent, with
    their descriptors. *)
Fixpoint serve_clients (isset : Z -> bool) (recv : Z -> option string)
         (w : World) (client_fds : list Z)
  : World * list Z * list (Z * string) :=
  match client_fds with
  | [] => (w, [], [])
  | fd :: rest =>
      if negb (Z.eqb fd (-1)) && isset fd then
        let '(w1, response, alive) := handle_tcp_client w (recv fd) in
        let '(w2, rest', sent) := serve_clients isset recv w1 rest in
        (w2, (if alive then fd else -1) :: rest',
         match response with
         | Some r => (fd, r) :: sent
         | None => sent
         end)
      else
        let '(w2, rest', sent) := serve_clients isset recv w rest in
        (w2, fd :: rest', sent)
  end.

(** The descriptors of the table, without the empty slots. *)
Definition occupied (client_fds : list Z) : list Z :=
  filter (fun fd => negb (Z.eqb fd (-1))) client_fds.

(** A client of the table that [select] reports as readable. *)
Definition ready (isset : Z -> bool) (fd : Z) : bool :=
  negb (Z.eqb fd (-1)) && isset fd.

Definition STDIN_FILENO : Z := 0.

(** [max_fd] is above every descriptor of the set and, unless it is
    still -1, is one of them. *)
Definition covers (st : list Z * Z) : Prop :=
  (forall fd, In fd (fst st) -> fd <= snd st)
  /\ (snd st = -1 \/ In (snd st) (fst st))
  /\ -1 <= snd st.

(** [FD_SET (fd, &read_fds); if (fd > max_fd) max_fd = fd;] on the pair
    of the set and of [max_fd]. *)
Definition watch (fd : Z) (st : list Z * Z) : list Z * Z :=
  (fd :: fst st, if Z.ltb (snd st) fd then fd else snd st).

(** Lines 823-859: the set given to [select] and [max_fd].  The two
    Unix-domain descriptors are present when their paths were given. *)
Definition build_read_fds (tcp_listen_fd udp_fd : Z) (client_fds : list Z)
           (uds_stream_fd uds_dgram_fd : option Z) : list Z * Z :=
  let st := ([], -1) in
  let st := watch tcp_listen_fd st in
  let st := watch udp_fd st in
  let st :=
    fold_left (fun st fd => if Z.eqb fd (-1) then st else watch fd st)
              client_fds st in
  let st := watch STDIN_FILENO st in
  let st := match uds_stream_fd with Some fd => watch fd st | None => st end in
  match uds_dgram_fd with Some fd => watch fd st | None => st end.

End Sessions.

(** ** More vocabulary: what the file and the console are expected to say *)

Module Shared.

(** The file holds a snapshot, and it is the inventory in memory: what a
    reload would read is what the server has. *)
Definition mirrors (w : World) : Prop :=
  exists bytes,
    disk w = Some bytes
    /\ (Snapshot.sizeof_AtomStock <= List.length bytes)%nat
    /\ Snapshot.stock_of_bytes bytes = atom_stock w.

(** The first bytes of the file are the image of the inventory. *)
Definition synced_with (w : World) : Prop :=
  exists rest,
    disk w = Some (Snapshot.stock_bytes (atom_stock w) ++ rest)%list.

(** What the loop keeps when a snapshot file is configured. *)
Definition kept (w : World) : Prop :=
  save_file_path w <> None
  /\ Spec.u64_stock (atom_stock w) /\ synced_with w.

(** An event of the server itself, not a change of the file by another
    process. *)
Definition internal (e : Event) : Prop :=
  match e with
  | FileChanged _ => False
  | _ => True
  end.

(** [n] drinks can be made when each needs [per_c] carbon, [per_h]
    hydrogen and [per_o] oxygen atoms. *)
Definition affordable (s : AtomStock) (per_c per_h per_o n : Z) : Prop :=
  n * per_c <= carbon s /\ n * per_h <= hydrogen s /\ n * per_o <= oxygen s.

(** The tokens of a console line. *)
Definition console_words (linebuf : string) : list string :=
  Spec.tokens CONSOLE_DELIM (strip_newline linebuf).

(** No character of the string is a line feed. *)
Fixpoint no_line_feed (s : string) : bool :=
  match s with
  | EmptyString => true
  | String c r => negb (Ascii.eqb c "010") && no_line_feed r
  end.

(** A single line: some characters without line feed, then one. *)
Definition one_line (s : string) : Prop :=
  exists body, s = body ++ LF /\ no_line_feed body = true.

(** A response that [snprintf] writes whole into a buffer of [resp_size]
    bytes: its length leaves room for the terminating zero. *)
Definition fits (resp_size : nat) (response : string) : Prop :=
  (String.length response < resp_size)%nat.

(** A response that is written whole and is a single line. *)
Definition framed (response : string) : Prop :=
  fits MAXBUF response /\ one_line response.

End Shared.

(** ** Checks of the embedding on concrete requests *)

Definition world0 : World := mkWorld (mkAtomStock 0 0 0) None None.

Example scenario_add_oxygen :
  snd (parse_and_update_tcp world0 ("ADD OXYGEN 5" ++ LF))
  = "OK: Carbon=0 Oxygen=5 Hydrogen=0" ++ LF.
Proof. reflexivity. Qed.

Example scenario_deliver_water :
  let w1 := fst (parse_and_update_tcp world0 ("ADD OXYGEN 5" ++ LF)) in
  let w2 := fst (parse_and_update_tcp w1 ("ADD HYDROGEN 5" ++ LF)) in
  snd (parse_and_update_udp w2 ("DELIVER WATER 1" ++ LF))
  = "OK: Atoms left – Carbon=0 Oxygen=4 Hydrogen=3" ++ LF.
Proof. vm_compute. reflexivity. Qed.

Example scenario_helium :
  snd (parse_and_update_udp world0 ("DELIVER HELIUM 1" ++ LF))
  = "ERROR: invalid molecule type" ++ LF.
Proof. reflexivity. Qed.

Example scenario_neon :
  parse_and_update_tcp world0 ("ADD NEON 5" ++ LF)
  = (world0, "ERROR: invalid atom type" ++ LF).
Proof. reflexivity. Qed.

Example scenario_gen_soft :
  console_reply (mkAtomStock 60 90 140) "GEN SOFT"
  = "ERROR: did you mean 'GEN SOFT DRINK'?" ++ LF.
Proof. reflexivity. Qed.

Example scenario_gen_soft_drink :
  console_reply (mkAtomStock 60 90 141) ("GEN SOFT DRINK" ++ LF)
  = "You can make up to 10 SOFT DRINK(s)" ++ LF.
Proof. vm_compute. reflexivity. Qed.

(** ** [strtok_r] yields the tokens of the line, one per call *)

Section Tokens.

Import Spec.

Variable delim : string.

Lemma tokens_start (c : ascii) (s : string) :
  is_delim delim c = false ->
  tokens delim (String c s)
  = fst (span_token delim (String c s))
      :: tokens delim (snd (span_token delim (String c s))).
Proof.
  revert c. induction s as [|c' s' IH]; intros c Hc.
  - simpl. rewrite Hc. reflexivity.
  - change (tokens delim (String c (String c' s')))
      with (if is_delim delim c then tokens delim (String c' s')
            else if is_delim delim c'
                 then String c EmptyString :: tokens delim (String c' s')
                 else match tokens delim (String c' s') with
                      | t :: ts => String c t :: ts
                      | [] => [String c EmptyString]
                      end).
    change (span_token delim (String c (String c' s')))
      with (if is_delim delim c then (EmptyString, String c' s')
            else let (t, rest) := span_token delim (String c' s') in
                 (String c t, rest)).
    rewrite Hc.
    destruct (is_delim delim c') eqn:Hc'.
    + simpl. rewrite Hc'. reflexivity.
    + rewrite (IH c' Hc').
      destruct (span_token delim (String c' s')) as [t rest].
      reflexivity.
Qed.

Lemma strtok_r_token (s : string) :
  fst (strtok_r s delim) = hd_error (tokens delim s).
Proof.
  unfold strtok_r. induction s as [|c s IH].
  - reflexivity.
  - simpl skip_delims. destruct (is_delim delim c) eqn:Hc.
    + rewrite IH. simpl. rewrite Hc. reflexivity.
    + rewrite (tokens_start c s Hc).
      destruct (span_token delim (String c s)) as [t rest].
      reflexivity.
Qed.

Lemma strtok_r_saveptr (s : string) :
  tokens delim (snd (strtok_r s delim)) = tl (tokens delim s).
Proof.
  unfold strtok_r. induction s as [|c s IH].
  - reflexivity.
  - simpl skip_delims. destruct (is_delim delim c) eqn:Hc.
    + rewrite IH. simpl. rewrite Hc. reflexivity.
    + rewrite (tokens_start c s Hc).
      destruct (span_token delim (String c s)) as [t rest].
      reflexivity.
Qed.

(** The two facts together, in the shape the handlers use them. *)
Lemma strtok_r_tokens (s : string) (tok : option string) (saveptr : string) :
  strtok_r s delim = (tok, saveptr) ->
  tok = hd_error (tokens delim s)
  /\ tokens delim saveptr = tl (tokens delim s).
Proof.
  intros H. split.
  - rewrite <- strtok_r_token, H. reflexivity.
  - rewrite <- strtok_r_saveptr, H. reflexivity.
Qed.

End Tokens.

(** ** [strtoull] on literals *)

Section Strtoull.

Import Spec.

Lemma isdigit_range (c : ascii) :
  isdigit c = true -> (48 <= nat_of_ascii c <= 57)%nat.
Proof.
  unfold isdigit. intros H. apply andb_true_iff in H. destruct H as [H1 H2].
  apply Nat.leb_le in H1. apply Nat.leb_le in H2. lia.
Qed.

Lemma isdigit_not_space (c : ascii) : isdigit c = true -> isspace c = false.
Proof.
  intros H. apply isdigit_range in H. unfold isspace.
  apply orb_false_iff. split.
  - apply Nat.eqb_neq. lia.
  - apply andb_false_iff. right. apply Nat.leb_gt. lia.
Qed.

Lemma isdigit_not_sign (c : ascii) :
  isdigit c = true -> Ascii.eqb c "-" = false /\ Ascii.eqb c "+" = false.
Proof.
  intros H. apply isdigit_range in H.
  split; apply Ascii.eqb_neq; intros ->.
  - change (nat_of_ascii "-") with 45%nat in H. lia.
  - change (nat_of_ascii "+") with 43%nat in H. lia.
Qed.

Lemma digit_val_range (c : ascii) : isdigit c = true -> 0 <= digit_val c <= 9.
Proof. intros H. apply isdigit_range in H. unfold digit_val. lia. Qed.

Lemma decimal_from_lower (s : string) :
  forall acc, only_digits s = true -> 0 <= acc -> acc <= decimal_from acc s.
Proof.
  induction s as [|c s IH]; intros acc Hd Hacc;
    cbn [decimal_from only_digits] in *.
  - lia.
  - apply andb_true_iff in Hd. destruct Hd as [Hc Hs].
    pose proof (digit_val_range c Hc).
    assert (Hnext : 0 <= 10 * acc + digit_val c) by lia.
    specialize (IH (10 * acc + digit_val c) Hs Hnext). lia.
Qed.

Lemma decimal_value_nonneg (s : string) :
  only_digits s = true -> 0 <= decimal_value s.
Proof. intros H. apply (decimal_from_lower s 0 H). lia. Qed.

Lemma scan_digits_literal (s : string) :
  forall acc, only_digits s = true ->
              scan_digits acc s = (decimal_from acc s, EmptyString).
Proof.
  induction s as [|c s IH]; intros acc Hd;
    cbn [decimal_from only_digits scan_digits] in *.
  - reflexivity.
  - apply andb_true_iff in Hd. destruct Hd as [Hc Hs].
    rewrite Hc. apply IH. exact Hs.
Qed.

Lemma scan_digits_rest (s : string) :
  forall acc, only_digits s = false ->
              snd (scan_digits acc s) <> EmptyString.
Proof.
  induction s as [|c s IH]; intros acc Hd;
    cbn [only_digits scan_digits] in *.
  - discriminate.
  - destruct (isdigit c); cbn [andb snd] in *.
    + apply IH. exact Hd.
    + discriminate.
Qed.

Lemma skip_space_nonempty (s : string) :
  skip_space s <> EmptyString -> s <> EmptyString.
Proof. destruct s; simpl; congruence. Qed.

(** The shape of [strtoull] in terms of the sign and the digits. *)
Lemma strtoull_body (nptr : string) :
  strtoull nptr
  = match strip_sign (skip_space nptr) with
    | EmptyString => (0, nptr)
    | String c r =>
        if isdigit c then
          let (v, endptr) := scan_digits 0 (String c r) in
          (if Z.ltb ULLONG_MAX v then ULLONG_MAX
           else if has_minus (skip_space nptr)
                then (2 ^ 64 - v) mod 2 ^ 64 else v,
           endptr)
        else (0, nptr)
    end.
Proof.
  unfold strtoull, strip_sign, has_minus.
  destruct (skip_space nptr) as [|c r]; [reflexivity|].
  destruct (Ascii.eqb c "-") eqn:Hm; [destruct r; reflexivity|].
  destruct (Ascii.eqb c "+") eqn:Hp; [destruct r; reflexivity|].
  reflexivity.
Qed.

(** The test [endptr == token_num || *endptr != 0] of both parsers
    fails exactly on the signed literals. *)
Lemma strtoull_rejects (tok : string) :
  String.eqb (snd (strtoull tok)) tok
    || negb (String.eqb (snd (strtoull tok)) EmptyString)
  = negb (signed_literal tok).
Proof.
  rewrite strtoull_body. unfold signed_literal.
  destruct (strip_sign (skip_space tok)) as [|c r] eqn:Hbody.
  - simpl. rewrite String.eqb_refl. reflexivity.
  - assert (Htok : tok <> EmptyString).
    { apply skip_space_nonempty. intros E. rewrite E in Hbody. discriminate. }
    cbv beta iota delta [unsigned_literal].
    destruct (isdigit c) eqn:Hc.
    + destruct (only_digits (String c r)) eqn:Hd.
      * rewrite (scan_digits_literal _ 0 Hd). simpl.
        destruct tok; [congruence|reflexivity].
      * pose proof (scan_digits_rest (String c r) 0 Hd) as Hrest.
        destruct (scan_digits 0 (String c r)) as [v e]. simpl in *.
        destruct e; [congruence|]. simpl. apply orb_true_r.
    + simpl. rewrite Hc, String.eqb_refl. reflexivity.
Qed.

(** On an unsigned literal [strtoull] gives the value of the literal,
    or [ULLONG_MAX] when it does not fit. *)
Lemma strtoull_literal (tok : string) :
  unsigned_literal tok = true ->
  strtoull tok
  = (if Z.ltb ULLONG_MAX (decimal_value tok) then ULLONG_MAX
     else decimal_value tok, EmptyString).
Proof.
  intros H. rewrite strtoull_body.
  destruct tok as [|c r]; [discriminate|].
  simpl in H. pose proof H as Hd.
  apply andb_true_iff in H. destruct H as [Hc Hr].
  simpl skip_space. rewrite (isdigit_not_space c Hc).
  destruct (isdigit_not_sign c Hc) as [Hm Hp].
  unfold strip_sign. rewrite Hm, Hp. simpl orb. cbv iota. rewrite Hc.
  change (only_digits (String c r) = true) in Hd.
  rewrite (scan_digits_literal _ 0 Hd).
  unfold has_minus. rewrite Hm. reflexivity.
Qed.

Lemma unsigned_is_signed (tok : string) :
  unsigned_literal tok = true -> signed_literal tok = true.
Proof.
  intros H. unfold signed_literal.
  destruct tok as [|c r]; [discriminate|].
  simpl in H. pose proof H as Hd.
  apply andb_true_iff in H. destruct H as [Hc _].
  simpl skip_space. rewrite (isdigit_not_space c Hc).
  destruct (isdigit_not_sign c Hc) as [Hm Hp].
  unfold strip_sign. rewrite Hm, Hp. exact Hd.
Qed.

End Strtoull.

(** ** The snapshot image: writing a stock and reading it back *)

Section SnapshotImage.

Import Spec Snapshot.

Lemma Z_of_byte_range (b : byte) : 0 <= Z_of_byte b < 256.
Proof.
  unfold Z_of_byte. pose proof (Stdlib.Strings.Byte.to_N_bounded b). lia.
Qed.

Lemma Z_of_byte_of_Z (z : Z) : Z_of_byte (byte_of_Z z) = z mod 256.
Proof.
  unfold Z_of_byte, byte_of_Z.
  pose proof (Z.mod_pos_bound z 256 ltac:(lia)) as Hr.
  destruct (Stdlib.Strings.Byte.of_N (Z.to_N (z mod 256))) as [b|] eqn:E.
  - apply Stdlib.Strings.Byte.to_of_N in E. rewrite E. lia.
  - apply Stdlib.Strings.Byte.of_N_None_iff in E. lia.
Qed.

Lemma le_encode_length (n : nat) : forall z, List.length (le_encode n z) = n.
Proof. induction n as [|n IH]; intros z; simpl; [|rewrite IH]; reflexivity. Qed.

Lemma le_decode_range (bs : list byte) :
  0 <= le_decode bs < 256 ^ Z.of_nat (List.length bs).
Proof.
  induction bs as [|b bs IH].
  - simpl. lia.
  - cbn [le_decode List.length]. rewrite Nat2Z.inj_succ, Z.pow_succ_r by lia.
    pose proof (Z_of_byte_range b). lia.
Qed.

Lemma le_decode_encode (n : nat) :
  forall z, le_decode (le_encode n z) = z mod 256 ^ Z.of_nat n.
Proof.
  induction n as [|n IH]; intros z.
  - simpl. rewrite Z.mod_1_r. reflexivity.
  - cbn [le_encode le_decode]. rewrite IH, Z_of_byte_of_Z.
    rewrite Nat2Z.inj_succ, Z.pow_succ_r by lia.
    rewrite Z.rem_mul_r by lia. reflexivity.
Qed.

Lemma le_word (z : Z) : is_u64 z -> le_decode (le_encode 8 z) = z.
Proof.
  intros H. rewrite le_decode_encode.
  change (256 ^ Z.of_nat 8) with (2 ^ 64). apply Z.mod_small. exact H.
Qed.

Lemma firstn_exact {A : Type} (l1 l2 : list A) (n : nat) :
  List.length l1 = n -> firstn n (l1 ++ l2)%list = l1.
Proof.
  intros <-. rewrite <- (Nat.add_0_r (List.length l1)), firstn_app_2.
  simpl. apply app_nil_r.
Qed.

Lemma skipn_exact {A : Type} (l1 l2 : list A) (n : nat) :
  List.length l1 = n -> skipn n (l1 ++ l2)%list = l2.
Proof.
  intros <-. rewrite skipn_app, skipn_all, Nat.sub_diag. reflexivity.
Qed.

(** Round trip: the struct written is the struct read, whatever
    follows the image in the file. *)
Lemma stock_of_stock_bytes (s : AtomStock) (rest : list byte) :
  u64_stock s -> stock_of_bytes (stock_bytes s ++ rest)%list = s.
Proof.
  intros (Hc & Ho & Hh). unfold stock_of_bytes, stock_bytes.
  rewrite <- !app_assoc.
  rewrite (firstn_exact _ _ 8) by apply le_encode_length.
  rewrite (skipn_exact _ _ 8) by apply le_encode_length.
  rewrite (firstn_exact _ _ 8) by apply le_encode_length.
  rewrite app_assoc.
  rewrite (skipn_exact _ _ 16)
    by (rewrite length_app, !le_encode_length; reflexivity).
  rewrite (firstn_exact _ _ 8) by apply le_encode_length.
  rewrite !le_word by assumption.
  destruct s; reflexivity.
Qed.

Lemma stock_bytes_length (s : AtomStock) :
  List.length (stock_bytes s) = sizeof_AtomStock.
Proof.
  unfold stock_bytes. rewrite !length_app, !le_encode_length. reflexivity.
Qed.

(** Whatever the file holds, what is read fits the three fields. *)
Lemma stock_of_bytes_u64 (bs : list byte) : u64_stock (stock_of_bytes bs).
Proof.
  assert (H : forall l : list byte, is_u64 (le_decode (firstn 8 l))).
  { intros l. pose proof (le_decode_range (firstn 8 l)) as Hr.
    pose proof (firstn_le_length 8 l) as Hl.
    assert (256 ^ Z.of_nat (List.length (firstn 8 l)) <= 256 ^ 8)
      by (apply Z.pow_le_mono_r; lia).
    change (256 ^ 8) with (2 ^ 64) in *. unfold is_u64. lia. }
  unfold u64_stock, stock_of_bytes; cbn [carbon oxygen hydrogen].
  repeat split; apply H.
Qed.

Lemma bounded_u64 (s : AtomStock) : bounded s -> u64_stock s.
Proof.
  unfold bounded, u64_stock, within, is_u64, MAX_ATOMS.
  intros (Hc & Ho & Hh).
  assert (1000000000000000000 < 2 ^ 64) by reflexivity. lia.
Qed.

End SnapshotImage.

(** ** The parsers read the tokens of the line *)

Section ParsersOnTokens.

Import Spec.

Lemma add_request_words (line : string) :
  add_request line = OnTokens.add (words line).
Proof.
  unfold add_request, words.
  destruct (strtok_r (strncpy_buf MAXBUF line) DELIM) as [t1 s1] eqn:E1.
  apply strtok_r_tokens in E1. destruct E1 as [-> T1].
  destruct (strtok_r s1 DELIM) as [t2 s2] eqn:E2.
  apply strtok_r_tokens in E2. destruct E2 as [-> T2].
  destruct (strtok_r s2 DELIM) as [t3 s3] eqn:E3.
  apply strtok_r_tokens in E3. destruct E3 as [-> T3].
  rewrite T2, T1.
  destruct (tokens DELIM (strncpy_buf MAXBUF line)) as [|a [|b [|c rest]]];
    reflexivity.
Qed.

Lemma deliver_quantity_tokens (full_mol saveptr : string) :
  deliver_quantity full_mol saveptr
  = OnTokens.quantity full_mol (tokens DELIM saveptr).
Proof.
  unfold deliver_quantity.
  destruct (strtok_r saveptr DELIM) as [t1 s1] eqn:E1.
  apply strtok_r_tokens in E1. destruct E1 as [-> T1].
  destruct (strtok_r s1 DELIM) as [t2 s2] eqn:E2.
  apply strtok_r_tokens in E2. destruct E2 as [-> T2].
  rewrite T1.
  destruct (tokens DELIM saveptr) as [|a [|b rest]]; reflexivity.
Qed.

Lemma deliver_request_words (line : string) :
  deliver_request line = OnTokens.deliver (words line).
Proof.
  unfold deliver_request, words.
  destruct (strtok_r (strncpy_buf MAXBUF line) DELIM) as [t1 s1] eqn:E1.
  apply strtok_r_tokens in E1. destruct E1 as [-> T1].
  destruct (strtok_r s1 DELIM) as [t2 s2] eqn:E2.
  apply strtok_r_tokens in E2. destruct E2 as [-> T2].
  rewrite T1 in *. clear T1.
  destruct (tokens DELIM (strncpy_buf MAXBUF line)) as [|cmd [|mol rest]];
    try reflexivity.
  cbn [hd_error tl OnTokens.deliver] in *.
  destruct (negb (String.eqb cmd "DELIVER")); [reflexivity|].
  destruct (String.eqb mol "CARBON").
  - destruct (strtok_r s2 DELIM) as [t3 s3] eqn:E3.
    apply strtok_r_tokens in E3. destruct E3 as [-> T3].
    rewrite T2 in *. clear T2.
    destruct rest as [|next rest']; [reflexivity|].
    cbn [hd_error tl] in *.
    destruct (negb (String.eqb next "DIOXIDE")); [reflexivity|].
    rewrite deliver_quantity_tokens, T3. reflexivity.
  - destruct (String.eqb mol "WATER");
      [rewrite deliver_quantity_tokens, T2; reflexivity|].
    destruct (String.eqb mol "GLUCOSE");
      [rewrite deliver_quantity_tokens, T2; reflexivity|].
    destruct (String.eqb mol "ALCOHOL");
      [rewrite deliver_quantity_tokens, T2; reflexivity|].
    reflexivity.
Qed.

End ParsersOnTokens.

(** ** Reloading and saving *)

Section Persistence.

Import Spec Snapshot.

Lemma reload_no_file (w : World) : save_file_path w = None -> reload w = w.
Proof. unfold reload. intros ->. reflexivity. Qed.

Lemma save_no_file (w : World) : save_file_path w = None -> save w = w.
Proof. unfold save. intros ->. reflexivity. Qed.

Lemma load_path (w : World) (c o h : Z) :
  save_file_path (load_atoms_from_file w c o h) = save_file_path w.
Proof.
  unfold load_atoms_from_file.
  destruct (disk w) as [bytes|]; [|reflexivity].
  destruct (Nat.leb sizeof_AtomStock (List.length bytes)); reflexivity.
Qed.

Lemma reload_path (w : World) : save_file_path (reload w) = save_file_path w.
Proof.
  unfold reload. destruct (save_file_path w) eqn:E; [|exact E].
  rewrite load_path. exact E.
Qed.

Lemma save_path (w : World) : save_file_path (save w) = save_file_path w.
Proof.
  unfold save, save_atoms_to_file.
  destruct (save_file_path w) eqn:E; [|exact E].
  destruct (disk w); exact E.
Qed.

Lemma save_stock (w : World) : atom_stock (save w) = atom_stock w.
Proof.
  unfold save, save_atoms_to_file.
  destruct (save_file_path w); [|reflexivity].
  destruct (disk w); reflexivity.
Qed.

(** Without a snapshot in the file, loading takes the given quantities
    and writes them as the new file. *)
Lemma load_without_snapshot (w : World) (c o h : Z) :
  no_snapshot (disk w) ->
  load_atoms_from_file w c o h
  = mkWorld (mkAtomStock c o h) (save_file_path w)
            (Some (stock_bytes (mkAtomStock c o h))).
Proof.
  unfold no_snapshot, load_atoms_from_file.
  destruct (disk w) as [bytes|]; [|reflexivity].
  intros H. apply Nat.leb_gt in H. rewrite H. reflexivity.
Qed.

(** With a snapshot, loading reads it and leaves the file alone. *)
Lemma load_with_snapshot (w : World) (c o h : Z) (bytes : list byte) :
  disk w = Some bytes ->
  (sizeof_AtomStock <= List.length bytes)%nat ->
  load_atoms_from_file w c o h = set_stock w (stock_of_bytes bytes).
Proof.
  unfold load_atoms_from_file. intros -> H.
  apply Nat.leb_le in H. rewrite H. reflexivity.
Qed.

Lemma load_u64 (w : World) (c o h : Z) :
  is_u64 c -> is_u64 o -> is_u64 h ->
  u64_stock (atom_stock (load_atoms_from_file w c o h)).
Proof.
  intros Hc Ho Hh. unfold load_atoms_from_file.
  destruct (disk w) as [bytes|].
  - destruct (Nat.leb sizeof_AtomStock (List.length bytes)).
    + apply stock_of_bytes_u64.
    + split; [|split]; assumption.
  - split; [|split]; assumption.
Qed.

Lemma is_u64_0 : is_u64 0.
Proof. unfold is_u64. split; [lia | reflexivity]. Qed.

Lemma reload_u64 (w : World) :
  u64_stock (atom_stock w) -> u64_stock (atom_stock (reload w)).
Proof.
  intros H. unfold reload. destruct (save_file_path w); [|exact H].
  apply load_u64; apply is_u64_0.
Qed.

Lemma u64_range (z : Z) : is_u64 (u64 z).
Proof. unfold is_u64, u64. apply Z.mod_pos_bound. reflexivity. Qed.

Lemma u64_small (z : Z) : is_u64 z -> u64 z = z.
Proof. unfold is_u64, u64. intros H. apply Z.mod_small. exact H. Qed.

End Persistence.

(** ** The value that [strtoull] returns *)

Section StrtoullValue.

Import Spec.

Lemma scan_digits_lower (s : string) :
  forall acc, 0 <= acc -> acc <= fst (scan_digits acc s).
Proof.
  induction s as [|c s IH]; intros acc Hacc; cbn [scan_digits].
  - simpl. lia.
  - destruct (isdigit c) eqn:Hc.
    + pose proof (digit_val_range c Hc).
      assert (Hnext : 0 <= 10 * acc + digit_val c) by lia.
      specialize (IH _ Hnext). lia.
    + simpl. lia.
Qed.

Lemma strtoull_range (nptr : string) :
  0 <= fst (strtoull nptr) <= ULLONG_MAX.
Proof.
  assert (Hmax : 0 <= ULLONG_MAX) by (unfold ULLONG_MAX; lia).
  rewrite strtoull_body.
  destruct (strip_sign (skip_space nptr)) as [|c r]; [simpl; lia|].
  destruct (isdigit c); [|simpl; lia].
  pose proof (scan_digits_lower (String c r) 0 ltac:(lia)) as Hv.
  destruct (scan_digits 0 (String c r)) as [v e]. cbn [fst] in *.
  destruct (Z.ltb_spec ULLONG_MAX v); [lia|].
  destruct (has_minus (skip_space nptr)); [|lia].
  pose proof (Z.mod_pos_bound (2 ^ 64 - v) (2 ^ 64) ltac:(lia)).
  unfold ULLONG_MAX. lia.
Qed.

End StrtoullValue.

(** ** DELIVER: the check of the three counters and the subtraction *)

Section Consume.

Import Spec.

Lemma needed_atoms_u64 (full_mol : string) (count rc ro rh : Z) :
  needed_atoms full_mol count = Some (rc, ro, rh) ->
  is_u64 rc /\ is_u64 ro /\ is_u64 rh.
Proof.
  unfold needed_atoms.
  repeat match goal with
         | |- context [String.eqb full_mol ?n] =>
             destruct (String.eqb full_mol n)
         end;
    intros H; inversion H; subst;
    repeat split; try apply u64_range; try apply is_u64_0.
Qed.

(** The stock after a delivery that takes [rc], [ro] and [rh] atoms. *)
Lemma consume_exact (s : AtomStock) (rc ro rh : Z) :
  u64_stock s -> is_u64 rc -> is_u64 ro -> is_u64 rh ->
  rc <= carbon s -> ro <= oxygen s -> rh <= hydrogen s ->
  mkAtomStock (u64 (carbon s - rc)) (u64 (oxygen s - ro))
              (u64 (hydrogen s - rh))
  = mkAtomStock (carbon s - rc) (oxygen s - ro) (hydrogen s - rh).
Proof.
  unfold u64_stock, is_u64. intros (Hc & Ho & Hh) Hrc Hro Hrh Lc Lo Lh.
  rewrite !u64_small by (unfold is_u64; lia). reflexivity.
Qed.

End Consume.

(** C1.  A DELIVER request that passed the checks of the line asks for
    [req_c], [req_o] and [req_h] atoms.  If a counter is below what is
    asked, the response names the first such counter in the order carbon,
    oxygen, hydrogen, and the world is the one the handler started from
    (after its reload, which is the identity without a snapshot file): no
    counter has changed.  If the three counters suffice, each of them
    goes down by exactly what is asked. *)
Theorem deliver_all_or_nothing
        (w : World) (line full_mol : string) (count req_c req_o req_h : Z) :
  Spec.u64_stock (atom_stock w) ->
  deliver_request line = inr (full_mol, count) ->
  needed_atoms full_mol count = Some (req_c, req_o, req_h) ->
  let w1 := reload w in
  let s := atom_stock w1 in
  (carbon s < req_c ->
   parse_and_update_udp w line
   = (w1, "ERROR: not enough carbon atoms" ++ LF))
  /\ (req_c <= carbon s -> oxygen s < req_o ->
      parse_and_update_udp w line
      = (w1, "ERROR: not enough oxygen atoms" ++ LF))
  /\ (req_c <= carbon s -> req_o <= oxygen s -> hydrogen s < req_h ->
      parse_and_update_udp w line
      = (w1, "ERROR: not enough hydrogen atoms" ++ LF))
  /\ (req_c <= carbon s -> req_o <= oxygen s -> req_h <= hydrogen s ->
      let s' := mkAtomStock (carbon s - req_c) (oxygen s - req_o)
                            (hydrogen s - req_h) in
      parse_and_update_udp w line = (save (set_stock w1 s'), udp_ok s'))
  /\ (save_file_path w = None -> w1 = w).
Proof.
  intros Hu Hreq Hneed w1 s.
  pose proof (reload_u64 w Hu) as Hs. fold w1 s in Hs.
  destruct (needed_atoms_u64 _ _ _ _ _ Hneed) as (Hrc & Hro & Hrh).
  unfold parse_and_update_udp. rewrite Hreq, Hneed. fold w1 s.
  split; [|split; [|split; [|split]]].
  - intros Hc. apply Z.ltb_lt in Hc. rewrite Hc. reflexivity.
  - intros Hc Ho. apply Z.ltb_ge in Hc. apply Z.ltb_lt in Ho.
    rewrite Hc, Ho. reflexivity.
  - intros Hc Ho Hh. apply Z.ltb_ge in Hc. apply Z.ltb_ge in Ho.
    apply Z.ltb_lt in Hh. rewrite Hc, Ho, Hh. reflexivity.
  - intros Hc Ho Hh.
    rewrite (consume_exact s req_c req_o req_h) by assumption.
    apply Z.ltb_ge in Hc. apply Z.ltb_ge in Ho. apply Z.ltb_ge in Hh.
    rewrite Hc, Ho, Hh. rewrite save_stock. reflexivity.
  - apply reload_no_file.
Qed.

Lemma deliver_all_or_nothing_witness :
  parse_and_update_udp (mkWorld (mkAtomStock 0 5 5) None None)
                       ("DELIVER WATER 1" ++ LF)
  = (mkWorld (mkAtomStock 0 4 3) None None, udp_ok (mkAtomStock 0 4 3))
  /\ parse_and_update_udp (mkWorld (mkAtomStock 0 0 5) None None)
                          ("DELIVER WATER 1" ++ LF)
     = (mkWorld (mkAtomStock 0 0 5) None None,
        "ERROR: not enough oxygen atoms" ++ LF).
Proof.
  split.
  - destruct (deliver_all_or_nothing
                (mkWorld (mkAtomStock 0 5 5) None None)
                ("DELIVER WATER 1" ++ LF) "WATER" 1 0 1 2)
      as (_ & _ & _ & H & _).
    + unfold Spec.u64_stock, Spec.is_u64. simpl. lia.
    + reflexivity.
    + reflexivity.
    + apply H; simpl; lia.
  - destruct (deliver_all_or_nothing
                (mkWorld (mkAtomStock 0 0 5) None None)
                ("DELIVER WATER 1" ++ LF) "WATER" 1 0 1 2)
      as (_ & H & _).
    + unfold Spec.u64_stock, Spec.is_u64. simpl. lia.
    + reflexivity.
    + reflexivity.
    + apply H; simpl; lia.
Defined.

(** ** The outcome of the checks of a line *)

Section Outcome.

Import Spec.

(** The two checks of the quantity token, on the literal itself. *)
Lemma number_cases {A : Type} (tok : string) (ok : Z -> string + A) :
  OnTokens.number tok ok
  = if negb (signed_literal tok) then inl ("ERROR: invalid number" ++ LF)
    else if Z.ltb MAX_ATOMS (fst (strtoull tok))
         then inl ("ERROR: number too large" ++ LF)
         else ok (fst (strtoull tok)).
Proof.
  unfold OnTokens.number. rewrite <- strtoull_rejects.
  destruct (strtoull tok) as [v e]. reflexivity.
Qed.

Lemma quantity_inr (fm full_mol : string) (rest : list string) (count : Z) :
  OnTokens.quantity fm rest = inr (full_mol, count) ->
  exists num, rest = [num] /\ full_mol = fm /\ signed_literal num = true
              /\ count = fst (strtoull num) /\ 0 <= count <= MAX_ATOMS.
Proof.
  destruct rest as [|num [|extra rest]]; try discriminate.
  cbn [OnTokens.quantity]. rewrite number_cases.
  destruct (signed_literal num) eqn:Hsl; [|discriminate]. cbn [negb].
  destruct (Z.ltb_spec MAX_ATOMS (fst (strtoull num))) as [|Hle];
    [discriminate|].
  intros H. inversion H; subst. exists num.
  pose proof (strtoull_range num). repeat split; try reflexivity;
    try assumption; lia.
Qed.

Lemma deliver_inr (toks : list string) (full_mol : string) (count : Z) :
  OnTokens.deliver toks = inr (full_mol, count) ->
  exists m num,
    toks = ("DELIVER" :: molecule_tokens m ++ [num])%list
    /\ full_mol = molecule_name m /\ signed_literal num = true
    /\ count = fst (strtoull num) /\ 0 <= count <= MAX_ATOMS.
Proof.
  destruct toks as [|cmd [|mol rest]]; try discriminate.
  cbn [OnTokens.deliver].
  destruct (String.eqb_spec cmd "DELIVER") as [->|]; [|discriminate].
  cbn [negb].
  destruct (String.eqb_spec mol "CARBON") as [->|].
  { destruct rest as [|next rest']; [discriminate|].
    destruct (String.eqb_spec next "DIOXIDE") as [->|]; [|discriminate].
    cbn [negb]. intros H. apply quantity_inr in H.
    destruct H as (num & -> & -> & H). exists CarbonDioxide, num.
    split; [reflexivity|]. split; [reflexivity|]. exact H. }
  destruct (String.eqb_spec mol "WATER") as [->|].
  { intros H. apply quantity_inr in H.
    destruct H as (num & -> & -> & H). exists Water, num.
    split; [reflexivity|]. split; [reflexivity|]. exact H. }
  destruct (String.eqb_spec mol "GLUCOSE") as [->|].
  { intros H. apply quantity_inr in H.
    destruct H as (num & -> & -> & H). exists Glucose, num.
    split; [reflexivity|]. split; [reflexivity|]. exact H. }
  destruct (String.eqb_spec mol "ALCOHOL") as [->|]; [|discriminate].
  intros H. apply quantity_inr in H.
  destruct H as (num & -> & -> & H). exists Alcohol, num.
  split; [reflexivity|]. split; [reflexivity|]. exact H.
Qed.

(** A request made of DELIVER, a molecule and one quantity token goes
    through the checks of the quantity only. *)
Lemma deliver_well_formed (m : Molecule) (num : string) :
  OnTokens.deliver ("DELIVER" :: molecule_tokens m ++ [num])%list
  = OnTokens.number num (fun count => inr (molecule_name m, count)).
Proof. destruct m; reflexivity. Qed.

(** An ADD request with a known atom goes through the checks of the
    quantity only. *)
Lemma add_well_formed (k : Element) (num : string) (rest : list string) :
  OnTokens.add ("ADD" :: element_name k :: num :: rest)
  = OnTokens.number num (fun val => inr (atom_type k, val)).
Proof. destruct k; reflexivity. Qed.

(** The products of the recipe table by a quantity within the capacity
    fit 64 bits, so that [needed_atoms] computes them exactly. *)
Lemma needed_atoms_recipe (m : Molecule) (count : Z) :
  0 <= count <= MAX_ATOMS ->
  needed_atoms (molecule_name m) count
  = let '(rc, ro, rh) := recipe m in
    Some (rc * count, ro * count, rh * count).
Proof.
  intros H. unfold MAX_ATOMS in H.
  assert (H64 : 12 * 1000000000000000000 < 2 ^ 64) by reflexivity.
  destruct m; cbn [needed_atoms molecule_name recipe String.eqb Ascii.eqb
                     Bool.eqb];
    rewrite ?u64_small by (unfold is_u64; lia); reflexivity.
Qed.

End Outcome.

(** C6.  For every DELIVER request that passes the checks of the line,
    the three required totals are the products of the recipe by the
    quantity, computed without wrapping: each product is below 2^64.  A
    request whose quantity is so large that one of the products would not
    fit 64 bits never reaches the multiplication: it is rejected with
    "number too large" and the world is left as reloaded. *)
Theorem deliver_products_exact (w : World) (line : string) :
  (forall full_mol count,
      deliver_request line = inr (full_mol, count) ->
      exists m,
        full_mol = Spec.molecule_name m
        /\ needed_atoms full_mol count
           = (let '(rc, ro, rh) := Spec.recipe m in
              Some (rc * count, ro * count, rh * count))
        /\ (let '(rc, ro, rh) := Spec.recipe m in
            0 <= rc * count < 2 ^ 64 /\ 0 <= ro * count < 2 ^ 64
            /\ 0 <= rh * count < 2 ^ 64))
  /\ (forall m num,
         Spec.words line = ("DELIVER" :: Spec.molecule_tokens m ++ [num])%list ->
         Spec.unsigned_literal num = true ->
         (let '(rc, ro, rh) := Spec.recipe m in
          2 ^ 64 <= rc * Spec.decimal_value num
          \/ 2 ^ 64 <= ro * Spec.decimal_value num
          \/ 2 ^ 64 <= rh * Spec.decimal_value num) ->
         parse_and_update_udp w line
         = (reload w, "ERROR: number too large" ++ LF)).
Proof.
  split.
  - intros full_mol count H. rewrite deliver_request_words in H.
    apply deliver_inr in H.
    destruct H as (m & num & _ & -> & _ & _ & Hrange).
    exists m. split; [reflexivity|]. split.
    + apply needed_atoms_recipe. exact Hrange.
    + unfold MAX_ATOMS in Hrange.
      change (2 ^ 64) with 18446744073709551616.
      destruct m; cbn [Spec.recipe]; lia.
  - intros m num Hw Hlit Hbig. unfold parse_and_update_udp.
    rewrite deliver_request_words, Hw, deliver_well_formed, number_cases.
    rewrite (unsigned_is_signed num Hlit). cbn [negb].
    rewrite (strtoull_literal num Hlit). cbn [fst].
    assert (Hq : MAX_ATOMS <
                 (if Z.ltb ULLONG_MAX (Spec.decimal_value num)
                  then ULLONG_MAX else Spec.decimal_value num)).
    { unfold MAX_ATOMS, ULLONG_MAX.
      change (2 ^ 64) with 18446744073709551616 in *.
      destruct (Z.ltb_spec (18446744073709551616 - 1)
                           (Spec.decimal_value num)); [lia|].
      destruct m; cbn [Spec.recipe] in Hbig; lia. }
    apply Z.ltb_lt in Hq. rewrite Hq. reflexivity.
Qed.

Lemma deliver_products_exact_witness :
  needed_atoms "GLUCOSE" 1000000000000000000
  = Some (6000000000000000000, 6000000000000000000, 12000000000000000000)
  /\ parse_and_update_udp world0 ("DELIVER GLUCOSE 1537228672809129302" ++ LF)
     = (world0, "ERROR: number too large" ++ LF).
Proof.
  destruct (deliver_products_exact
              world0 ("DELIVER GLUCOSE 1000000000000000000" ++ LF))
    as [Hexact _].
  destruct (deliver_products_exact
              world0 ("DELIVER GLUCOSE 1537228672809129302" ++ LF))
    as [_ Hreject].
  split.
  - destruct (Hexact "GLUCOSE" 1000000000000000000) as (m & Hm & Hn & _).
    + vm_compute. reflexivity.
    + destruct m; try discriminate Hm. exact Hn.
  - apply (Hreject Spec.Glucose "1537228672809129302").
    + vm_compute. reflexivity.
    + vm_compute. reflexivity.
    + right. right. vm_compute. discriminate.
Defined.

(** ** DELIVER: what a success is *)

Section DeliverSuccess.

Import Spec.

(** Whatever holds of the two errors of the quantity and of the errors
    of what follows holds of every error of the checks. *)
Lemma number_inl {A : Type} (P : string -> Prop)
      (tok : string) (ok : Z -> string + A) (e : string) :
  P ("ERROR: invalid number" ++ LF) ->
  P ("ERROR: number too large" ++ LF) ->
  (forall v e', ok v = inl e' -> P e') ->
  OnTokens.number tok ok = inl e -> P e.
Proof.
  intros Hinv Hlarge Hok. rewrite number_cases.
  destruct (negb (signed_literal tok)); [intros [= <-]; exact Hinv|].
  destruct (Z.ltb MAX_ATOMS (fst (strtoull tok)));
    [intros [= <-]; exact Hlarge|].
  apply Hok.
Qed.

Lemma quantity_inl (fm : string) (rest : list string) (e : string) :
  OnTokens.quantity fm rest = inl e -> prefix "OK" e = false.
Proof.
  destruct rest as [|num [|extra rest]]; cbn [OnTokens.quantity].
  - intros [= <-]. reflexivity.
  - apply (number_inl (fun e => prefix "OK" e = false));
      [reflexivity | reflexivity | intros v e' H; discriminate H].
  - intros [= <-]. reflexivity.
Qed.

(** An error of the checks of the line is not a success line. *)
Lemma deliver_inl (toks : list string) (e : string) :
  OnTokens.deliver toks = inl e -> prefix "OK" e = false.
Proof.
  destruct toks as [|cmd [|mol rest]]; try (intros [= <-]; reflexivity).
  cbn [OnTokens.deliver].
  destruct (negb (String.eqb cmd "DELIVER")); [intros [= <-]; reflexivity|].
  destruct (String.eqb mol "CARBON").
  { destruct rest as [|next rest']; [intros [= <-]; reflexivity|].
    destruct (negb (String.eqb next "DIOXIDE"));
      [intros [= <-]; reflexivity|].
    apply quantity_inl. }
  destruct (String.eqb mol "WATER"); [apply quantity_inl|].
  destruct (String.eqb mol "GLUCOSE"); [apply quantity_inl|].
  destruct (String.eqb mol "ALCOHOL"); [apply quantity_inl|].
  intros [= <-]. reflexivity.
Qed.

(** An unsigned literal is made of digits. *)
Lemma unsigned_literal_digits (s : string) :
  unsigned_literal s = true -> only_digits s = true.
Proof. destruct s; [discriminate|]. intros H. exact H. Qed.

End DeliverSuccess.

(** C4.  A DELIVER request for a molecule [m] and a quantity [q] within
    the capacity, on an inventory that holds [q] times the recipe of [m],
    is served: the three counters go down by exactly [q] times the recipe,
    the inventory is saved, and the response is the line "OK: Atoms left –
    Carbon=.. Oxygen=.. Hydrogen=.." with the counters after the
    subtraction.  Conversely, whenever the response is a success line, the
    request names such a molecule and quantity, the inventory sufficed, and
    world and response are those.  A request for the quantity zero of any
    molecule succeeds, no counter changes and the response reports the
    counters as they were.  The quantity is the number that [strtoull]
    reads, which for an unsigned literal within the capacity is the number
    that it denotes.  The counters before are those of the world as the
    handler reloads it (the world itself without a snapshot file). *)
Theorem deliver_success (w : World) (line : string) :
  Spec.u64_stock (atom_stock w) ->
  let w1 := reload w in
  let s := atom_stock w1 in
  let after (m : Spec.Molecule) (q : Z) :=
    let '(rc, ro, rh) := Spec.recipe m in
    mkAtomStock (carbon s - rc * q) (oxygen s - ro * q)
                (hydrogen s - rh * q) in
  let suffices (m : Spec.Molecule) (q : Z) :=
    let '(rc, ro, rh) := Spec.recipe m in
    rc * q <= carbon s /\ ro * q <= oxygen s /\ rh * q <= hydrogen s in
  let ok_line (s' : AtomStock) :=
    "OK: Atoms left – Carbon=" ++ fmt_llu (carbon s')
      ++ " Oxygen=" ++ fmt_llu (oxygen s')
      ++ " Hydrogen=" ++ fmt_llu (hydrogen s') ++ LF in
  (forall m num,
      Spec.words line
      = ("DELIVER" :: Spec.molecule_tokens m ++ [num])%list ->
      Spec.signed_literal num = true ->
      Spec.parsed_value num <= MAX_ATOMS ->
      suffices m (Spec.parsed_value num) ->
      parse_and_update_udp w line
      = (save (set_stock w1 (after m (Spec.parsed_value num))),
         ok_line (after m (Spec.parsed_value num))))
  /\ (forall w' response,
         parse_and_update_udp w line = (w', response) ->
         prefix "OK" response = true ->
         exists m num,
           Spec.words line
           = ("DELIVER" :: Spec.molecule_tokens m ++ [num])%list
           /\ Spec.signed_literal num = true
           /\ Spec.parsed_value num <= MAX_ATOMS
           /\ suffices m (Spec.parsed_value num)
           /\ atom_stock w' = after m (Spec.parsed_value num)
           /\ w' = save (set_stock w1 (after m (Spec.parsed_value num)))
           /\ response = ok_line (after m (Spec.parsed_value num)))
  /\ (forall m num,
         Spec.words line
         = ("DELIVER" :: Spec.molecule_tokens m ++ [num])%list ->
         Spec.signed_literal num = true ->
         Spec.parsed_value num = 0 ->
         atom_stock (fst (parse_and_update_udp w line)) = s
         /\ snd (parse_and_update_udp w line) = ok_line s)
  /\ (forall num,
         Spec.unsigned_literal num = true ->
         Spec.signed_literal num = true
         /\ 0 <= Spec.decimal_value num
         /\ (Spec.decimal_value num <= MAX_ATOMS ->
             Spec.parsed_value num = Spec.decimal_value num))
  /\ (save_file_path w = None -> w1 = w).
Proof.
  intros Hu w1 s after suffices ok_line.
  pose proof (reload_u64 w Hu) as Hs. fold w1 s in Hs.
  assert (H64 : 12 * MAX_ATOMS < 2 ^ 64) by reflexivity.
  assert (Hserved :
            forall m num,
              Spec.words line
              = ("DELIVER" :: Spec.molecule_tokens m ++ [num])%list ->
              Spec.signed_literal num = true ->
              Spec.parsed_value num <= MAX_ATOMS ->
              suffices m (Spec.parsed_value num) ->
              parse_and_update_udp w line
              = (save (set_stock w1 (after m (Spec.parsed_value num))),
                 ok_line (after m (Spec.parsed_value num)))).
  { intros m num Hw Hsl Hq Hsuf.
    unfold Spec.parsed_value in *.
    set (q := fst (strtoull num)) in *.
    assert (Hq0 : 0 <= q) by (apply strtoull_range).
    unfold parse_and_update_udp. fold w1 s.
    rewrite deliver_request_words, Hw, deliver_well_formed, number_cases.
    rewrite Hsl. cbn [negb]. fold q.
    assert (Hle : Z.ltb MAX_ATOMS q = false) by (apply Z.ltb_ge; exact Hq).
    rewrite Hle.
    rewrite (needed_atoms_recipe m q (conj Hq0 Hq)).
    subst after suffices. cbv beta in Hsuf |- *.
    destruct (Spec.recipe m) as [[rc ro] rh] eqn:Hrec.
    destruct Hsuf as (Hc & Ho & Hh).
    assert (Hreq : Spec.is_u64 (rc * q) /\ Spec.is_u64 (ro * q)
                   /\ Spec.is_u64 (rh * q)).
    { unfold Spec.is_u64.
      destruct m; cbn [Spec.recipe] in Hrec; inversion Hrec; subst; lia. }
    destruct Hreq as (Hrc & Hro & Hrh).
    apply Z.ltb_ge in Hc, Ho, Hh. rewrite Hc, Ho, Hh.
    apply Z.ltb_ge in Hc, Ho, Hh.
    rewrite (consume_exact s (rc * q) (ro * q) (rh * q)) by assumption.
    rewrite save_stock. reflexivity. }
  split; [exact Hserved|]. split; [|split; [|split]].
  - intros w' response Hrun Hok.
    pose proof Hrun as Hrun0.
    unfold parse_and_update_udp in Hrun. fold w1 s in Hrun.
    rewrite deliver_request_words in Hrun.
    destruct (OnTokens.deliver (Spec.words line))
      as [e | [full_mol count]] eqn:E.
    { inversion Hrun; subst. apply deliver_inl in E. congruence. }
    apply deliver_inr in E.
    destruct E as (m & num & Hw & -> & Hsl & -> & Hrange).
    rewrite (needed_atoms_recipe m _ Hrange) in Hrun.
    fold (Spec.parsed_value num) in Hrun, Hrange.
    assert (Hsuf : suffices m (Spec.parsed_value num)).
    { subst suffices. cbv beta.
      destruct (Spec.recipe m) as [[rc ro] rh].
      destruct (Z.ltb_spec (carbon s) (rc * Spec.parsed_value num));
        [inversion Hrun; subst; discriminate Hok|].
      destruct (Z.ltb_spec (oxygen s) (ro * Spec.parsed_value num));
        [inversion Hrun; subst; discriminate Hok|].
      destruct (Z.ltb_spec (hydrogen s) (rh * Spec.parsed_value num));
        [inversion Hrun; subst; discriminate Hok|].
      split; [|split]; assumption. }
    pose proof (Hserved m num Hw Hsl (proj2 Hrange) Hsuf) as Hrun1.
    rewrite Hrun0 in Hrun1. inversion Hrun1 as [[Hw' Hresp]].
    exists m, num.
    split; [exact Hw|]. split; [exact Hsl|].
    split; [exact (proj2 Hrange)|]. split; [exact Hsuf|].
    split; [|split]; try reflexivity.
    rewrite save_stock. reflexivity.
  - intros m num Hw Hsl Hzero.
    assert (Hq : Spec.parsed_value num <= MAX_ATOMS)
      by (rewrite Hzero; unfold MAX_ATOMS; lia).
    assert (Hsuf : suffices m (Spec.parsed_value num)).
    { subst suffices. cbv beta. rewrite Hzero.
      destruct Hs as (Hc & Ho & Hh). unfold Spec.is_u64 in *.
      destruct (Spec.recipe m) as [[rc ro] rh]. rewrite !Z.mul_0_r. lia. }
    rewrite (Hserved m num Hw Hsl Hq Hsuf). cbn [fst snd].
    rewrite save_stock. cbn [atom_stock set_stock].
    assert (Hsame : after m (Spec.parsed_value num) = s).
    { subst after. cbv beta. rewrite Hzero.
      destruct (Spec.recipe m) as [[rc ro] rh].
      rewrite !Z.mul_0_r, !Z.sub_0_r. destruct s; reflexivity. }
    rewrite Hsame. split; reflexivity.
  - intros num Hlit.
    split; [exact (unsigned_is_signed num Hlit)|].
    pose proof (decimal_value_nonneg num (unsigned_literal_digits num Hlit))
      as Hq0.
    split; [exact Hq0|]. intros Hq.
    unfold Spec.parsed_value. rewrite (strtoull_literal num Hlit).
    cbn [fst]. unfold MAX_ATOMS, ULLONG_MAX in *.
    change (2 ^ 64) with 18446744073709551616.
    destruct (Z.ltb_spec (18446744073709551616 - 1)
                         (Spec.decimal_value num)); [lia|reflexivity].
  - apply reload_no_file.
Qed.

Lemma deliver_success_witness :
  parse_and_update_udp (mkWorld (mkAtomStock 0 5 5) None None)
                       ("DELIVER WATER 1" ++ LF)
  = (mkWorld (mkAtomStock 0 4 3) None None,
     "OK: Atoms left – Carbon=0 Oxygen=4 Hydrogen=3" ++ LF)
  /\ (atom_stock (fst (parse_and_update_udp
                         (mkWorld (mkAtomStock 7 5 5) None None)
                         ("DELIVER CARBON DIOXIDE 0" ++ LF)))
      = mkAtomStock 7 5 5
      /\ snd (parse_and_update_udp
                (mkWorld (mkAtomStock 7 5 5) None None)
                ("DELIVER CARBON DIOXIDE 0" ++ LF))
         = "OK: Atoms left – Carbon=7 Oxygen=5 Hydrogen=5" ++ LF).
Proof.
  assert (Hu : forall s, s = mkAtomStock 0 5 5 \/ s = mkAtomStock 7 5 5 ->
                         Spec.u64_stock s).
  { intros s [-> | ->]; unfold Spec.u64_stock, Spec.is_u64; simpl; lia. }
  split.
  - destruct (deliver_success (mkWorld (mkAtomStock 0 5 5) None None)
                              ("DELIVER WATER 1" ++ LF))
      as (Hserved & _).
    + apply Hu. left. reflexivity.
    + refine (eq_trans (Hserved Spec.Water "1" _ _ _ _) _).
      * vm_compute. reflexivity.
      * vm_compute. reflexivity.
      * vm_compute. discriminate.
      * vm_compute. repeat split; discriminate.
      * vm_compute. reflexivity.
  - destruct (deliver_success (mkWorld (mkAtomStock 7 5 5) None None)
                              ("DELIVER CARBON DIOXIDE 0" ++ LF))
      as (_ & _ & Hzero & _).
    + apply Hu. right. reflexivity.
    + apply (Hzero Spec.CarbonDioxide "0"); vm_compute; reflexivity.
Defined.

(** ** ADD: the capacity of a counter *)

Section AddCapacity.

Import Spec.

(** The value that the parser obtains from an unsigned literal: the
    value of the literal when it is within the capacity, and one above
    the capacity otherwise. *)
Lemma strtoull_literal_value (num : string) :
  unsigned_literal num = true ->
  let q := decimal_value num in
  0 <= q
  /\ (q <= MAX_ATOMS -> fst (strtoull num) = q)
  /\ (MAX_ATOMS < q -> MAX_ATOMS < fst (strtoull num)).
Proof.
  intros Hlit q.
  pose proof (decimal_value_nonneg num (unsigned_literal_digits num Hlit)).
  rewrite (strtoull_literal num Hlit). cbn [fst]. fold q.
  unfold MAX_ATOMS, ULLONG_MAX.
  change (2 ^ 64) with 18446744073709551616.
  destruct (Z.ltb_spec (18446744073709551616 - 1) q); repeat split; lia.
Qed.

(** The three branches of the switch of [parse_and_update_tcp]. *)
Lemma add_commit (w : World) (line : string) (k : Element) (val : Z) :
  add_request line = inr (atom_type k, val) ->
  let w1 := reload w in
  let s := atom_stock w1 in
  parse_and_update_tcp w line
  = if Z.ltb MAX_ATOMS (u64 (count_of k s + val))
    then (w1, "ERROR: capacity exceeded" ++ LF)
    else (save (set_stock w1 (with_count k (u64 (count_of k s + val)) s)),
          tcp_ok (with_count k (u64 (count_of k s + val)) s)).
Proof.
  intros H w1 s. unfold parse_and_update_tcp. rewrite H. fold w1 s.
  destruct k; cbn [atom_type count_of with_count];
    match goal with
    | |- context [Z.ltb MAX_ATOMS ?x] => destruct (Z.ltb MAX_ATOMS x)
    end; rewrite ?save_stock; reflexivity.
Qed.

End AddCapacity.

(** C3 as stated does not hold on a counter far above the capacity,
    which the server has when it is started with such an initial
    quantity: with 2^64 - 1 carbon atoms, "ADD CARBON 1" has
    [current + q > 10^18] and yet succeeds, the sum having wrapped to
    zero. *)
Lemma add_wraps_above_capacity :
  ~ (forall (w : World) (line : string) (k : Spec.Element) (num : string)
            (rest : list string),
        Spec.words line = "ADD" :: Spec.element_name k :: num :: rest ->
        Spec.unsigned_literal num = true ->
        Spec.u64_stock (atom_stock w) ->
        Spec.decimal_value num <= MAX_ATOMS ->
        MAX_ATOMS < Spec.count_of k (atom_stock (reload w))
                    + Spec.decimal_value num ->
        parse_and_update_tcp w line
        = (reload w, "ERROR: capacity exceeded" ++ LF))
  /\ (let w := main_init (mkOptions (Some "18446744073709551615") None None
                                    None) None in
      carbon (atom_stock w) = 18446744073709551615
      /\ parse_and_update_tcp w ("ADD CARBON 1" ++ LF)
         = (mkWorld (mkAtomStock 0 0 0) None None,
            "OK: Carbon=0 Oxygen=0 Hydrogen=0" ++ LF)).
Proof.
  split; [|vm_compute; repeat split].
  intros H.
  specialize (H (mkWorld (mkAtomStock 18446744073709551615 0 0) None None)
                ("ADD CARBON 1" ++ LF) Spec.Carbon "1" [] eq_refl eq_refl).
  assert (Hrun : parse_and_update_tcp
                   (mkWorld (mkAtomStock 18446744073709551615 0 0) None None)
                   ("ADD CARBON 1" ++ LF)
                 = (reload (mkWorld (mkAtomStock 18446744073709551615 0 0)
                                    None None),
                    "ERROR: capacity exceeded" ++ LF)).
  { apply H.
    - unfold Spec.u64_stock, Spec.is_u64. simpl. lia.
    - vm_compute. discriminate.
    - vm_compute. reflexivity. }
  vm_compute in Hrun. discriminate Hrun.
Qed.

(** C3, amended.  An ADD request for the element [k] whose quantity token
    is an unsigned literal of value [q], on a counter [cur] of at most
    2^64 - 1 - 10^18, as is every counter within the capacity: it
    succeeds, and the counter becomes [cur + q] while the two others
    stay, exactly when [q <= 10^18] and [cur + q <= 10^18]; with
    [q > 10^18] the response is "number too large", with
    [cur + q > 10^18] it is "capacity exceeded", and in both cases the
    world is left as reloaded.  From the empty inventory
    "ADD CARBON 1000000000000000000" succeeds once; a second one and
    "ADD CARBON 1" then fail with "capacity exceeded". *)
Theorem add_capacity
        (w : World) (line : string) (k : Spec.Element) (num : string)
        (rest : list string) :
  Spec.words line = "ADD" :: Spec.element_name k :: num :: rest ->
  Spec.unsigned_literal num = true ->
  let w1 := reload w in
  let s := atom_stock w1 in
  let cur := Spec.count_of k s in
  let q := Spec.decimal_value num in
  0 <= cur <= 2 ^ 64 - 1 - MAX_ATOMS ->
  (q <= MAX_ATOMS -> cur + q <= MAX_ATOMS ->
   parse_and_update_tcp w line
   = (save (set_stock w1 (Spec.with_count k (cur + q) s)),
      tcp_ok (Spec.with_count k (cur + q) s)))
  /\ (MAX_ATOMS < q ->
      parse_and_update_tcp w line = (w1, "ERROR: number too large" ++ LF))
  /\ (q <= MAX_ATOMS -> MAX_ATOMS < cur + q ->
      parse_and_update_tcp w line = (w1, "ERROR: capacity exceeded" ++ LF))
  /\ (prefix "OK" (snd (parse_and_update_tcp w line)) = true
      <-> q <= MAX_ATOMS /\ cur + q <= MAX_ATOMS)
  /\ (let full := mkWorld (mkAtomStock MAX_ATOMS 0 0) None None in
      parse_and_update_tcp world0 ("ADD CARBON 1000000000000000000" ++ LF)
      = (full, "OK: Carbon=1000000000000000000 Oxygen=0 Hydrogen=0" ++ LF)
      /\ parse_and_update_tcp full ("ADD CARBON 1000000000000000000" ++ LF)
         = (full, "ERROR: capacity exceeded" ++ LF)
      /\ parse_and_update_tcp full ("ADD CARBON 1" ++ LF)
         = (full, "ERROR: capacity exceeded" ++ LF)).
Proof.
  intros Hw Hlit w1 s cur q Hcur.
  destruct (strtoull_literal_value num Hlit) as (Hq0 & Hsmall & Hlarge).
  fold q in Hq0, Hsmall, Hlarge.
  assert (Hreq : add_request line
                 = if Z.ltb MAX_ATOMS (fst (strtoull num))
                   then inl ("ERROR: number too large" ++ LF)
                   else inr (Spec.atom_type k, fst (strtoull num))).
  { rewrite add_request_words, Hw, add_well_formed, number_cases.
    rewrite (unsigned_is_signed num Hlit). reflexivity. }
  assert (Hadd : q <= MAX_ATOMS -> u64 (cur + q) = cur + q).
  { intros Hq. apply u64_small. unfold Spec.is_u64.
    unfold MAX_ATOMS in *.
    change (2 ^ 64) with 18446744073709551616 in *. lia. }
  assert (Hok : q <= MAX_ATOMS -> cur + q <= MAX_ATOMS ->
                parse_and_update_tcp w line
                = (save (set_stock w1 (Spec.with_count k (cur + q) s)),
                   tcp_ok (Spec.with_count k (cur + q) s))).
  { intros Hq Hsum. specialize (Hsmall Hq). rewrite Hsmall in Hreq.
    apply Z.ltb_ge in Hq. rewrite Hq in Hreq.
    rewrite (add_commit w line k q Hreq). fold w1 s cur.
    apply Z.ltb_ge in Hq. rewrite (Hadd Hq).
    apply Z.ltb_ge in Hsum. rewrite Hsum. reflexivity. }
  assert (Hbig : MAX_ATOMS < q ->
                 parse_and_update_tcp w line
                 = (w1, "ERROR: number too large" ++ LF)).
  { intros Hq. specialize (Hlarge Hq). apply Z.ltb_lt in Hlarge.
    rewrite Hlarge in Hreq. unfold parse_and_update_tcp.
    rewrite Hreq. reflexivity. }
  assert (Hcap : q <= MAX_ATOMS -> MAX_ATOMS < cur + q ->
                 parse_and_update_tcp w line
                 = (w1, "ERROR: capacity exceeded" ++ LF)).
  { intros Hq Hsum. specialize (Hsmall Hq). rewrite Hsmall in Hreq.
    apply Z.ltb_ge in Hq. rewrite Hq in Hreq.
    rewrite (add_commit w line k q Hreq). fold w1 s cur.
    apply Z.ltb_ge in Hq. rewrite (Hadd Hq).
    apply Z.ltb_lt in Hsum. rewrite Hsum. reflexivity. }
  split; [exact Hok|]. split; [exact Hbig|]. split; [exact Hcap|]. split.
  - destruct (Z.le_gt_cases q MAX_ATOMS) as [Hq|Hq].
    + destruct (Z.le_gt_cases (cur + q) MAX_ATOMS) as [Hsum|Hsum].
      * rewrite (Hok Hq Hsum). split; [tauto|]. intros _. reflexivity.
      * rewrite (Hcap Hq Hsum). split; [discriminate|]. lia.
    + rewrite (Hbig Hq). split; [discriminate|]. lia.
  - vm_compute. repeat split.
Qed.

Lemma add_capacity_witness :
  parse_and_update_tcp (mkWorld (mkAtomStock 1 2 3) None None)
                       ("ADD OXYGEN 40 please" ++ LF)
  = (mkWorld (mkAtomStock 1 42 3) None None,
     tcp_ok (mkAtomStock 1 42 3)).
Proof.
  destruct (add_capacity (mkWorld (mkAtomStock 1 2 3) None None)
                         ("ADD OXYGEN 40 please" ++ LF)
                         Spec.Oxygen "40" ["please"])
    as (H & _).
  - vm_compute. reflexivity.
  - vm_compute. reflexivity.
  - unfold MAX_ATOMS. simpl. lia.
  - apply H; vm_compute; discriminate.
Defined.

(** ** ADD: the tokens after the third *)

Section AddTokens.

Import Spec.

(** The parser of ADD reads three tokens. *)
Lemma add_three_tokens (a b c : string) (extra : list string) :
  OnTokens.add (a :: b :: c :: extra) = OnTokens.add [a; b; c].
Proof. reflexivity. Qed.

Lemma add_inl (toks : list string) (e : string) :
  OnTokens.add toks = inl e -> e <> "ERROR: too many arguments" ++ LF.
Proof.
  destruct toks as [|a [|b [|c extra]]];
    try (intros [= <-]; discriminate).
  cbn [OnTokens.add].
  destruct (negb (String.eqb a "ADD")); [intros [= <-]; discriminate|].
  destruct (String.eqb b "CARBON");
    [|destruct (String.eqb b "OXYGEN");
      [|destruct (String.eqb b "HYDROGEN");
        [|intros [= <-]; discriminate]]];
    apply (number_inl (fun e => e <> "ERROR: too many arguments" ++ LF));
    try discriminate; intros v e' H; discriminate H.
Qed.

Lemma add_never_too_many (w : World) (line : string) :
  snd (parse_and_update_tcp w line) <> "ERROR: too many arguments" ++ LF.
Proof.
  unfold parse_and_update_tcp.
  destruct (add_request line) as [e | [type val]] eqn:E.
  - rewrite add_request_words in E. apply add_inl in E. exact E.
  - destruct type;
      repeat match goal with
             | |- context [Z.ltb MAX_ATOMS ?x] => destruct (Z.ltb MAX_ATOMS x)
             end;
      cbn [snd tcp_ok append]; discriminate.
Qed.

End AddTokens.

(** C10.  Two request lines with the same first three tokens get the
    same treatment from the ADD parser, whatever follows the third token
    of the longer one: same next world, same response.  No response of
    the ADD parser is "too many arguments". *)
Theorem add_ignores_extra_tokens
        (w : World) (line line' : string) (a b c : string)
        (extra : list string) :
  Spec.words line = a :: b :: c :: extra ->
  Spec.words line' = [a; b; c] ->
  parse_and_update_tcp w line = parse_and_update_tcp w line'
  /\ snd (parse_and_update_tcp w line) <> "ERROR: too many arguments" ++ LF.
Proof.
  intros Hw Hw'. split.
  - unfold parse_and_update_tcp.
    rewrite !add_request_words, Hw, Hw', add_three_tokens. reflexivity.
  - apply add_never_too_many.
Qed.

Lemma add_ignores_extra_tokens_witness :
  parse_and_update_tcp world0 ("ADD CARBON 5 DIOXIDE 7 and more" ++ LF)
  = parse_and_update_tcp world0 ("ADD CARBON 5" ++ LF).
Proof.
  apply (add_ignores_extra_tokens
           world0 ("ADD CARBON 5 DIOXIDE 7 and more" ++ LF)
           ("ADD CARBON 5" ++ LF) "ADD" "CARBON" "5"
           ["DIOXIDE"; "7"; "and"; "more"]);
    vm_compute; reflexivity.
Defined.

(** C9 as stated does not hold: the quantity token "+5" is not an
    unsigned literal, yet "ADD CARBON +5" is accepted and adds five
    atoms. *)
Lemma add_accepts_signed_quantity :
  ~ (forall (w : World) (line : string) (k : Spec.Element) (num : string)
            (rest : list string),
        Spec.words line = "ADD" :: Spec.element_name k :: num :: rest ->
        Spec.unsigned_literal num = false ->
        snd (parse_and_update_tcp w line) = "ERROR: invalid number" ++ LF
        /\ atom_stock (fst (parse_and_update_tcp w line)) = atom_stock w)
  /\ parse_and_update_tcp world0 ("ADD CARBON +5" ++ LF)
     = (mkWorld (mkAtomStock 5 0 0) None None,
        "OK: Carbon=5 Oxygen=0 Hydrogen=0" ++ LF).
Proof.
  split; [|vm_compute; reflexivity].
  intros H.
  destruct (H world0 ("ADD CARBON +5" ++ LF) Spec.Carbon "+5" []
              eq_refl eq_refl) as [Hresp _].
  vm_compute in Hresp. discriminate Hresp.
Qed.

(** C9, amended.  In an ADD request with a known atom, the quantity
    token is rejected with "invalid number" exactly when it is not a
    signed literal, that is, when it is not made of an optional sign
    followed by at least one digit and nothing else (vertical tabs and
    form feeds may come first).  The world is then left as reloaded:
    unchanged without a snapshot file. *)
Theorem add_invalid_number
        (w : World) (line : string) (k : Spec.Element) (num : string)
        (rest : list string) :
  Spec.words line = "ADD" :: Spec.element_name k :: num :: rest ->
  (Spec.signed_literal num = false ->
   parse_and_update_tcp w line = (reload w, "ERROR: invalid number" ++ LF))
  /\ (Spec.signed_literal num = true ->
      snd (parse_and_update_tcp w line) <> "ERROR: invalid number" ++ LF)
  /\ (save_file_path w = None -> reload w = w).
Proof.
  intros Hw.
  assert (Hreq : add_request line
                 = OnTokens.number
                     num (fun val => inr (Spec.atom_type k, val))).
  { rewrite add_request_words, Hw. apply add_well_formed. }
  rewrite number_cases in Hreq.
  split; [|split].
  - intros Hsl. rewrite Hsl in Hreq. unfold parse_and_update_tcp.
    rewrite Hreq. reflexivity.
  - intros Hsl. rewrite Hsl in Hreq. cbn [negb] in Hreq.
    destruct (Z.ltb MAX_ATOMS (fst (strtoull num))).
    + unfold parse_and_update_tcp. rewrite Hreq. cbn [snd]. discriminate.
    + rewrite (add_commit w line k _ Hreq).
      match goal with
      | |- context [Z.ltb MAX_ATOMS ?x] => destruct (Z.ltb MAX_ATOMS x)
      end; cbn [snd tcp_ok append]; discriminate.
  - apply reload_no_file.
Qed.

Lemma add_invalid_number_witness :
  parse_and_update_tcp (mkWorld (mkAtomStock 1 2 3) None None)
                       ("ADD CARBON 12abc" ++ LF)
  = (mkWorld (mkAtomStock 1 2 3) None None, "ERROR: invalid number" ++ LF).
Proof.
  destruct (add_invalid_number (mkWorld (mkAtomStock 1 2 3) None None)
                               ("ADD CARBON 12abc" ++ LF)
                               Spec.Carbon "12abc" [])
    as (H & _).
  - vm_compute. reflexivity.
  - apply H. vm_compute. reflexivity.
Defined.

(** ** DELIVER: the order of the checks *)

Section DeliverOrder.

Import Spec.

Lemma quantity_verdict (fm : string) (rest : list string) :
  match quantity_failure signed_literal parsed_value rest with
  | Some e => OnTokens.quantity fm rest = inl ("ERROR: " ++ e ++ LF)
  | None => exists count, OnTokens.quantity fm rest = inr (fm, count)
  end.
Proof.
  destruct rest as [|num [|extra rest]]; try reflexivity.
  cbn [quantity_failure OnTokens.quantity]. rewrite number_cases.
  unfold parsed_value.
  destruct (negb (signed_literal num)); [reflexivity|].
  destruct (Z.ltb MAX_ATOMS (fst (strtoull num))); [reflexivity|].
  eexists. reflexivity.
Qed.

Lemma deliver_verdict (toks : list string) :
  match deliver_failure signed_literal parsed_value toks with
  | Some e => OnTokens.deliver toks = inl ("ERROR: " ++ e ++ LF)
  | None => exists full_mol count, OnTokens.deliver toks = inr (full_mol, count)
  end.
Proof.
  destruct toks as [|cmd [|mol rest]]; try reflexivity.
  cbn [deliver_failure OnTokens.deliver].
  destruct (negb (String.eqb cmd "DELIVER")); [reflexivity|].
  destruct (String.eqb mol "CARBON").
  { destruct rest as [|next rest']; [reflexivity|].
    destruct (String.eqb next "DIOXIDE"); [|reflexivity]. cbn [negb].
    pose proof (quantity_verdict "CARBON DIOXIDE" rest') as H.
    destruct (quantity_failure signed_literal parsed_value rest');
      [exact H|]. destruct H as [count H]. eauto. }
  destruct (String.eqb mol "WATER").
  { cbn [orb]. pose proof (quantity_verdict "WATER" rest) as H.
    destruct (quantity_failure signed_literal parsed_value rest);
      [exact H|]. destruct H as [count H]. eauto. }
  destruct (String.eqb mol "GLUCOSE").
  { cbn [orb]. pose proof (quantity_verdict "GLUCOSE" rest) as H.
    destruct (quantity_failure signed_literal parsed_value rest);
      [exact H|]. destruct H as [count H]. eauto. }
  destruct (String.eqb mol "ALCOHOL").
  { cbn [orb]. pose proof (quantity_verdict "ALCOHOL" rest) as H.
    destruct (quantity_failure signed_literal parsed_value rest);
      [exact H|]. destruct H as [count H]. eauto. }
  reflexivity.
Qed.

End DeliverOrder.

(** C5 as stated does not hold at its seventh check: with the unsigned
    literals as the clean quantities, "DELIVER WATER +0" should be
    answered "invalid number" and "DELIVER WATER -1" too; the first is
    served and the second is answered "number too large". *)
Lemma deliver_accepts_signed_quantity :
  ~ (forall (w : World) (line e : string),
        Spec.deliver_failure Spec.unsigned_literal Spec.decimal_value
                             (Spec.words line) = Some e ->
        snd (parse_and_update_udp w line) = "ERROR: " ++ e ++ LF)
  /\ Spec.deliver_failure Spec.unsigned_literal Spec.decimal_value
                          (Spec.words ("DELIVER WATER +0" ++ LF))
     = Some "invalid number"
  /\ snd (parse_and_update_udp world0 ("DELIVER WATER +0" ++ LF))
     = "OK: Atoms left – Carbon=0 Oxygen=0 Hydrogen=0" ++ LF
  /\ snd (parse_and_update_udp world0 ("DELIVER WATER -1" ++ LF))
     = "ERROR: number too large" ++ LF.
Proof.
  split; [|vm_compute; repeat split].
  intros H.
  specialize (H world0 ("DELIVER WATER +0" ++ LF) "invalid number" eq_refl).
  vm_compute in H. discriminate H.
Qed.

(** C5, amended.  The checks of a DELIVER request are made in this
    order, and the first that fails gives the response: a missing
    command or molecule token, "invalid command"; a command other than
    DELIVER, "invalid command"; CARBON not followed by DIOXIDE, "invalid
    molecule type"; any other unknown molecule, "invalid molecule type";
    no quantity token, "missing number"; a token after the quantity, "too
    many arguments"; a quantity that is not a signed literal (an optional
    sign, then digits only), "invalid number"; a quantity whose value as
    [strtoull] reads it is above 10^18, "number too large".  The world is
    then left as reloaded.  A request that fails none of them goes on to
    the inventory. *)
Theorem deliver_validation_order (w : World) (line : string) :
  (forall e,
      Spec.deliver_failure Spec.signed_literal Spec.parsed_value (Spec.words line)
      = Some e ->
      parse_and_update_udp w line = (reload w, "ERROR: " ++ e ++ LF))
  /\ (Spec.deliver_failure Spec.signed_literal Spec.parsed_value (Spec.words line)
      = None ->
      exists full_mol count, deliver_request line = inr (full_mol, count)).
Proof.
  pose proof (deliver_verdict (Spec.words line)) as H.
  rewrite <- deliver_request_words in H.
  split.
  - intros e He. rewrite He in H. unfold parse_and_update_udp.
    rewrite H. reflexivity.
  - intros Hnone. rewrite Hnone in H. exact H.
Qed.

Lemma deliver_validation_order_witness :
  parse_and_update_udp world0 ("DELIVER WATER 1 EXTRA" ++ LF)
  = (world0, "ERROR: too many arguments" ++ LF)
  /\ parse_and_update_udp world0 ("DELIVER CARBON MONOXIDE 1" ++ LF)
     = (world0, "ERROR: invalid molecule type" ++ LF)
  /\ parse_and_update_udp world0 ("DELIVER WATER 1x 2" ++ LF)
     = (world0, "ERROR: too many arguments" ++ LF).
Proof.
  split; [|split].
  - apply (proj1 (deliver_validation_order
                    world0 ("DELIVER WATER 1 EXTRA" ++ LF))
                 "too many arguments").
    vm_compute. reflexivity.
  - apply (proj1 (deliver_validation_order
                    world0 ("DELIVER CARBON MONOXIDE 1" ++ LF))
                 "invalid molecule type").
    vm_compute. reflexivity.
  - apply (proj1 (deliver_validation_order
                    world0 ("DELIVER WATER 1x 2" ++ LF))
                 "too many arguments").
    vm_compute. reflexivity.
Defined.

(** ** The snapshot file when it holds no snapshot *)

Section NoSnapshot.

Import Spec Snapshot.

Lemma snapshot_cases (content : option (list byte)) :
  no_snapshot content
  \/ exists bytes, content = Some bytes
                   /\ (sizeof_AtomStock <= List.length bytes)%nat.
Proof.
  destruct content as [bytes|]; [|left; exact I].
  destruct (Nat.le_gt_cases sizeof_AtomStock (List.length bytes)) as [H|H].
  - right. exists bytes. split; [reflexivity | exact H].
  - left. exact H.
Qed.

Lemma stock_of_image (s : AtomStock) :
  u64_stock s -> stock_of_bytes (stock_bytes s) = s.
Proof.
  intros H. rewrite <- (app_nil_r (stock_bytes s)).
  apply stock_of_stock_bytes. exact H.
Qed.

Lemma load_idempotent (w : World) :
  load_atoms_from_file (load_atoms_from_file w 0 0 0) 0 0 0
  = load_atoms_from_file w 0 0 0.
Proof.
  destruct (snapshot_cases (disk w)) as [Hno | (bytes & Hd & Hlen)].
  - rewrite (load_without_snapshot w 0 0 0 Hno).
    rewrite (load_with_snapshot _ 0 0 0 (stock_bytes (mkAtomStock 0 0 0)));
      [|reflexivity|rewrite stock_bytes_length; apply Nat.le_refl].
    rewrite stock_of_image by (split; [|split]; apply is_u64_0).
    reflexivity.
  - rewrite (load_with_snapshot w 0 0 0 bytes Hd Hlen).
    rewrite (load_with_snapshot _ 0 0 0 bytes); [reflexivity|exact Hd|exact Hlen].
Qed.

Lemma reload_idempotent (w : World) : reload (reload w) = reload w.
Proof.
  unfold reload at 2 3.
  destruct (save_file_path w) as [p|] eqn:Hp;
    [|unfold reload; rewrite Hp; reflexivity].
  unfold reload. rewrite load_path, Hp. apply load_idempotent.
Qed.

End NoSnapshot.

(** C7 as stated does not hold for the reloads: started with five atoms
    of each element and a snapshot file that another process then
    removes, the server does not return to the initial quantities at its
    next reload but to an empty inventory; "ADD CARBON 1" then answers
    with one carbon atom in all. *)
Lemma reload_forgets_initial_quantities :
  ~ (forall (o : Options) (disk0 : option (list byte)) (events : list Event),
        opt_f o <> None ->
        Spec.no_snapshot (disk (run (main_init o disk0) events)) ->
        atom_stock (reload (run (main_init o disk0) events))
        = mkAtomStock (init_quantity (opt_c o)) (init_quantity (opt_o o))
                      (init_quantity (opt_h o)))
  /\ (let o := mkOptions (Some "5") (Some "5") (Some "5") (Some "atoms.bin") in
      let w := run (main_init o None) [FileChanged None] in
      atom_stock w = mkAtomStock 5 5 5
      /\ disk w = None
      /\ atom_stock (reload w) = mkAtomStock 0 0 0
      /\ snd (parse_and_update_tcp w ("ADD CARBON 1" ++ LF))
         = "OK: Carbon=1 Oxygen=0 Hydrogen=0" ++ LF).
Proof.
  split; [|vm_compute; repeat split].
  intros H.
  specialize (H (mkOptions (Some "5") (Some "5") (Some "5") (Some "atoms.bin"))
                None [FileChanged None]).
  assert (Hz : mkAtomStock 0 0 0 = mkAtomStock 5 5 5).
  { apply H; [discriminate | exact I]. }
  discriminate Hz.
Qed.

(** C7, amended.  With a snapshot file configured: at start-up, a file
    that is absent or smaller than one snapshot is no prior state; the
    inventory takes the initial quantities of the command line and the
    file is written with them.  At every later reload (before an ADD, a
    DELIVER or a console command), such a file makes the inventory empty,
    zero for the three counters, and the file is written with that; the
    command is then handled from the empty inventory. *)
Theorem absent_snapshot_is_no_prior_state :
  (forall (o : Options) (disk0 : option (list byte)) (p : string),
      opt_f o = Some p ->
      Spec.no_snapshot disk0 ->
      let init := mkAtomStock (init_quantity (opt_c o))
                              (init_quantity (opt_o o))
                              (init_quantity (opt_h o)) in
      main_init o disk0
      = mkWorld init (Some p) (Some (Snapshot.stock_bytes init)))
  /\ (forall (w : World) (p : string),
         save_file_path w = Some p ->
         Spec.no_snapshot (disk w) ->
         let empty := mkAtomStock 0 0 0 in
         let w1 := mkWorld empty (Some p) (Some (Snapshot.stock_bytes empty)) in
         reload w = w1
         /\ (forall line,
                parse_and_update_tcp w line = parse_and_update_tcp w1 line)
         /\ (forall line,
                parse_and_update_udp w line = parse_and_update_udp w1 line)
         /\ (forall input, console_ready w input = console_ready w1 input)).
Proof.
  split.
  - intros o disk0 p Hp Hno init. unfold main_init. rewrite Hp.
    rewrite load_without_snapshot by exact Hno. reflexivity.
  - intros w p Hp Hno empty w1.
    assert (Hr : reload w = w1).
    { unfold reload. rewrite Hp.
      rewrite load_without_snapshot by exact Hno. rewrite Hp. reflexivity. }
    assert (Hr1 : reload w1 = reload w).
    { rewrite <- Hr. apply reload_idempotent. }
    split; [exact Hr|]. split; [|split].
    + intros line. unfold parse_and_update_tcp. rewrite Hr1. reflexivity.
    + intros line. unfold parse_and_update_udp. rewrite Hr1. reflexivity.
    + intros input. unfold console_ready. rewrite Hr1. reflexivity.
Qed.

Lemma absent_snapshot_is_no_prior_state_witness :
  main_init (mkOptions (Some "2") (Some "3") (Some "4") (Some "atoms_new.txt"))
            None
  = mkWorld (mkAtomStock 2 3 4) (Some "atoms_new.txt")
            (Some (Snapshot.stock_bytes (mkAtomStock 2 3 4)))
  /\ reload (mkWorld (mkAtomStock 2 3 4) (Some "atoms_new.txt") (Some []))
     = mkWorld (mkAtomStock 0 0 0) (Some "atoms_new.txt")
               (Some (Snapshot.stock_bytes (mkAtomStock 0 0 0))).
Proof.
  destruct absent_snapshot_is_no_prior_state as [Hstart Hlater].
  split.
  - apply (Hstart (mkOptions (Some "2") (Some "3") (Some "4")
                             (Some "atoms_new.txt")) None "atoms_new.txt").
    + reflexivity.
    + exact I.
  - apply (Hlater (mkWorld (mkAtomStock 2 3 4) (Some "atoms_new.txt")
                           (Some [])) "atoms_new.txt").
    + reflexivity.
    + simpl. unfold Snapshot.sizeof_AtomStock. lia.
Defined.

(** C8 as stated does not hold with a snapshot file: when the file is
    missing, the console command "GEN VODKA" empties the inventory and
    writes the file. *)
Lemma console_reloads_inventory :
  ~ (forall (w : World) (input : option string),
        atom_stock (fst (fst (console_ready w input))) = atom_stock w
        /\ disk (fst (fst (console_ready w input))) = disk w)
  /\ (let w := mkWorld (mkAtomStock 5 5 5) (Some "atoms.bin") None in
      let w' := fst (fst (console_ready w (Some ("GEN VODKA" ++ LF)))) in
      atom_stock w' = mkAtomStock 0 0 0
      /\ disk w' = Some (Snapshot.stock_bytes (mkAtomStock 0 0 0))).
Proof.
  split; [|vm_compute; repeat split].
  intros H.
  destruct (H (mkWorld (mkAtomStock 5 5 5) (Some "atoms.bin") None)
              (Some ("GEN VODKA" ++ LF))) as [Hstock _].
  vm_compute in Hstock. discriminate Hstock.
Qed.

(** C8, amended.  Handling a console line does to the world what the
    reload of the inventory does and nothing more: the count of drinks is
    computed from the counters without changing them and the file is
    never saved.  Hence without a snapshot file the world is unchanged;
    with a file that holds a snapshot, the counters take the values of
    the snapshot and the file is not written; with a file that holds
    none, the counters become zero and the file is written with them. *)
Theorem console_only_reloads (w : World) (input : option string) :
  let w' := fst (fst (console_ready w input)) in
  w' = reload w
  /\ (save_file_path w = None -> w' = w)
  /\ (forall bytes p,
         save_file_path w = Some p ->
         disk w = Some bytes ->
         (Snapshot.sizeof_AtomStock <= List.length bytes)%nat ->
         atom_stock w' = Snapshot.stock_of_bytes bytes /\ disk w' = disk w)
  /\ (forall p,
         save_file_path w = Some p ->
         Spec.no_snapshot (disk w) ->
         atom_stock w' = mkAtomStock 0 0 0
         /\ disk w' = Some (Snapshot.stock_bytes (mkAtomStock 0 0 0))).
Proof.
  intros w'.
  assert (Hw' : w' = reload w).
  { unfold w', console_ready. destruct input; reflexivity. }
  split; [exact Hw'|]. rewrite Hw'. split; [|split].
  - apply reload_no_file.
  - intros bytes p Hp Hd Hlen. unfold reload. rewrite Hp.
    rewrite (load_with_snapshot w 0 0 0 bytes Hd Hlen).
    split; reflexivity.
  - intros p Hp Hno. unfold reload. rewrite Hp.
    rewrite (load_without_snapshot w 0 0 0 Hno). split; reflexivity.
Qed.

Lemma console_only_reloads_witness :
  fst (fst (console_ready (mkWorld (mkAtomStock 16 16 40) None None)
                          (Some ("GEN VODKA" ++ LF))))
  = mkWorld (mkAtomStock 16 16 40) None None.
Proof.
  destruct (console_only_reloads (mkWorld (mkAtomStock 16 16 40) None None)
                                 (Some ("GEN VODKA" ++ LF)))
    as (_ & H & _).
  apply H. reflexivity.
Defined.

(** ** The capacity as an invariant of the loop *)

Section Capacity.

Import Spec Snapshot.

Lemma image_bounded (s : AtomStock) (rest : list byte) :
  bounded s -> snapshot_bounded (Some (stock_bytes s ++ rest)%list).
Proof.
  intros H _. rewrite stock_of_stock_bytes by (apply bounded_u64; exact H).
  exact H.
Qed.

Lemma load_invariant (w : World) (c o h : Z) :
  within c -> within o -> within h ->
  snapshot_bounded (disk w) ->
  bounded (atom_stock (load_atoms_from_file w c o h))
  /\ snapshot_bounded (disk (load_atoms_from_file w c o h)).
Proof.
  intros Hc Ho Hh Hd.
  assert (Hb : bounded (mkAtomStock c o h)) by (split; [|split]; assumption).
  destruct (snapshot_cases (disk w)) as [Hno | (bytes & Hbytes & Hlen)].
  - rewrite (load_without_snapshot w c o h Hno). cbn [atom_stock disk].
    split; [exact Hb|].
    rewrite <- (app_nil_r (stock_bytes _)). apply image_bounded. exact Hb.
  - rewrite (load_with_snapshot w c o h bytes Hbytes Hlen).
    cbn [atom_stock disk set_stock]. rewrite Hbytes in Hd |- *.
    split; [apply Hd; exact Hlen | exact Hd].
Qed.

Lemma within_0 : within 0.
Proof. unfold within, MAX_ATOMS. lia. Qed.

Lemma reload_invariant (w : World) : invariant w -> invariant (reload w).
Proof.
  intros [Hb Hd]. unfold invariant. rewrite reload_path. unfold reload.
  destruct (save_file_path w) as [p|]; [|split; assumption].
  assert (Hd' : snapshot_bounded (disk w)) by (apply Hd; discriminate).
  destruct (load_invariant w 0 0 0 within_0 within_0 within_0 Hd').
  split; [assumption | intros _; assumption].
Qed.

Lemma save_invariant (w : World) : bounded (atom_stock w) -> invariant (save w).
Proof.
  intros Hb. unfold invariant. rewrite save_stock, save_path.
  split; [exact Hb|]. unfold save, save_atoms_to_file.
  destruct (save_file_path w) as [p|]; [|congruence].
  intros _. destruct (disk w) as [bytes|]; cbn [disk set_disk].
  - apply image_bounded. exact Hb.
  - rewrite <- (app_nil_r (stock_bytes _)). apply image_bounded. exact Hb.
Qed.

Lemma within_u64_sum (x : Z) :
  Z.ltb MAX_ATOMS (u64 x) = false -> within (u64 x).
Proof.
  intros H. apply Z.ltb_ge in H. pose proof (u64_range x) as Hr.
  unfold within, is_u64 in *. lia.
Qed.

Lemma tcp_invariant (w : World) (line : string) :
  invariant w -> invariant (fst (parse_and_update_tcp w line)).
Proof.
  intros Hw. apply reload_invariant in Hw. unfold parse_and_update_tcp.
  destruct (add_request line) as [e | [type val]]; [exact Hw|].
  destruct Hw as [(Hc & Ho & Hh) Hd].
  destruct type; try (split; [split; [|split]|]; assumption);
    match goal with
    | |- context [Z.ltb MAX_ATOMS ?x] =>
        destruct (Z.ltb MAX_ATOMS x) eqn:Hsum
    end;
    try (split; [split; [|split]|]; assumption);
    cbn [fst]; apply save_invariant; cbn [atom_stock set_stock];
    (split; [|split]); cbn [carbon oxygen hydrogen];
    try assumption; apply within_u64_sum; exact Hsum.
Qed.

Lemma within_difference (x r : Z) :
  within x -> is_u64 r -> Z.ltb x r = false -> within (u64 (x - r)).
Proof.
  unfold within, is_u64. intros Hx Hr H. apply Z.ltb_ge in H.
  assert (1000000000000000000 < 2 ^ 64) by reflexivity.
  unfold MAX_ATOMS in *.
  rewrite u64_small by (unfold is_u64; lia). lia.
Qed.

Lemma udp_invariant (w : World) (line : string) :
  invariant w -> invariant (fst (parse_and_update_udp w line)).
Proof.
  intros Hw. apply reload_invariant in Hw. unfold parse_and_update_udp.
  destruct (deliver_request line) as [e | [full_mol count]]; [exact Hw|].
  destruct (needed_atoms full_mol count) as [[[rc ro] rh]|] eqn:Hneed;
    [|exact Hw].
  destruct (needed_atoms_u64 _ _ _ _ _ Hneed) as (Hrc & Hro & Hrh).
  destruct (Z.ltb (carbon (atom_stock (reload w))) rc) eqn:Lc; [exact Hw|].
  destruct (Z.ltb (oxygen (atom_stock (reload w))) ro) eqn:Lo; [exact Hw|].
  destruct (Z.ltb (hydrogen (atom_stock (reload w))) rh) eqn:Lh; [exact Hw|].
  destruct Hw as [(Hc & Ho & Hh) Hd].
  cbn [fst]. apply save_invariant. cbn [atom_stock set_stock].
  split; [|split]; cbn [carbon oxygen hydrogen];
    apply within_difference; assumption.
Qed.

Lemma dispatch_invariant (w : World) (e : Event) :
  invariant w -> harmless e -> invariant (fst (dispatch w e)).
Proof.
  intros Hw He. destruct e as [r | r | input | a | r | content];
    cbn [dispatch].
  - destruct r as [buf|]; cbn [handle_tcp_client fst]; [|exact Hw].
    pose proof (tcp_invariant w buf Hw) as H.
    destruct (parse_and_update_tcp w buf). exact H.
  - destruct r as [buf|]; cbn [fst]; [|exact Hw].
    apply udp_invariant. exact Hw.
  - unfold console_ready. destruct input; cbn [fst];
      apply reload_invariant; exact Hw.
  - destruct a as [r|]; cbn [fst]; [|exact Hw].
    destruct r as [buf|]; cbn [handle_tcp_client fst];
      [|apply reload_invariant; exact Hw].
    pose proof (tcp_invariant (reload w) buf (reload_invariant w Hw)) as H.
    destruct (parse_and_update_tcp (reload w) buf). exact H.
  - destruct r as [buf|]; cbn [fst]; [|exact Hw].
    apply save_invariant.
    apply (udp_invariant (reload w) buf (reload_invariant w Hw)).
  - cbn [fst]. destruct Hw as [Hb _]. split; [exact Hb|].
    intros _. exact He.
Qed.

Lemma run_invariant (events : list Event) :
  forall w, invariant w -> Forall harmless events -> invariant (run w events).
Proof.
  induction events as [|e rest IH]; intros w Hw Hev; cbn [run].
  - exact Hw.
  - inversion Hev as [|e' rest' He Hrest]; subst.
    pose proof (dispatch_invariant w e Hw He) as Hnext.
    destruct (dispatch w e) as [w' go_on]. cbn [fst] in Hnext.
    destruct go_on; [apply IH; assumption | exact Hnext].
Qed.

Lemma main_init_invariant (o : Options) (disk0 : option (list byte)) :
  within (init_quantity (opt_c o)) ->
  within (init_quantity (opt_o o)) ->
  within (init_quantity (opt_h o)) ->
  (opt_f o <> None -> snapshot_bounded disk0) ->
  invariant (main_init o disk0).
Proof.
  intros Hc Ho Hh Hd. unfold main_init, invariant.
  destruct (opt_f o) as [p|] eqn:Hp.
  - rewrite load_path. cbn [save_file_path].
    assert (Hd' : snapshot_bounded disk0) by (apply Hd; discriminate).
    destruct (load_invariant (mkWorld (mkAtomStock 0 0 0) (Some p) disk0)
                             _ _ _ Hc Ho Hh Hd').
    split; [assumption | intros _; assumption].
  - cbn [atom_stock set_stock save_file_path].
    split; [split; [|split]; assumption | congruence].
Qed.

(** A request that is answered with an error has changed nothing: the
    world is the one the handler reloaded. *)
Lemma tcp_error_keeps_world (w : World) (line : string) :
  prefix "ERROR" (snd (parse_and_update_tcp w line)) = true ->
  fst (parse_and_update_tcp w line) = reload w.
Proof.
  unfold parse_and_update_tcp.
  destruct (add_request line) as [e | [type val]]; [reflexivity|].
  destruct type; try reflexivity;
    match goal with
    | |- context [Z.ltb MAX_ATOMS ?x] => destruct (Z.ltb MAX_ATOMS x)
    end; try reflexivity; cbn [snd tcp_ok append]; discriminate.
Qed.

Lemma udp_error_keeps_world (w : World) (line : string) :
  prefix "ERROR" (snd (parse_and_update_udp w line)) = true ->
  fst (parse_and_update_udp w line) = reload w.
Proof.
  unfold parse_and_update_udp.
  destruct (deliver_request line) as [e | [full_mol count]]; [reflexivity|].
  destruct (needed_atoms full_mol count) as [[[rc ro] rh]|]; [|reflexivity].
  destruct (Z.ltb (carbon (atom_stock (reload w))) rc); [reflexivity|].
  destruct (Z.ltb (oxygen (atom_stock (reload w))) ro); [reflexivity|].
  destruct (Z.ltb (hydrogen (atom_stock (reload w))) rh); [reflexivity|].
  cbn [snd udp_ok append]. discriminate.
Qed.

End Capacity.

(** C2 as stated does not hold: the initial quantities of the command
    line are stored as [strtoull] reads them, and a snapshot is loaded as
    the file holds it, with no check against the capacity.  Started with
    "-c 2000000000000000000" the server holds more than 10^18 carbon
    atoms before any request; started on a file of 24 bytes 0xFF it
    holds 2^64 - 1 atoms of each element. *)
Lemma capacity_not_established :
  ~ (forall (o : Options) (disk0 : option (list byte)) (events : list Event),
        Spec.bounded (atom_stock (run (main_init o disk0) events)))
  /\ carbon (atom_stock
               (main_init (mkOptions (Some "2000000000000000000") None None None)
                          None))
     = 2000000000000000000
  /\ atom_stock
       (main_init (mkOptions None None None (Some "atoms.bin"))
                  (Some (repeat Corelib.Init.Byte.xff 24)))
     = mkAtomStock 18446744073709551615 18446744073709551615
                   18446744073709551615.
Proof.
  split; [|split; vm_compute; reflexivity].
  intros H.
  destruct (H (mkOptions (Some "2000000000000000000") None None None) None [])
    as ((_ & Hmax) & _).
  vm_compute in Hmax. apply Hmax. reflexivity.
Qed.

(** C2, amended.  When the initial quantities of the command line are
    within [0, 10^18] and the snapshot file, if one is configured and
    holds a snapshot, holds counters within [0, 10^18], then after any
    sequence of events (ADD and DELIVER requests on any transport,
    console lines, and changes of the file by other processes that keep
    its snapshot within the bound) the three counters are within
    [0, 10^18], and so is the snapshot that the next reload would read.
    A request that is then refused, for an overflow, an underflow or any
    other reason, has modified no counter: the world is as reloaded. *)
Theorem capacity_preserved
        (o : Options) (disk0 : option (list byte)) (events : list Event) :
  Spec.within (init_quantity (opt_c o)) ->
  Spec.within (init_quantity (opt_o o)) ->
  Spec.within (init_quantity (opt_h o)) ->
  (opt_f o <> None -> Spec.snapshot_bounded disk0) ->
  Forall Spec.harmless events ->
  let w := run (main_init o disk0) events in
  Spec.bounded (atom_stock w)
  /\ Spec.invariant w
  /\ (forall e, Spec.harmless e -> Spec.invariant (fst (dispatch w e)))
  /\ (forall line,
         prefix "ERROR" (snd (parse_and_update_tcp w line)) = true ->
         fst (parse_and_update_tcp w line) = reload w)
  /\ (forall line,
         prefix "ERROR" (snd (parse_and_update_udp w line)) = true ->
         fst (parse_and_update_udp w line) = reload w).
Proof.
  intros Hc Ho Hh Hd Hev w.
  pose proof (run_invariant events _ (main_init_invariant o disk0 Hc Ho Hh Hd)
                            Hev) as H.
  fold w in H.
  split; [exact (proj1 H)|]. split; [exact H|]. split; [|split].
  - intros e He. apply dispatch_invariant; assumption.
  - apply tcp_error_keeps_world.
  - apply udp_error_keeps_world.
Qed.

Lemma capacity_preserved_witness :
  Spec.bounded
    (atom_stock
       (run (main_init (mkOptions (Some "1000000000000000000") (Some "5")
                                  (Some "5") (Some "atoms.bin")) None)
            [TcpClient (Some ("ADD CARBON 1" ++ LF));
             UdpDatagram (Some ("DELIVER WATER 2" ++ LF));
             FileChanged None;
             Console (Some "GEN VODKA")])).
Proof.
  refine (proj1 (capacity_preserved
                   (mkOptions (Some "1000000000000000000") (Some "5")
                              (Some "5") (Some "atoms.bin"))
                   None
                   [TcpClient (Some ("ADD CARBON 1" ++ LF));
                    UdpDatagram (Some ("DELIVER WATER 2" ++ LF));
                    FileChanged None;
                    Console (Some "GEN VODKA")] _ _ _ _ _)).
  - vm_compute. split; discriminate.
  - vm_compute. split; discriminate.
  - vm_compute. split; discriminate.
  - intros _. exact I.
  - repeat constructor.
Defined.

(** ** The snapshot file as the mirror of the inventory *)

Section Mirror.

Import Spec Snapshot Shared.

Lemma byte_of_Z_of_byte (b : byte) (x : Z) :
  byte_of_Z (Z_of_byte b + 256 * x) = b.
Proof.
  unfold byte_of_Z. pose proof (Z_of_byte_range b) as Hr.
  replace ((Z_of_byte b + 256 * x) mod 256) with (Z_of_byte b).
  - unfold Z_of_byte. rewrite N2Z.id, Stdlib.Strings.Byte.of_to_N.
    reflexivity.
  - rewrite (Z.mul_comm 256 x), Z.mod_add by lia.
    symmetry. apply Z.mod_small. exact Hr.
Qed.

Lemma le_encode_decode (l : list byte) :
  le_encode (List.length l) (le_decode l) = l.
Proof.
  induction l as [|b l IH]; [reflexivity|].
  cbn [List.length le_encode le_decode].
  rewrite byte_of_Z_of_byte. f_equal.
  pose proof (Z_of_byte_range b) as Hr.
  replace ((Z_of_byte b + 256 * le_decode l) / 256) with (le_decode l);
    [exact IH|].
  rewrite (Z.mul_comm 256 (le_decode l)), Z.div_add by lia.
  rewrite (Z.div_small (Z_of_byte b)) by exact Hr. lia.
Qed.

Lemma le_encode_decode_8 (l : list byte) :
  List.length l = 8%nat -> le_encode 8 (le_decode l) = l.
Proof. intros H. rewrite <- H. apply le_encode_decode. Qed.

(** The image of what is read is what was read. *)
Lemma stock_bytes_of_bytes (bs : list byte) :
  (sizeof_AtomStock <= List.length bs)%nat ->
  stock_bytes (stock_of_bytes bs) = firstn sizeof_AtomStock bs.
Proof.
  unfold sizeof_AtomStock. intros H.
  unfold stock_bytes, stock_of_bytes. cbn [carbon oxygen hydrogen].
  rewrite !le_encode_decode_8
    by (rewrite length_firstn, ?length_skipn; lia).
  do 24 (destruct bs as [|? bs]; [cbn [List.length] in H; lia|]).
  reflexivity.
Qed.

Lemma synced_mirrors (w : World) :
  u64_stock (atom_stock w) -> synced_with w -> mirrors w.
Proof.
  intros Hu [rest Hd]. exists (stock_bytes (atom_stock w) ++ rest)%list.
  split; [exact Hd|]. split.
  - rewrite length_app, stock_bytes_length. lia.
  - apply stock_of_stock_bytes. exact Hu.
Qed.

Lemma load_synced (w : World) (c o h : Z) :
  synced_with (load_atoms_from_file w c o h).
Proof.
  destruct (snapshot_cases (disk w)) as [Hno | (bytes & Hd & Hlen)].
  - rewrite (load_without_snapshot w c o h Hno). exists [].
    cbn [disk atom_stock]. rewrite app_nil_r. reflexivity.
  - rewrite (load_with_snapshot w c o h bytes Hd Hlen).
    exists (skipn sizeof_AtomStock bytes). cbn [disk atom_stock set_stock].
    rewrite stock_bytes_of_bytes by exact Hlen.
    rewrite firstn_skipn. exact Hd.
Qed.

Lemma save_atoms_synced (w : World) : synced_with (save_atoms_to_file w).
Proof.
  unfold save_atoms_to_file, synced_with.
  destruct (disk w) as [bytes|]; cbn [disk atom_stock set_disk].
  - eexists. reflexivity.
  - exists []. rewrite app_nil_r. reflexivity.
Qed.

(** Saving what is already in the file changes nothing. *)
Lemma save_atoms_of_synced (w : World) :
  synced_with w -> save_atoms_to_file w = w.
Proof.
  intros [rest Hd]. unfold save_atoms_to_file. rewrite Hd.
  rewrite skipn_exact by apply stock_bytes_length.
  destruct w as [s p d]. cbn in *. subst d. reflexivity.
Qed.

Lemma save_of_synced (w : World) :
  (save_file_path w <> None -> synced_with w) -> save w = w.
Proof.
  intros H. unfold save. destruct (save_file_path w) as [p|]; [|reflexivity].
  apply save_atoms_of_synced. apply H. discriminate.
Qed.

Lemma reload_synced (w : World) :
  save_file_path (reload w) <> None -> synced_with (reload w).
Proof.
  rewrite reload_path. unfold reload.
  destruct (save_file_path w) as [p|]; [|congruence].
  intros _. apply load_synced.
Qed.

Lemma save_synced (w : World) :
  save_file_path (save w) <> None -> synced_with (save w).
Proof.
  rewrite save_path. unfold save.
  destruct (save_file_path w) as [p|]; [|congruence].
  intros _. apply save_atoms_synced.
Qed.

(** The world that a handler returns is in the file already. *)
Lemma tcp_result_synced (w : World) (line : string) :
  save_file_path (fst (parse_and_update_tcp w line)) <> None ->
  synced_with (fst (parse_and_update_tcp w line)).
Proof.
  unfold parse_and_update_tcp.
  destruct (add_request line) as [e | [type val]]; [apply reload_synced|].
  destruct type; try apply reload_synced;
    match goal with
    | |- context [Z.ltb MAX_ATOMS ?x] => destruct (Z.ltb MAX_ATOMS x)
    end; try apply reload_synced; cbn [fst]; apply save_synced.
Qed.

Lemma udp_result_synced (w : World) (line : string) :
  save_file_path (fst (parse_and_update_udp w line)) <> None ->
  synced_with (fst (parse_and_update_udp w line)).
Proof.
  unfold parse_and_update_udp.
  destruct (deliver_request line) as [e | [full_mol count]];
    [apply reload_synced|].
  destruct (needed_atoms full_mol count) as [[[rc ro] rh]|];
    [|apply reload_synced].
  destruct (Z.ltb (carbon (atom_stock (reload w))) rc);
    [apply reload_synced|].
  destruct (Z.ltb (oxygen (atom_stock (reload w))) ro);
    [apply reload_synced|].
  destruct (Z.ltb (hydrogen (atom_stock (reload w))) rh);
    [apply reload_synced|].
  cbn [fst]. apply save_synced.
Qed.

Lemma tcp_result_path (w : World) (line : string) :
  save_file_path (fst (parse_and_update_tcp w line)) = save_file_path w.
Proof.
  unfold parse_and_update_tcp.
  destruct (add_request line) as [e | [type val]]; [apply reload_path|].
  destruct type; try apply reload_path;
    match goal with
    | |- context [Z.ltb MAX_ATOMS ?x] => destruct (Z.ltb MAX_ATOMS x)
    end; try apply reload_path; cbn [fst];
    rewrite save_path; cbn [save_file_path set_stock]; apply reload_path.
Qed.

Lemma udp_result_path (w : World) (line : string) :
  save_file_path (fst (parse_and_update_udp w line)) = save_file_path w.
Proof.
  unfold parse_and_update_udp.
  destruct (deliver_request line) as [e | [full_mol count]];
    [apply reload_path|].
  destruct (needed_atoms full_mol count) as [[[rc ro] rh]|];
    [|apply reload_path].
  destruct (Z.ltb (carbon (atom_stock (reload w))) rc); [apply reload_path|].
  destruct (Z.ltb (oxygen (atom_stock (reload w))) ro); [apply reload_path|].
  destruct (Z.ltb (hydrogen (atom_stock (reload w))) rh);
    [apply reload_path|].
  cbn [fst]. rewrite save_path. cbn [save_file_path set_stock].
  apply reload_path.
Qed.

(** The counters that a handler leaves fit 64 bits. *)
Lemma tcp_result_u64 (w : World) (line : string) :
  u64_stock (atom_stock w) ->
  u64_stock (atom_stock (fst (parse_and_update_tcp w line))).
Proof.
  intros Hu. apply reload_u64 in Hu. unfold parse_and_update_tcp.
  destruct (add_request line) as [e | [type val]]; [exact Hu|].
  destruct Hu as (Hc & Ho & Hh).
  destruct type; try (split; [|split]; assumption);
    match goal with
    | |- context [Z.ltb MAX_ATOMS ?x] => destruct (Z.ltb MAX_ATOMS x)
    end; try (split; [|split]; assumption);
    cbn [fst]; rewrite save_stock; cbn [atom_stock set_stock];
    (split; [|split]); cbn [carbon oxygen hydrogen];
    try assumption; apply u64_range.
Qed.

Lemma udp_result_u64 (w : World) (line : string) :
  u64_stock (atom_stock w) ->
  u64_stock (atom_stock (fst (parse_and_update_udp w line))).
Proof.
  intros Hu. apply reload_u64 in Hu. unfold parse_and_update_udp.
  destruct (deliver_request line) as [e | [full_mol count]]; [exact Hu|].
  destruct (needed_atoms full_mol count) as [[[rc ro] rh]|]; [|exact Hu].
  destruct (Z.ltb (carbon (atom_stock (reload w))) rc); [exact Hu|].
  destruct (Z.ltb (oxygen (atom_stock (reload w))) ro); [exact Hu|].
  destruct (Z.ltb (hydrogen (atom_stock (reload w))) rh); [exact Hu|].
  cbn [fst]. rewrite save_stock. cbn [atom_stock set_stock].
  split; [|split]; apply u64_range.
Qed.

End Mirror.

(** X1.  Round trip of the snapshot: after [save_atoms_to_file], a call
    of [load_atoms_from_file] reads back exactly the three counters that
    were in memory, whatever the file held before and whatever initial
    quantities are passed; the load does not write the file, and the
    bytes that the old file had after the first 24 are still there. *)
Theorem save_then_load (w : World) (c o h : Z) :
  Spec.u64_stock (atom_stock w) ->
  let saved := save_atoms_to_file w in
  let loaded := load_atoms_from_file saved c o h in
  atom_stock loaded = atom_stock w
  /\ disk loaded = disk saved
  /\ (forall bytes,
         disk w = Some bytes ->
         disk saved
         = Some (Snapshot.stock_bytes (atom_stock w)
                   ++ skipn Snapshot.sizeof_AtomStock bytes)%list)
  /\ (disk w = None ->
      disk saved = Some (Snapshot.stock_bytes (atom_stock w))).
Proof.
  intros Hu saved loaded.
  destruct (synced_mirrors saved) as (bytes & Hd & Hlen & Hread).
  { unfold saved, save_atoms_to_file.
    destruct (disk w); cbn [atom_stock set_disk]; exact Hu. }
  { apply save_atoms_synced. }
  assert (Hs : atom_stock saved = atom_stock w).
  { unfold saved, save_atoms_to_file. destruct (disk w); reflexivity. }
  unfold loaded. rewrite (load_with_snapshot saved c o h bytes Hd Hlen).
  cbn [atom_stock disk set_stock]. rewrite Hread.
  split; [exact Hs|]. split; [reflexivity|]. split.
  - intros old Hold. unfold saved, save_atoms_to_file. rewrite Hold.
    reflexivity.
  - intros Hold. unfold saved, save_atoms_to_file. rewrite Hold.
    reflexivity.
Qed.

Lemma save_then_load_witness :
  atom_stock
    (load_atoms_from_file
       (save_atoms_to_file
          (mkWorld (mkAtomStock 7 1000000000000000000 18446744073709551615)
                   (Some "atoms.bin") (Some [])))
       1 2 3)
  = mkAtomStock 7 1000000000000000000 18446744073709551615.
Proof.
  refine (proj1 (save_then_load
                   (mkWorld
                      (mkAtomStock 7 1000000000000000000 18446744073709551615)
                      (Some "atoms.bin") (Some []))
                   1 2 3 _)).
  unfold Spec.u64_stock, Spec.is_u64. simpl. lia.
Defined.

(** X2.  Once [load_atoms_from_file] has run, the file holds a snapshot
    and a further load, with any other initial quantities, changes
    neither the inventory nor the file: the initial quantities count only
    when the file holds no snapshot. *)
Theorem load_is_stable (w : World) (c o h c' o' h' : Z) :
  Spec.is_u64 c -> Spec.is_u64 o -> Spec.is_u64 h ->
  load_atoms_from_file (load_atoms_from_file w c o h) c' o' h'
  = load_atoms_from_file w c o h
  /\ Shared.mirrors (load_atoms_from_file w c o h).
Proof.
  intros Hc Ho Hh.
  pose proof (load_u64 w c o h Hc Ho Hh) as Hu.
  pose proof (synced_mirrors _ Hu (load_synced w c o h)) as Hm.
  split; [|exact Hm].
  destruct Hm as (bytes & Hd & Hlen & Hread).
  rewrite (load_with_snapshot _ c' o' h' bytes Hd Hlen).
  rewrite Hread. unfold set_stock.
  destruct (load_atoms_from_file w c o h). reflexivity.
Qed.

Lemma load_is_stable_witness :
  load_atoms_from_file
    (load_atoms_from_file (mkWorld (mkAtomStock 0 0 0) (Some "f") None) 2 3 4)
    7 8 9
  = load_atoms_from_file (mkWorld (mkAtomStock 0 0 0) (Some "f") None) 2 3 4.
Proof.
  refine (proj1 (load_is_stable (mkWorld (mkAtomStock 0 0 0) (Some "f") None)
                                2 3 4 7 8 9 _ _ _));
    unfold Spec.is_u64; simpl; lia.
Defined.

Section MirrorLoop.

Import Spec Snapshot Shared.

(** What the loop keeps when a snapshot file is configured. *)
Lemma mirrored_after_reload (w : World) :
  save_file_path w <> None ->
  u64_stock (atom_stock (reload w)) /\ synced_with (reload w).
Proof.
  intros Hp. split.
  - unfold reload. destruct (save_file_path w); [|congruence].
    apply load_u64; apply is_u64_0.
  - apply reload_synced. rewrite reload_path. exact Hp.
Qed.

Lemma mirrored_after_tcp (w : World) (line : string) :
  save_file_path w <> None ->
  u64_stock (atom_stock (fst (parse_and_update_tcp w line)))
  /\ synced_with (fst (parse_and_update_tcp w line)).
Proof.
  intros Hp. split.
  - assert (Hr : fst (parse_and_update_tcp (reload w) line)
                 = fst (parse_and_update_tcp w line)).
    { unfold parse_and_update_tcp. rewrite reload_idempotent. reflexivity. }
    rewrite <- Hr. apply tcp_result_u64.
    apply (mirrored_after_reload w Hp).
  - apply tcp_result_synced. rewrite tcp_result_path. exact Hp.
Qed.

Lemma mirrored_after_udp (w : World) (line : string) :
  save_file_path w <> None ->
  u64_stock (atom_stock (fst (parse_and_update_udp w line)))
  /\ synced_with (fst (parse_and_update_udp w line)).
Proof.
  intros Hp. split.
  - assert (Hr : fst (parse_and_update_udp (reload w) line)
                 = fst (parse_and_update_udp w line)).
    { unfold parse_and_update_udp. rewrite reload_idempotent. reflexivity. }
    rewrite <- Hr. apply udp_result_u64.
    apply (mirrored_after_reload w Hp).
  - apply udp_result_synced. rewrite udp_result_path. exact Hp.
Qed.

Lemma dispatch_kept (w : World) (e : Event) :
  kept w -> internal e -> kept (fst (dispatch w e)).
Proof.
  intros (Hp & Hu & Hs) He.
  destruct e as [r | r | input | a | r | content]; cbn [dispatch].
  - destruct r as [buf|]; cbn [handle_tcp_client fst];
      [|split; [|split]; assumption].
    pose proof (mirrored_after_tcp w buf Hp) as [H1 H2].
    pose proof (tcp_result_path w buf) as H3.
    destruct (parse_and_update_tcp w buf) as [w' resp]. cbn [fst] in *.
    split; [congruence | split; assumption].
  - destruct r as [buf|]; cbn [fst]; [|split; [|split]; assumption].
    pose proof (mirrored_after_udp w buf Hp) as [H1 H2].
    split; [rewrite udp_result_path; exact Hp | split; assumption].
  - assert (Hw : fst (let '(w', _, go_on) := console_ready w input in
                      (w', go_on)) = reload w).
    { unfold console_ready. destruct input; reflexivity. }
    rewrite Hw. destruct (mirrored_after_reload w Hp).
    split; [rewrite reload_path; exact Hp | split; assumption].
  - destruct a as [r|]; cbn [fst]; [|split; [|split]; assumption].
    assert (Hp' : save_file_path (reload w) <> None)
      by (rewrite reload_path; exact Hp).
    destruct r as [buf|]; cbn [handle_tcp_client fst].
    + pose proof (mirrored_after_tcp (reload w) buf Hp') as [H1 H2].
      pose proof (tcp_result_path (reload w) buf) as H3.
      destruct (parse_and_update_tcp (reload w) buf) as [w' resp].
      cbn [fst] in *. split; [congruence | split; assumption].
    + destruct (mirrored_after_reload w Hp).
      split; [exact Hp' | split; assumption].
  - destruct r as [buf|]; cbn [fst]; [|split; [|split]; assumption].
    assert (Hp' : save_file_path (reload w) <> None)
      by (rewrite reload_path; exact Hp).
    pose proof (mirrored_after_udp (reload w) buf Hp') as [H1 H2].
    pose proof (udp_result_path (reload w) buf) as H3.
    split; [rewrite save_path; congruence|].
    split; [rewrite save_stock; exact H1|].
    apply save_synced. rewrite save_path. congruence.
  - destruct He.
Qed.

Lemma run_kept (events : list Event) :
  forall w, kept w -> Forall internal events -> kept (run w events).
Proof.
  induction events as [|e rest IH]; intros w Hw Hev; cbn [run].
  - exact Hw.
  - inversion Hev as [|e' rest' He Hrest]; subst.
    pose proof (dispatch_kept w e Hw He) as Hnext.
    destruct (dispatch w e) as [w' go_on]. cbn [fst] in Hnext.
    destruct go_on; [apply IH; assumption | exact Hnext].
Qed.

Lemma init_quantity_u64 (optarg : option string) : is_u64 (init_quantity optarg).
Proof.
  unfold init_quantity, is_u64. destruct optarg as [a|].
  - pose proof (strtoull_range a). unfold ULLONG_MAX in *. lia.
  - split; [lia | reflexivity].
Qed.

Lemma main_init_kept (o : Options) (disk0 : option (list byte)) :
  opt_f o <> None -> kept (main_init o disk0).
Proof.
  intros Hp. unfold main_init, kept.
  destruct (opt_f o) as [p|]; [|congruence].
  rewrite load_path. cbn [save_file_path].
  split; [discriminate|]. split.
  - apply load_u64; apply init_quantity_u64.
  - apply load_synced.
Qed.

End MirrorLoop.

(** X3.  When the server is started with a snapshot file, then after
    start-up and after every event that it handles (requests on any
    transport, console lines), the file holds a snapshot and its three
    counters are the counters in memory, as long as no other process
    changes the file. *)
Theorem file_mirrors_inventory
        (o : Options) (disk0 : option (list byte)) (events : list Event) :
  opt_f o <> None ->
  Forall Shared.internal events ->
  Shared.mirrors (run (main_init o disk0) events).
Proof.
  intros Hp Hev.
  destruct (run_kept events _ (main_init_kept o disk0 Hp) Hev)
    as (_ & Hu & Hs).
  apply synced_mirrors; assumption.
Qed.

Lemma file_mirrors_inventory_witness :
  Shared.mirrors
    (run (main_init (mkOptions (Some "3") None None (Some "atoms.bin"))
                    (Some []))
         [TcpClient (Some ("ADD OXYGEN 5" ++ LF));
          UdsDatagram (Some ("DELIVER WATER 9" ++ LF));
          Console (Some "GEN VODKA")]).
Proof.
  apply (file_mirrors_inventory
           (mkOptions (Some "3") None None (Some "atoms.bin")) (Some [])).
  - discriminate.
  - repeat constructor.
Defined.

(** X4.  What one server commits, another server on the same file sees:
    after an ADD or a DELIVER request handled by a server with a snapshot
    file, the reload of any other server whose file has that content
    gives it the counters of the first, whatever it had in memory. *)
Theorem other_server_sees_commit (wa wb : World) (line : string) :
  save_file_path wa <> None ->
  save_file_path wb <> None ->
  (let wa' := fst (parse_and_update_tcp wa line) in
   atom_stock (reload (set_disk wb (disk wa'))) = atom_stock wa')
  /\ (let wa' := fst (parse_and_update_udp wa line) in
      atom_stock (reload (set_disk wb (disk wa'))) = atom_stock wa').
Proof.
  intros Ha Hb.
  assert (Hsee : forall wa',
             Spec.u64_stock (atom_stock wa') -> Shared.synced_with wa' ->
             atom_stock (reload (set_disk wb (disk wa'))) = atom_stock wa').
  { intros wa' Hu Hs.
    destruct (synced_mirrors wa' Hu Hs) as (bytes & Hd & Hlen & Hread).
    unfold reload. cbn [save_file_path set_disk].
    destruct (save_file_path wb) as [p|]; [|congruence].
    rewrite (load_with_snapshot _ 0 0 0 bytes); [|exact Hd|exact Hlen].
    exact Hread. }
  split.
  - destruct (mirrored_after_tcp wa line Ha). apply Hsee; assumption.
  - destruct (mirrored_after_udp wa line Ha). apply Hsee; assumption.
Qed.

Lemma other_server_sees_commit_witness :
  atom_stock
    (reload
       (set_disk (mkWorld (mkAtomStock 9 9 9) (Some "atoms.bin") None)
                 (disk (fst (parse_and_update_tcp
                               (mkWorld (mkAtomStock 0 0 0)
                                        (Some "atoms.bin") None)
                               ("ADD CARBON 4" ++ LF))))))
  = atom_stock (fst (parse_and_update_tcp
                       (mkWorld (mkAtomStock 0 0 0) (Some "atoms.bin") None)
                       ("ADD CARBON 4" ++ LF))).
Proof.
  refine (proj1 (other_server_sees_commit
                   (mkWorld (mkAtomStock 0 0 0) (Some "atoms.bin") None)
                   (mkWorld (mkAtomStock 9 9 9) (Some "atoms.bin") None)
                   ("ADD CARBON 4" ++ LF) _ _)); discriminate.
Defined.

(** X5.  The Unix-domain transports treat a request as the Internet
    transports do.  The reload that the loop makes before it hands a
    Unix-domain request to the handler, and the save that it makes after
    a Unix-domain datagram, change nothing: the handler reloads by itself
    and its result is already in the file.  Same world and same response
    for a datagram on either socket, and for a line on either stream. *)
Theorem unix_transports_like_inet (w : World) (buf : string) :
  parse_and_update_udp (reload w) buf = parse_and_update_udp w buf
  /\ save (fst (parse_and_update_udp (reload w) buf))
     = fst (parse_and_update_udp w buf)
  /\ handle_tcp_client (reload w) (Some buf) = handle_tcp_client w (Some buf)
  /\ dispatch w (UdsDatagram (Some buf)) = dispatch w (UdpDatagram (Some buf))
  /\ dispatch w (UdsStream (Some (Some buf))) = dispatch w (TcpClient (Some buf)).
Proof.
  assert (Hu : parse_and_update_udp (reload w) buf = parse_and_update_udp w buf).
  { unfold parse_and_update_udp. rewrite reload_idempotent. reflexivity. }
  assert (Ht : parse_and_update_tcp (reload w) buf = parse_and_update_tcp w buf).
  { unfold parse_and_update_tcp. rewrite reload_idempotent. reflexivity. }
  assert (Hs : save (fst (parse_and_update_udp w buf))
               = fst (parse_and_update_udp w buf)).
  { apply save_of_synced. apply udp_result_synced. }
  split; [exact Hu|]. split; [rewrite Hu; exact Hs|].
  split; [cbn [handle_tcp_client]; rewrite Ht; reflexivity|].
  split.
  - cbn [dispatch]. rewrite Hu, Hs. reflexivity.
  - cbn [dispatch handle_tcp_client]. rewrite Ht. reflexivity.
Qed.

(** ** Requests in sequence *)

Section Sequences.

Import Spec Shared.

(** A world that the server has synchronised with its file reloads to
    itself. *)
Lemma reload_fixed (w : World) :
  (save_file_path w <> None ->
   u64_stock (atom_stock w) /\ synced_with w) ->
  reload w = w.
Proof.
  intros H. unfold reload. destruct (save_file_path w) as [p|] eqn:Hp;
    [|reflexivity].
  destruct H as [Hu Hs]; [discriminate|].
  destruct (synced_mirrors w Hu Hs) as (bytes & Hd & Hlen & Hread).
  rewrite (load_with_snapshot w 0 0 0 bytes Hd Hlen), Hread.
  destruct w. reflexivity.
Qed.

Lemma reload_after_tcp (w : World) (line : string) :
  reload (fst (parse_and_update_tcp w line)) = fst (parse_and_update_tcp w line).
Proof.
  apply reload_fixed. rewrite tcp_result_path. apply mirrored_after_tcp.
Qed.

Lemma reload_after_udp (w : World) (line : string) :
  reload (fst (parse_and_update_udp w line)) = fst (parse_and_update_udp w line).
Proof.
  apply reload_fixed. rewrite udp_result_path. apply mirrored_after_udp.
Qed.

(** The quantity of an accepted ADD request. *)
Lemma add_request_inr (line : string) (type : AtomType) (val : Z) :
  add_request line = inr (type, val) ->
  0 <= val <= MAX_ATOMS /\ type <> TYPE_UNKNOWN.
Proof.
  rewrite add_request_words.
  destruct (words line) as [|a [|b [|c rest]]]; try discriminate.
  cbn [OnTokens.add].
  destruct (negb (String.eqb a "ADD")); [discriminate|].
  destruct (String.eqb b "CARBON");
    [|destruct (String.eqb b "OXYGEN");
      [|destruct (String.eqb b "HYDROGEN"); [|discriminate]]];
    rewrite number_cases;
    (destruct (negb (signed_literal c)); [discriminate|]);
    (destruct (Z.ltb_spec MAX_ATOMS (fst (strtoull c))); [discriminate|]);
    intros Hinr; inversion Hinr; subst;
    pose proof (strtoull_range c); (split; [lia | discriminate]).
Qed.

(** An ADD request of an unsigned literal within the capacity, on a
    counter that leaves room for it. *)
Lemma add_step (w : World) (line : string) (k : Element) (num : string)
      (rest : list string) :
  words line = "ADD" :: element_name k :: num :: rest ->
  unsigned_literal num = true ->
  let s := atom_stock (reload w) in
  let q := decimal_value num in
  0 <= count_of k s ->
  count_of k s + q <= MAX_ATOMS ->
  atom_stock (fst (parse_and_update_tcp w line))
  = with_count k (count_of k s + q) s
  /\ prefix "OK" (snd (parse_and_update_tcp w line)) = true.
Proof.
  intros Hw Hlit s q Hcur Hsum.
  destruct (strtoull_literal_value num Hlit) as (Hq0 & Hsmall & _).
  fold q in Hq0, Hsmall.
  assert (Hq : q <= MAX_ATOMS) by lia.
  assert (Hreq : add_request line = inr (atom_type k, q)).
  { rewrite add_request_words, Hw, add_well_formed, number_cases.
    rewrite (unsigned_is_signed num Hlit), (Hsmall Hq). cbn [negb].
    apply Z.ltb_ge in Hq. rewrite Hq. reflexivity. }
  rewrite (add_commit w line k q Hreq). fold s.
  assert (Hadd : u64 (count_of k s + q) = count_of k s + q).
  { apply u64_small. unfold is_u64. unfold MAX_ATOMS in *.
    change (2 ^ 64) with 18446744073709551616. lia. }
  rewrite Hadd. apply Z.ltb_ge in Hsum. rewrite Hsum. cbn [fst snd].
  rewrite save_stock. split; reflexivity.
Qed.

Lemma with_count_same (k : Element) (s : AtomStock) :
  with_count k (count_of k s) s = s.
Proof. destruct k, s; reflexivity. Qed.

Lemma with_count_twice (k : Element) (a b : Z) (s : AtomStock) :
  with_count k a (with_count k b s) = with_count k a s.
Proof. destruct k; reflexivity. Qed.

Lemma count_of_with_count (k : Element) (a : Z) (s : AtomStock) :
  count_of k (with_count k a s) = a.
Proof. destruct k; reflexivity. Qed.

End Sequences.

(** X6.  The counter of a kind after a sequence of ADD requests for
    that kind is its value before plus the sum of the quantities, and the
    two other counters are as before, when the total stays within the
    capacity: no addition is lost or counted twice.  The counters are
    those that the next request sees (the counters in memory, without a
    snapshot file). *)
Theorem add_accumulates (k : Spec.Element) (requests : list (string * Z)) :
  forall w : World,
    Forall (fun r =>
              exists num rest,
                Spec.words (fst r)
                = "ADD" :: Spec.element_name k :: num :: rest
                /\ Spec.unsigned_literal num = true
                /\ Spec.decimal_value num = snd r)
           requests ->
    let s := atom_stock (reload w) in
    let total := fold_right Z.add 0 (map snd requests) in
    0 <= Spec.count_of k s ->
    Spec.count_of k s + total <= MAX_ATOMS ->
    let w' := fold_left (fun w r => fst (parse_and_update_tcp w (fst r)))
                        requests w in
    atom_stock (reload w') = Spec.with_count k (Spec.count_of k s + total) s
    /\ (save_file_path w = None ->
        atom_stock w'
        = Spec.with_count k (Spec.count_of k (atom_stock w) + total)
                          (atom_stock w)).
Proof.
  assert (Hmain : forall w : World,
             Forall (fun r =>
                       exists num rest,
                         Spec.words (fst r)
                         = "ADD" :: Spec.element_name k :: num :: rest
                         /\ Spec.unsigned_literal num = true
                         /\ Spec.decimal_value num = snd r)
                    requests ->
             0 <= Spec.count_of k (atom_stock (reload w)) ->
             Spec.count_of k (atom_stock (reload w))
             + fold_right Z.add 0 (map snd requests) <= MAX_ATOMS ->
             atom_stock
               (reload (fold_left
                          (fun w r => fst (parse_and_update_tcp w (fst r)))
                          requests w))
             = Spec.with_count
                 k (Spec.count_of k (atom_stock (reload w))
                    + fold_right Z.add 0 (map snd requests))
                 (atom_stock (reload w))).
  { induction requests as [|[line q] rest IH]; intros w Hall Hcur Hsum.
    - cbn [fold_left map fold_right]. rewrite Z.add_0_r.
      symmetry. apply with_count_same.
    - inversion Hall as [|r rs Hr Hrest]; subst.
      destruct Hr as (num & extra & Hw & Hlit & Hq). cbn [fst snd] in *.
      cbn [fold_left map fold_right fst snd] in *.
      pose proof (decimal_value_nonneg
                    num (unsigned_literal_digits num Hlit)) as Hq0.
      rewrite Hq in Hq0.
      assert (Hrest0 : 0 <= fold_right Z.add 0 (map snd rest)).
      { clear -Hrest. induction Hrest as [|r rs Hr _ IHr]; cbn; [lia|].
        destruct Hr as (n & e & _ & Hl & Hv).
        pose proof (decimal_value_nonneg
                      n (unsigned_literal_digits n Hl)). lia. }
      destruct (add_step w line k num extra Hw Hlit Hcur) as [Hstock _].
      { rewrite Hq. lia. }
      rewrite Hq in Hstock.
      rewrite (IH (fst (parse_and_update_tcp w line)) Hrest).
      + rewrite reload_after_tcp, Hstock.
        rewrite count_of_with_count, with_count_twice.
        f_equal. lia.
      + rewrite reload_after_tcp, Hstock, count_of_with_count. lia.
      + rewrite reload_after_tcp, Hstock, count_of_with_count. lia. }
  intros w Hall s total Hcur Hsum w'. split.
  - apply Hmain; assumption.
  - intros Hp.
    assert (Hpath : save_file_path w' = None).
    { unfold w'. clear -Hp. revert w Hp.
      induction requests as [|r rest IH]; intros w Hp; [exact Hp|].
      cbn [fold_left]. apply IH. rewrite tcp_result_path. exact Hp. }
    rewrite <- (reload_no_file w' Hpath).
    unfold w'. rewrite (Hmain w Hall Hcur Hsum).
    rewrite (reload_no_file w Hp). reflexivity.
Qed.

Lemma add_accumulates_witness :
  atom_stock
    (fold_left (fun w r => fst (parse_and_update_tcp w (fst r)))
               [("ADD OXYGEN 5" ++ LF, 5); ("ADD OXYGEN 007 x" ++ LF, 7);
                ("ADD  OXYGEN  30" ++ LF, 30)]
               (mkWorld (mkAtomStock 1 2 3) None None))
  = mkAtomStock 1 44 3.
Proof.
  refine (proj2 (add_accumulates
                   Spec.Oxygen
                   [("ADD OXYGEN 5" ++ LF, 5); ("ADD OXYGEN 007 x" ++ LF, 7);
                    ("ADD  OXYGEN  30" ++ LF, 30)]
                   (mkWorld (mkAtomStock 1 2 3) None None) _ _ _) _).
  - repeat constructor.
    + exists "5", []. vm_compute. repeat split.
    + exists "007", ["x"]. vm_compute. repeat split.
    + exists "30", []. vm_compute. repeat split.
  - vm_compute. discriminate.
  - vm_compute. discriminate.
  - reflexivity.
Defined.

(** X7.  The checks of an ADD request come in this order: fewer than
    three tokens, "invalid command", even when the first is not ADD; a
    first token other than ADD, "invalid command", whatever the others;
    a second token that is not CARBON, OXYGEN or HYDROGEN, "invalid atom
    type", whatever the third; then the quantity, which when it is a
    number above 10^18 gives "number too large" whatever the counter
    holds.  Each of them leaves the world as reloaded. *)
Theorem add_validation_order (w : World) (line : string) :
  ((List.length (Spec.words line) < 3)%nat ->
   parse_and_update_tcp w line = (reload w, "ERROR: invalid command" ++ LF))
  /\ (forall cmd type num rest,
         Spec.words line = cmd :: type :: num :: rest ->
         cmd <> "ADD" ->
         parse_and_update_tcp w line
         = (reload w, "ERROR: invalid command" ++ LF))
  /\ (forall type num rest,
         Spec.words line = "ADD" :: type :: num :: rest ->
         type <> "CARBON" -> type <> "OXYGEN" -> type <> "HYDROGEN" ->
         parse_and_update_tcp w line
         = (reload w, "ERROR: invalid atom type" ++ LF))
  /\ (forall k num rest,
         Spec.words line = "ADD" :: Spec.element_name k :: num :: rest ->
         Spec.signed_literal num = true ->
         MAX_ATOMS < Spec.parsed_value num ->
         parse_and_update_tcp w line
         = (reload w, "ERROR: number too large" ++ LF)).
Proof.
  unfold parse_and_update_tcp. rewrite add_request_words.
  split; [|split; [|split]].
  - intros Hlen.
    destruct (Spec.words line) as [|a [|b [|c rest]]];
      try reflexivity. cbn [List.length] in Hlen. lia.
  - intros cmd type num rest -> Hcmd. cbn [OnTokens.add].
    apply String.eqb_neq in Hcmd. rewrite Hcmd. reflexivity.
  - intros type num rest -> H1 H2 H3. cbn [OnTokens.add].
    apply String.eqb_neq in H1. apply String.eqb_neq in H2.
    apply String.eqb_neq in H3.
    rewrite String.eqb_refl, H1, H2, H3. reflexivity.
  - intros k num rest -> Hsl Hbig.
    rewrite add_well_formed, number_cases, Hsl. cbn [negb].
    unfold Spec.parsed_value in Hbig. apply Z.ltb_lt in Hbig.
    rewrite Hbig. reflexivity.
Qed.

Lemma add_validation_order_witness :
  parse_and_update_tcp world0 ("SUB CARBON" ++ LF)
  = (world0, "ERROR: invalid command" ++ LF)
  /\ parse_and_update_tcp world0 ("ADD NEON notanumber" ++ LF)
     = (world0, "ERROR: invalid atom type" ++ LF)
  /\ parse_and_update_tcp world0 ("SUB NEON notanumber" ++ LF)
     = (world0, "ERROR: invalid command" ++ LF).
Proof.
  split; [|split].
  - apply (proj1 (add_validation_order world0 ("SUB CARBON" ++ LF))).
    vm_compute. lia.
  - apply (proj1 (proj2 (proj2 (add_validation_order
                                   world0 ("ADD NEON notanumber" ++ LF))))
                 "NEON" "notanumber" []);
      [vm_compute; reflexivity | discriminate | discriminate | discriminate].
  - apply (proj1 (proj2 (add_validation_order
                           world0 ("SUB NEON notanumber" ++ LF)))
                 "SUB" "NEON" "notanumber" []);
      [vm_compute; reflexivity | discriminate].
Defined.

(** X8.  An ADD request, whatever the line, changes at most one of the
    three counters; and on an inventory within the capacity it lowers
    none.  The counters before are those of the world as the handler
    reloads it. *)
Theorem add_touches_one_counter (w : World) (line : string) :
  let s := atom_stock (reload w) in
  let s' := atom_stock (fst (parse_and_update_tcp w line)) in
  (exists k, forall k', k' <> k -> Spec.count_of k' s' = Spec.count_of k' s)
  /\ (Spec.bounded s ->
      forall k, Spec.count_of k s <= Spec.count_of k s').
Proof.
  cbv zeta. unfold parse_and_update_tcp.
  set (s := atom_stock (reload w)).
  destruct (add_request line) as [e | [type val]] eqn:Hreq.
  { cbn [fst]. fold s.
    split; [exists Spec.Carbon; reflexivity | intros _ k; lia]. }
  destruct (add_request_inr line type val Hreq) as [Hval _].
  assert (Hup : forall cur, Spec.within cur -> cur <= u64 (cur + val)).
  { intros cur Hcur. rewrite u64_small; [lia|].
    unfold Spec.within, Spec.is_u64, MAX_ATOMS in *.
    change (2 ^ 64) with 18446744073709551616. lia. }
  assert (Hsame : (exists k : Spec.Element,
                      forall k', k' <> k ->
                                 Spec.count_of k' s = Spec.count_of k' s)
                  /\ (Spec.bounded s ->
                      forall k, Spec.count_of k s <= Spec.count_of k s)).
  { split; [exists Spec.Carbon; reflexivity | intros _ k; lia]. }
  destruct type.
  - destruct (Z.ltb MAX_ATOMS (u64 (carbon s + val)));
      cbn [fst]; rewrite ?save_stock; cbn [atom_stock set_stock];
      fold s; [exact Hsame|].
    split.
    + exists Spec.Carbon. intros k' Hk.
      destruct k'; cbn [Spec.count_of carbon oxygen hydrogen];
        try reflexivity; congruence.
    + intros (Hc & Ho & Hh) k.
      destruct k; cbn [Spec.count_of carbon oxygen hydrogen];
        try lia. apply Hup. exact Hc.
  - destruct (Z.ltb MAX_ATOMS (u64 (oxygen s + val)));
      cbn [fst]; rewrite ?save_stock; cbn [atom_stock set_stock];
      fold s; [exact Hsame|].
    split.
    + exists Spec.Oxygen. intros k' Hk.
      destruct k'; cbn [Spec.count_of carbon oxygen hydrogen];
        try reflexivity; congruence.
    + intros (Hc & Ho & Hh) k.
      destruct k; cbn [Spec.count_of carbon oxygen hydrogen];
        try lia. apply Hup. exact Ho.
  - destruct (Z.ltb MAX_ATOMS (u64 (hydrogen s + val)));
      cbn [fst]; rewrite ?save_stock; cbn [atom_stock set_stock];
      fold s; [exact Hsame|].
    split.
    + exists Spec.Hydrogen. intros k' Hk.
      destruct k'; cbn [Spec.count_of carbon oxygen hydrogen];
        try reflexivity; congruence.
    + intros (Hc & Ho & Hh) k.
      destruct k; cbn [Spec.count_of carbon oxygen hydrogen];
        try lia. apply Hup. exact Hh.
  - cbn [fst]. fold s. exact Hsame.
Qed.

Lemma add_touches_one_counter_witness :
  Spec.count_of Spec.Hydrogen (mkAtomStock 1 2 3)
  <= Spec.count_of
       Spec.Hydrogen
       (atom_stock
          (fst (parse_and_update_tcp
                  (mkWorld (mkAtomStock 1 2 3) None None)
                  ("ADD HYDROGEN 4" ++ LF)))).
Proof.
  refine (proj2 (add_touches_one_counter
                   (mkWorld (mkAtomStock 1 2 3) None None)
                   ("ADD HYDROGEN 4" ++ LF)) _ Spec.Hydrogen).
  unfold Spec.bounded, Spec.within, MAX_ATOMS. simpl. lia.
Defined.

(** X9.  A DELIVER request, whatever the line, raises no counter and
    takes none below zero.  The counters before are those of the world as
    the handler reloads it. *)
Theorem deliver_never_adds (w : World) (line : string) :
  Spec.u64_stock (atom_stock w) ->
  let s := atom_stock (reload w) in
  let s' := atom_stock (fst (parse_and_update_udp w line)) in
  0 <= carbon s' <= carbon s
  /\ 0 <= oxygen s' <= oxygen s
  /\ 0 <= hydrogen s' <= hydrogen s.
Proof.
  intros Hu. cbv zeta. pose proof (reload_u64 w Hu) as Hs.
  unfold parse_and_update_udp.
  set (s := atom_stock (reload w)) in *.
  destruct Hs as (Hc & Ho & Hh). unfold Spec.is_u64 in *.
  destruct (deliver_request line) as [e | [full_mol count]];
    [cbn [fst]; fold s; lia|].
  destruct (needed_atoms full_mol count) as [[[rc ro] rh]|] eqn:Hneed;
    [|cbn [fst]; fold s; lia].
  destruct (needed_atoms_u64 _ _ _ _ _ Hneed) as (Hrc & Hro & Hrh).
  unfold Spec.is_u64 in *.
  destruct (Z.ltb_spec (carbon s) rc); [cbn [fst]; fold s; lia|].
  destruct (Z.ltb_spec (oxygen s) ro); [cbn [fst]; fold s; lia|].
  destruct (Z.ltb_spec (hydrogen s) rh); [cbn [fst]; fold s; lia|].
  cbn [fst]. rewrite save_stock.
  cbn [atom_stock set_stock carbon oxygen hydrogen].
  rewrite !u64_small by (unfold Spec.is_u64; lia). lia.
Qed.

Lemma deliver_never_adds_witness :
  carbon (atom_stock
            (fst (parse_and_update_udp
                    (mkWorld (mkAtomStock 20 20 20) None None)
                    ("DELIVER GLUCOSE 1" ++ LF))))
  <= 20.
Proof.
  refine (proj2 (proj1 (deliver_never_adds
                          (mkWorld (mkAtomStock 20 20 20) None None)
                          ("DELIVER GLUCOSE 1" ++ LF) _))).
  unfold Spec.u64_stock, Spec.is_u64. simpl. lia.
Defined.

Section DeliverSteps.

Import Spec.

(** A DELIVER request for [q] molecules written as an unsigned literal
    within the capacity: the three checks and the subtraction. *)
Lemma deliver_step (w : World) (line : string) (m : Molecule) (num : string) :
  words line = ("DELIVER" :: molecule_tokens m ++ [num])%list ->
  unsigned_literal num = true ->
  decimal_value num <= MAX_ATOMS ->
  parse_and_update_udp w line
  = (let q := decimal_value num in
     let s := atom_stock (reload w) in
     let '(rc, ro, rh) := recipe m in
     if Z.ltb (carbon s) (rc * q)
     then (reload w, "ERROR: not enough carbon atoms" ++ LF)
     else if Z.ltb (oxygen s) (ro * q)
     then (reload w, "ERROR: not enough oxygen atoms" ++ LF)
     else if Z.ltb (hydrogen s) (rh * q)
     then (reload w, "ERROR: not enough hydrogen atoms" ++ LF)
     else
       let s' := mkAtomStock (u64 (carbon s - rc * q))
                             (u64 (oxygen s - ro * q))
                             (u64 (hydrogen s - rh * q)) in
       (save (set_stock (reload w) s'), udp_ok s')).
Proof.
  intros Hw Hlit Hq.
  destruct (strtoull_literal_value num Hlit) as (Hq0 & Hsmall & _).
  unfold parse_and_update_udp.
  rewrite deliver_request_words, Hw, deliver_well_formed, number_cases.
  rewrite (unsigned_is_signed num Hlit), (Hsmall Hq). cbn [negb].
  assert (Hle : Z.ltb MAX_ATOMS (decimal_value num) = false)
    by (apply Z.ltb_ge; exact Hq).
  rewrite Hle.
  rewrite (needed_atoms_recipe m (decimal_value num) (conj Hq0 Hq)).
  cbv zeta. destruct (recipe m) as [[rc ro] rh].
  destruct (Z.ltb (carbon (atom_stock (reload w))) (rc * decimal_value num));
    [reflexivity|].
  destruct (Z.ltb (oxygen (atom_stock (reload w))) (ro * decimal_value num));
    [reflexivity|].
  destruct (Z.ltb (hydrogen (atom_stock (reload w))) (rh * decimal_value num));
    [reflexivity|].
  rewrite save_stock. reflexivity.
Qed.

Lemma recipe_nonneg (m : Molecule) :
  let '(rc, ro, rh) := recipe m in 0 <= rc /\ 0 <= ro /\ 0 <= rh.
Proof. destruct m; cbn; lia. Qed.

End DeliverSteps.

(** X10.  Two DELIVER requests for the same molecule, one after the
    other, on an inventory that suffices for the first and not for both:
    the first is served and takes exactly its atoms, the second is
    refused with a "not enough ... atoms" error and takes nothing, so
    that the inventory after both is the inventory after the first. *)
Theorem second_deliver_is_refused
        (w : World) (m : Spec.Molecule) (line1 num1 line2 num2 : string) :
  Spec.u64_stock (atom_stock w) ->
  Spec.words line1 = ("DELIVER" :: Spec.molecule_tokens m ++ [num1])%list ->
  Spec.words line2 = ("DELIVER" :: Spec.molecule_tokens m ++ [num2])%list ->
  Spec.unsigned_literal num1 = true ->
  Spec.unsigned_literal num2 = true ->
  let q1 := Spec.decimal_value num1 in
  let q2 := Spec.decimal_value num2 in
  let s := atom_stock (reload w) in
  q1 <= MAX_ATOMS -> q2 <= MAX_ATOMS ->
  (let '(rc, ro, rh) := Spec.recipe m in
   (rc * q1 <= carbon s /\ ro * q1 <= oxygen s /\ rh * q1 <= hydrogen s)
   /\ (carbon s < rc * (q1 + q2) \/ oxygen s < ro * (q1 + q2)
       \/ hydrogen s < rh * (q1 + q2))) ->
  let first := parse_and_update_udp w line1 in
  let second := parse_and_update_udp (fst first) line2 in
  prefix "OK" (snd first) = true
  /\ (let '(rc, ro, rh) := Spec.recipe m in
      atom_stock (fst first)
      = mkAtomStock (carbon s - rc * q1) (oxygen s - ro * q1)
                    (hydrogen s - rh * q1))
  /\ prefix "ERROR: not enough " (snd second) = true
  /\ fst second = fst first.
Proof.
  intros Hu Hw1 Hw2 Hl1 Hl2 q1 q2 s Hq1 Hq2 Hstock first second.
  pose proof (reload_u64 w Hu) as Hs. fold s in Hs.
  destruct Hs as (Hc & Ho & Hh). unfold Spec.is_u64 in *.
  pose proof (decimal_value_nonneg
                num1 (unsigned_literal_digits num1 Hl1)) as Hq10.
  pose proof (decimal_value_nonneg
                num2 (unsigned_literal_digits num2 Hl2)) as Hq20.
  fold q1 in Hq10. fold q2 in Hq20.
  pose proof (recipe_nonneg m) as Hrec.
  assert (Hfirst : first = parse_and_update_udp w line1) by reflexivity.
  rewrite (deliver_step w line1 m num1 Hw1 Hl1 Hq1) in Hfirst.
  cbv zeta in Hfirst. fold q1 s in Hfirst.
  assert (Hsecond : second = parse_and_update_udp (fst first) line2)
    by reflexivity.
  rewrite (deliver_step (fst first) line2 m num2 Hw2 Hl2 Hq2) in Hsecond.
  cbv zeta in Hsecond. fold q2 in Hsecond.
  assert (Hre : reload (fst first) = fst first)
    by (apply reload_after_udp).
  rewrite Hre in Hsecond. clear Hre.
  destruct (Spec.recipe m) as [[rc ro] rh].
  destruct Hrec as (Hrc & Hro & Hrh).
  destruct Hstock as ((Ec & Eo & Eh) & Hshort).
  assert (Lc : Z.ltb (carbon s) (rc * q1) = false) by (apply Z.ltb_ge; lia).
  assert (Lo : Z.ltb (oxygen s) (ro * q1) = false) by (apply Z.ltb_ge; lia).
  assert (Lh : Z.ltb (hydrogen s) (rh * q1) = false) by (apply Z.ltb_ge; lia).
  rewrite Lc, Lo, Lh in Hfirst.
  assert (Pc : 0 <= rc * q1) by (apply Z.mul_nonneg_nonneg; lia).
  assert (Po : 0 <= ro * q1) by (apply Z.mul_nonneg_nonneg; lia).
  assert (Ph : 0 <= rh * q1) by (apply Z.mul_nonneg_nonneg; lia).
  rewrite !u64_small in Hfirst by (unfold Spec.is_u64; lia).
  assert (Hstock1 : atom_stock (fst first)
                    = mkAtomStock (carbon s - rc * q1) (oxygen s - ro * q1)
                                  (hydrogen s - rh * q1)).
  { rewrite Hfirst. cbn [fst]. rewrite save_stock. reflexivity. }
  rewrite Hstock1 in Hsecond. cbn [carbon oxygen hydrogen] in Hsecond.
  split; [rewrite Hfirst; reflexivity|]. split; [exact Hstock1|].
  rewrite Hsecond.
  destruct (Z.ltb_spec (carbon s - rc * q1) (rc * q2)); [split; reflexivity|].
  destruct (Z.ltb_spec (oxygen s - ro * q1) (ro * q2)); [split; reflexivity|].
  destruct (Z.ltb_spec (hydrogen s - rh * q1) (rh * q2));
    [split; reflexivity|].
  exfalso. lia.
Qed.

Lemma second_deliver_is_refused_witness :
  fst (parse_and_update_udp
         (fst (parse_and_update_udp (mkWorld (mkAtomStock 0 9 5) None None)
                                    ("DELIVER WATER 2" ++ LF)))
         ("DELIVER WATER 1" ++ LF))
  = fst (parse_and_update_udp (mkWorld (mkAtomStock 0 9 5) None None)
                              ("DELIVER WATER 2" ++ LF)).
Proof.
  refine (proj2 (proj2 (proj2 (second_deliver_is_refused
                                 (mkWorld (mkAtomStock 0 9 5) None None)
                                 Spec.Water ("DELIVER WATER 2" ++ LF) "2"
                                 ("DELIVER WATER 1" ++ LF) "1"
                                 _ _ _ _ _ _ _ _)))).
  - unfold Spec.u64_stock, Spec.is_u64. simpl. lia.
  - vm_compute. reflexivity.
  - vm_compute. reflexivity.
  - reflexivity.
  - reflexivity.
  - vm_compute. discriminate.
  - vm_compute. discriminate.
  - vm_compute. split; [repeat split; discriminate|].
    right. right. reflexivity.
Defined.

(** ** The console *)

Section ConsoleReplies.

Import Spec Shared.

(** The console reads at most three tokens of the line. *)
Lemma console_reply_words (s : AtomStock) (linebuf : string) :
  console_reply s linebuf
  = match console_words linebuf with
    | [] => "ERROR: invalid console command" ++ LF
    | cmd :: rest =>
        if negb (String.eqb cmd "GEN")
        then "ERROR: invalid console command" ++ LF
        else
          match rest with
          | [] => "ERROR: missing drink type after GEN" ++ LF
          | drink :: rest' =>
              if String.eqb drink "SOFT" then
                match rest' with
                | [] => "ERROR: did you mean 'GEN SOFT DRINK'?" ++ LF
                | maybe_drink :: _ =>
                    if negb (String.eqb maybe_drink "DRINK")
                    then "ERROR: did you mean 'GEN SOFT DRINK'?" ++ LF
                    else "You can make up to " ++ fmt_llu (can_make s 6 14 9)
                           ++ " SOFT DRINK(s)" ++ LF
                end
              else if String.eqb drink "VODKA" then
                "You can make up to " ++ fmt_llu (can_make s 8 20 8)
                  ++ " VODKA(s)" ++ LF
              else if String.eqb drink "CHAMPAGNE" then
                "You can make up to " ++ fmt_llu (can_make s 3 9 4)
                  ++ " CHAMPAGNE(s)" ++ LF
              else "ERROR: unknown drink type '" ++ drink ++ "'" ++ LF
          end
    end.
Proof.
  unfold console_reply, console_words.
  destruct (strtok_r (strip_newline linebuf) CONSOLE_DELIM) as [t1 s1] eqn:E1.
  apply strtok_r_tokens in E1. destruct E1 as [-> T1].
  destruct (tokens CONSOLE_DELIM (strip_newline linebuf)) as [|cmd rest];
    [reflexivity|].
  cbn [hd_error tl] in *.
  destruct (negb (String.eqb cmd "GEN")); [reflexivity|].
  destruct (strtok_r s1 CONSOLE_DELIM) as [t2 s2] eqn:E2.
  apply strtok_r_tokens in E2. destruct E2 as [-> T2].
  rewrite T1 in *. clear T1.
  destruct rest as [|drink rest']; [reflexivity|].
  cbn [hd_error tl] in *.
  destruct (String.eqb drink "SOFT"); [|reflexivity].
  destruct (strtok_r s2 CONSOLE_DELIM) as [t3 s3] eqn:E3.
  apply strtok_r_tokens in E3. destruct E3 as [-> T3].
  rewrite T2. destruct rest' as [|maybe rest'']; reflexivity.
Qed.

(** The least of the three quotients is the greatest number of drinks
    that the inventory affords. *)
Lemma can_make_greatest (s : AtomStock) (per_c per_h per_o n : Z) :
  0 < per_c -> 0 < per_h -> 0 < per_o ->
  affordable s per_c per_h per_o n ->
  ~ affordable s per_c per_h per_o (n + 1) ->
  can_make s per_c per_h per_o = n.
Proof.
  intros Pc Ph Po (Ac & Ah & Ao) Hnot.
  pose proof (Z.mul_div_le (carbon s) per_c Pc) as Dc.
  pose proof (Z.mul_div_le (hydrogen s) per_h Ph) as Dh.
  pose proof (Z.mul_div_le (oxygen s) per_o Po) as Do.
  pose proof (Z.mul_succ_div_gt (carbon s) per_c Pc) as Gc.
  pose proof (Z.mul_succ_div_gt (hydrogen s) per_h Ph) as Gh.
  pose proof (Z.mul_succ_div_gt (oxygen s) per_o Po) as Go.
  assert (Lc : n <= carbon s / per_c)
    by (apply Z.div_le_lower_bound; lia).
  assert (Lh : n <= hydrogen s / per_h)
    by (apply Z.div_le_lower_bound; lia).
  assert (Lo : n <= oxygen s / per_o)
    by (apply Z.div_le_lower_bound; lia).
  assert (Hone : carbon s / per_c <= n \/ hydrogen s / per_h <= n
                 \/ oxygen s / per_o <= n).
  { destruct (Z.le_gt_cases (carbon s / per_c) n) as [|Hc]; [tauto|].
    destruct (Z.le_gt_cases (hydrogen s / per_h) n) as [|Hh]; [tauto|].
    destruct (Z.le_gt_cases (oxygen s / per_o) n) as [|Ho]; [tauto|].
    exfalso. apply Hnot. unfold affordable.
    assert ((n + 1) * per_c <= per_c * (carbon s / per_c)) by nia.
    assert ((n + 1) * per_h <= per_h * (hydrogen s / per_h)) by nia.
    assert ((n + 1) * per_o <= per_o * (oxygen s / per_o)) by nia.
    lia. }
  unfold can_make.
  destruct (Z.ltb_spec (hydrogen s / per_h) (carbon s / per_c));
    match goal with
    | |- context [Z.ltb ?a ?b] => destruct (Z.ltb_spec a b)
    end; lia.
Qed.

End ConsoleReplies.

(** X11.  The number that the console gives for a drink is the greatest
    number of drinks that the inventory affords: [n] drinks need no more
    than the atoms at hand, and [n + 1] drinks need more of at least one
    element.  A VODKA takes 8 carbon, 20 hydrogen and 8 oxygen atoms, a
    CHAMPAGNE 3, 9 and 4, a SOFT DRINK 6, 14 and 9.  What follows the
    name of the drink on the line is not read. *)
Theorem console_counts_greatest (s : AtomStock) (linebuf : string) (n : Z) :
  (forall rest,
      Shared.console_words linebuf = "GEN" :: "VODKA" :: rest ->
      Shared.affordable s 8 20 8 n -> ~ Shared.affordable s 8 20 8 (n + 1) ->
      console_reply s linebuf
      = "You can make up to " ++ fmt_llu n ++ " VODKA(s)" ++ LF)
  /\ (forall rest,
         Shared.console_words linebuf = "GEN" :: "CHAMPAGNE" :: rest ->
         Shared.affordable s 3 9 4 n -> ~ Shared.affordable s 3 9 4 (n + 1) ->
         console_reply s linebuf
         = "You can make up to " ++ fmt_llu n ++ " CHAMPAGNE(s)" ++ LF)
  /\ (forall rest,
         Shared.console_words linebuf = "GEN" :: "SOFT" :: "DRINK" :: rest ->
         Shared.affordable s 6 14 9 n -> ~ Shared.affordable s 6 14 9 (n + 1) ->
         console_reply s linebuf
         = "You can make up to " ++ fmt_llu n ++ " SOFT DRINK(s)" ++ LF).
Proof.
  rewrite console_reply_words.
  split; [|split]; intros rest -> Ha Hn; cbn [negb String.eqb Ascii.eqb
                                                  Bool.eqb];
    rewrite (can_make_greatest s _ _ _ n) by (assumption || lia);
    reflexivity.
Qed.

Lemma console_counts_greatest_witness :
  console_reply (mkAtomStock 17 100 59) ("GEN VODKA please" ++ LF)
  = "You can make up to 2 VODKA(s)" ++ LF.
Proof.
  apply (proj1 (console_counts_greatest
                  (mkAtomStock 17 100 59) ("GEN VODKA please" ++ LF) 2)
               ["please"]).
  - vm_compute. reflexivity.
  - unfold Shared.affordable. simpl. lia.
  - unfold Shared.affordable. simpl. lia.
Defined.

(** X12.  The errors of the console, in the order of its checks: a line
    whose first token is not GEN, an empty line included, is an invalid
    console command; GEN alone misses the drink type; SOFT that is not
    followed by DRINK gets the hint for the two-word name; any other
    name than SOFT, VODKA and CHAMPAGNE is an unknown drink type, quoted
    in the message.  None of these depends on the inventory. *)
Theorem console_errors (s : AtomStock) (linebuf : string) :
  (hd_error (Shared.console_words linebuf) <> Some "GEN" ->
   console_reply s linebuf = "ERROR: invalid console command" ++ LF)
  /\ (Shared.console_words linebuf = ["GEN"] ->
      console_reply s linebuf = "ERROR: missing drink type after GEN" ++ LF)
  /\ (forall rest,
         Shared.console_words linebuf = "GEN" :: "SOFT" :: rest ->
         hd_error rest <> Some "DRINK" ->
         console_reply s linebuf
         = "ERROR: did you mean 'GEN SOFT DRINK'?" ++ LF)
  /\ (forall drink rest,
         Shared.console_words linebuf = "GEN" :: drink :: rest ->
         drink <> "SOFT" -> drink <> "VODKA" -> drink <> "CHAMPAGNE" ->
         console_reply s linebuf
         = "ERROR: unknown drink type '" ++ drink ++ "'" ++ LF).
Proof.
  rewrite console_reply_words.
  split; [|split; [|split]].
  - destruct (Shared.console_words linebuf) as [|cmd rest];
      [reflexivity|].
    cbn [hd_error]. intros H.
    destruct (String.eqb_spec cmd "GEN") as [->|]; [congruence|].
    reflexivity.
  - intros ->. reflexivity.
  - intros rest -> H. cbn [negb String.eqb Ascii.eqb Bool.eqb].
    destruct rest as [|maybe rest']; [reflexivity|].
    cbn [hd_error] in H.
    destruct (String.eqb_spec maybe "DRINK") as [->|]; [congruence|].
    reflexivity.
  - intros drink rest -> H1 H2 H3.
    apply String.eqb_neq in H1. apply String.eqb_neq in H2.
    apply String.eqb_neq in H3.
    rewrite String.eqb_refl. cbn [negb]. rewrite H1, H2, H3. reflexivity.
Qed.

Lemma console_errors_witness :
  console_reply (mkAtomStock 1 2 3) ("GEN SOFT DRINKS" ++ LF)
  = "ERROR: did you mean 'GEN SOFT DRINK'?" ++ LF
  /\ console_reply (mkAtomStock 1 2 3) ("gen VODKA" ++ LF)
     = "ERROR: invalid console command" ++ LF
  /\ console_reply (mkAtomStock 1 2 3) ("GEN BEER now" ++ LF)
     = "ERROR: unknown drink type 'BEER'" ++ LF.
Proof.
  split; [|split].
  - apply (proj1 (proj2 (proj2 (console_errors
                                  (mkAtomStock 1 2 3)
                                  ("GEN SOFT DRINKS" ++ LF))))
                 ["DRINKS"]).
    + vm_compute. reflexivity.
    + discriminate.
  - apply (proj1 (console_errors (mkAtomStock 1 2 3) ("gen VODKA" ++ LF))).
    vm_compute. discriminate.
  - apply (proj2 (proj2 (proj2 (console_errors
                                  (mkAtomStock 1 2 3)
                                  ("GEN BEER now" ++ LF))))
                 "BEER" ["now"]);
      [vm_compute; reflexivity | discriminate | discriminate | discriminate].
Defined.

(** ** The table of clients *)

Section ClientTable.

Import Sessions.

Lemma store_client_first_free (pre post : list Z) (new_fd : Z) :
  Forall (fun fd => fd <> -1) pre ->
  store_client (pre ++ -1 :: post) new_fd = (pre ++ new_fd :: post, true)%list.
Proof.
  induction pre as [|fd pre IH]; intros H; cbn [app store_client].
  - reflexivity.
  - inversion H as [|x l Hfd Hpre]; subst.
    apply Z.eqb_neq in Hfd. rewrite Hfd, (IH Hpre). reflexivity.
Qed.

Lemma store_client_full (client_fds : list Z) (new_fd : Z) :
  Forall (fun fd => fd <> -1) client_fds ->
  store_client client_fds new_fd = (client_fds, false).
Proof.
  induction client_fds as [|fd rest IH]; intros H; cbn [store_client].
  - reflexivity.
  - inversion H as [|x l Hfd Hrest]; subst.
    apply Z.eqb_neq in Hfd. rewrite Hfd, (IH Hrest). reflexivity.
Qed.

Lemma store_client_length (client_fds : list Z) (new_fd : Z) :
  List.length (fst (store_client client_fds new_fd)) = List.length client_fds.
Proof.
  induction client_fds as [|fd rest IH]; cbn [store_client]; [reflexivity|].
  destruct (Z.eqb fd (-1)); [reflexivity|].
  destruct (store_client rest new_fd) as [rest' added]. cbn [fst] in *.
  cbn [List.length]. rewrite IH. reflexivity.
Qed.

(** A table has an empty slot or has none. *)
Lemma table_cases (client_fds : list Z) :
  Forall (fun fd => fd <> -1) client_fds
  \/ exists pre post,
      client_fds = (pre ++ -1 :: post)%list
      /\ Forall (fun fd => fd <> -1) pre.
Proof.
  induction client_fds as [|fd rest IH].
  - left. constructor.
  - destruct (Z.eq_dec fd (-1)) as [->|Hfd].
    + right. exists [], rest. split; [reflexivity | constructor].
    + destruct IH as [Hfull | (pre & post & -> & Hpre)].
      * left. constructor; assumption.
      * right. exists (fd :: pre), post.
        split; [reflexivity | constructor; assumption].
Qed.

Lemma occupied_app (a b : list Z) :
  occupied (a ++ b) = (occupied a ++ occupied b)%list.
Proof. apply filter_app. Qed.

Lemma occupied_In (client_fds : list Z) (fd : Z) :
  In fd (occupied client_fds) <-> In fd client_fds /\ fd <> -1.
Proof.
  unfold occupied. rewrite filter_In.
  rewrite negb_true_iff, Z.eqb_neq. reflexivity.
Qed.

End ClientTable.

(** X13.  A connection that [accept] returns takes the first empty slot
    of the table and no other slot changes; when the table has no empty
    slot the connection is closed at once and the table is as before; a
    failed [accept] changes nothing.  The table keeps its length. *)
Theorem accept_takes_first_free_slot (client_fds : list Z) (new_fd : Z) :
  (forall pre post,
      client_fds = (pre ++ -1 :: post)%list ->
      Forall (fun fd => fd <> -1) pre ->
      0 <= new_fd ->
      Sessions.accept_tcp client_fds new_fd
      = ((pre ++ new_fd :: post)%list, None))
  /\ (Forall (fun fd => fd <> -1) client_fds ->
      0 <= new_fd ->
      Sessions.accept_tcp client_fds new_fd = (client_fds, Some new_fd))
  /\ (new_fd < 0 ->
      Sessions.accept_tcp client_fds new_fd = (client_fds, None))
  /\ List.length (fst (Sessions.accept_tcp client_fds new_fd))
     = List.length client_fds.
Proof.
  unfold Sessions.accept_tcp. split; [|split; [|split]].
  - intros pre post -> Hpre Hfd. apply Z.ltb_ge in Hfd. rewrite Hfd.
    rewrite (store_client_first_free pre post new_fd Hpre). reflexivity.
  - intros Hfull Hfd. apply Z.ltb_ge in Hfd. rewrite Hfd.
    rewrite (store_client_full client_fds new_fd Hfull). reflexivity.
  - intros Hfd. apply Z.ltb_lt in Hfd. rewrite Hfd. reflexivity.
  - destruct (Z.ltb new_fd 0); [reflexivity|].
    pose proof (store_client_length client_fds new_fd) as H.
    destruct (Sessions.store_client client_fds new_fd) as [fds added].
    destruct added; exact H.
Qed.

Lemma accept_takes_first_free_slot_witness :
  Sessions.accept_tcp [4; -1; 6; -1] 7 = ([4; 7; 6; -1], None)
  /\ Sessions.accept_tcp [4; 5; 6] 7 = ([4; 5; 6], Some 7).
Proof.
  split.
  - apply (proj1 (accept_takes_first_free_slot [4; -1; 6; -1] 7)
                 [4] [6; -1]).
    + reflexivity.
    + repeat constructor. discriminate.
    + lia.
  - apply (proj1 (proj2 (accept_takes_first_free_slot [4; 5; 6] 7))).
    + repeat constructor; discriminate.
    + lia.
Defined.

(** X14.  The descriptors of the table stay distinct: when they are
    distinct and [accept] returns a descriptor that is not in the table,
    they are distinct after the connection is stored, and the table then
    holds the new descriptor at most and the descriptors it held. *)
Theorem clients_stay_distinct (client_fds : list Z) (new_fd : Z) :
  NoDup (Sessions.occupied client_fds) ->
  ~ In new_fd client_fds ->
  NoDup (Sessions.occupied (fst (Sessions.accept_tcp client_fds new_fd)))
  /\ (forall fd,
         In fd (Sessions.occupied (fst (Sessions.accept_tcp client_fds new_fd)))
         -> fd = new_fd \/ In fd (Sessions.occupied client_fds)).
Proof.
  intros Hnd Hnew.
  destruct (Z.lt_ge_cases new_fd 0) as [Hneg|Hpos].
  { unfold Sessions.accept_tcp. apply Z.ltb_lt in Hneg. rewrite Hneg.
    cbn [fst]. split; [exact Hnd | intros fd H; right; exact H]. }
  unfold Sessions.accept_tcp. apply Z.ltb_ge in Hpos. rewrite Hpos.
  destruct (table_cases client_fds) as [Hfull | (pre & post & -> & Hpre)].
  - rewrite (store_client_full client_fds new_fd Hfull). cbn [fst].
    split; [exact Hnd | intros fd H; right; exact H].
  - rewrite (store_client_first_free pre post new_fd Hpre). cbn [fst].
    assert (Hocc : Sessions.occupied (pre ++ -1 :: post)
                   = (Sessions.occupied pre ++ Sessions.occupied post)%list).
    { rewrite occupied_app. reflexivity. }
    rewrite Hocc in Hnd.
    assert (Hnew_fd : new_fd <> -1).
    { intros ->. apply Hnew. apply in_or_app. right. left. reflexivity. }
    assert (Hocc' : Sessions.occupied (pre ++ new_fd :: post)
                    = (Sessions.occupied pre
                         ++ new_fd :: Sessions.occupied post)%list).
    { rewrite occupied_app. unfold Sessions.occupied at 2.
      cbn [filter]. apply Z.eqb_neq in Hnew_fd. rewrite Hnew_fd.
      reflexivity. }
    rewrite Hocc'. split.
    + apply NoDup_Add with (a := new_fd)
                           (l := (Sessions.occupied pre
                                    ++ Sessions.occupied post)%list).
      * apply Add_app.
      * split; [exact Hnd|].
        intros Hin. apply Hnew. apply in_app_or in Hin.
        apply in_or_app.
        destruct Hin as [Hin|Hin]; apply occupied_In in Hin.
        -- left. tauto.
        -- right. right. tauto.
    + intros fd Hin. rewrite Hocc. apply in_app_or in Hin.
      destruct Hin as [Hin|[Hin|Hin]].
      * right. apply in_or_app. left. exact Hin.
      * left. symmetry. exact Hin.
      * right. apply in_or_app. right. exact Hin.
Qed.

Lemma clients_stay_distinct_witness :
  NoDup (Sessions.occupied (fst (Sessions.accept_tcp [4; -1; 6] 9))).
Proof.
  refine (proj1 (clients_stay_distinct [4; -1; 6] 9 _ _)).
  - vm_compute. repeat constructor; simpl; intuition discriminate.
  - simpl. intuition discriminate.
Defined.

Section ServeClients.

Import Sessions.

Lemma run_tcp_clients (w : World) (received : option string)
      (rest : list Event) :
  run w (TcpClient received :: rest)
  = run (fst (fst (handle_tcp_client w received))) rest.
Proof. reflexivity. Qed.

End ServeClients.

(** X15.  One sweep over the table of clients: the clients that are
    ready are served one by one in the order of their slots, each
    request on the inventory that the one before left; a slot is emptied
    exactly when its client was ready and its [recv] returned nothing,
    and every other slot keeps its descriptor; a response goes to every
    ready client whose [recv] returned data, and to no other. *)
Theorem sweep_serves_ready_clients
        (isset : Z -> bool) (recv : Z -> option string)
        (w : World) (client_fds : list Z) :
  let '(w', fds', sent) := Sessions.serve_clients isset recv w client_fds in
  w' = run w (map (fun fd => TcpClient (recv fd))
                  (filter (Sessions.ready isset) client_fds))
  /\ fds' = map (fun fd =>
                   if Sessions.ready isset fd
                   then match recv fd with Some _ => fd | None => -1 end
                   else fd)
                client_fds
  /\ map fst sent
     = filter (fun fd =>
                 Sessions.ready isset fd
                 && match recv fd with Some _ => true | None => false end)
              client_fds.
Proof.
  revert w. induction client_fds as [|fd rest IH]; intros w.
  - cbn. repeat split.
  - cbn [Sessions.serve_clients map filter].
    change (negb (Z.eqb fd (-1)) && isset fd)
      with (Sessions.ready isset fd).
    destruct (Sessions.ready isset fd) eqn:Hr.
    + cbn [map andb]. rewrite run_tcp_clients.
      destruct (recv fd) as [buf|] eqn:Hrecv; cbn [handle_tcp_client].
      * destruct (parse_and_update_tcp w buf) as [w1 resp] eqn:Hp.
        cbn [fst]. specialize (IH w1).
        destruct (Sessions.serve_clients isset recv w1 rest)
          as [[w2 rest'] sent].
        destruct IH as (Hw & Hfds & Hsent).
        split; [exact Hw|]. split; [rewrite Hfds; reflexivity|].
        cbn [map fst]. rewrite Hsent. reflexivity.
      * cbn [fst]. specialize (IH w).
        destruct (Sessions.serve_clients isset recv w rest)
          as [[w2 rest'] sent].
        destruct IH as (Hw & Hfds & Hsent).
        split; [exact Hw|]. split; [rewrite Hfds; reflexivity|].
        exact Hsent.
    + cbn [andb]. specialize (IH w).
      destruct (Sessions.serve_clients isset recv w rest)
        as [[w2 rest'] sent].
      destruct IH as (Hw & Hfds & Hsent).
      split; [exact Hw|]. split; [rewrite Hfds; reflexivity|].
      exact Hsent.
Qed.

Section WatchSet.

Import Sessions.

Lemma watch_covers (fd : Z) (st : list Z * Z) :
  covers st -> covers (watch fd st).
Proof.
  intros (Hle & Hin & Hmin). unfold watch, covers. cbn [fst snd].
  destruct (Z.ltb_spec (snd st) fd) as [Hlt|Hge].
  - split; [|split].
    + intros x [->|Hx]; [lia|]. specialize (Hle x Hx). lia.
    + right. left. reflexivity.
    + lia.
  - split; [|split].
    + intros x [->|Hx]; [lia|]. apply Hle. exact Hx.
    + destruct Hin as [Hin|Hin]; [left; exact Hin | right; right; exact Hin].
    + exact Hmin.
Qed.

Lemma watch_clients_covers (client_fds : list Z) :
  forall st,
    covers st ->
    covers (fold_left (fun st fd => if Z.eqb fd (-1) then st else watch fd st)
                      client_fds st).
Proof.
  induction client_fds as [|fd rest IH]; intros st Hst; cbn [fold_left].
  - exact Hst.
  - apply IH. destruct (Z.eqb fd (-1)); [exact Hst|].
    apply watch_covers. exact Hst.
Qed.

Lemma watch_clients_In (client_fds : list Z) :
  forall st fd,
    In fd (fst (fold_left
                  (fun st fd => if Z.eqb fd (-1) then st else watch fd st)
                  client_fds st))
    <-> In fd (fst st) \/ In fd (occupied client_fds).
Proof.
  induction client_fds as [|x rest IH]; intros st fd; cbn [fold_left].
  - cbn. tauto.
  - rewrite IH. unfold occupied. cbn [filter].
    destruct (Z.eqb x (-1)); cbn [negb]; [tauto|].
    unfold watch. cbn [fst In]. tauto.
Qed.

End WatchSet.

(** X16.  The set that the loop gives to [select] holds the two
    listening descriptors, the standard input, the Unix-domain
    descriptors that are configured and the descriptors of the occupied
    slots of the table, and nothing else: an empty slot is never watched.
    [max_fd] is one of the descriptors watched and none is above it, so
    that [max_fd + 1] is a right first argument of [select]. *)
Theorem select_set (tcp_listen_fd udp_fd : Z) (client_fds : list Z)
        (uds_stream_fd uds_dgram_fd : option Z) :
  let st := Sessions.build_read_fds tcp_listen_fd udp_fd client_fds
                                    uds_stream_fd uds_dgram_fd in
  (forall fd,
      In fd (fst st)
      <-> fd = tcp_listen_fd \/ fd = udp_fd \/ fd = Sessions.STDIN_FILENO
          \/ In fd (Sessions.occupied client_fds)
          \/ uds_stream_fd = Some fd \/ uds_dgram_fd = Some fd)
  /\ (forall fd, In fd (fst st) -> fd < snd st + 1)
  /\ In (snd st) (fst st)
  /\ 0 <= snd st.
Proof.
  intros st.
  assert (Hin : forall fd,
             In fd (fst st)
             <-> fd = tcp_listen_fd \/ fd = udp_fd
                 \/ fd = Sessions.STDIN_FILENO
                 \/ In fd (Sessions.occupied client_fds)
                 \/ uds_stream_fd = Some fd \/ uds_dgram_fd = Some fd).
  { intros fd. unfold st, Sessions.build_read_fds.
    destruct uds_dgram_fd as [d|], uds_stream_fd as [u|];
      unfold Sessions.watch at 1; cbn [fst In];
      try (unfold Sessions.watch at 1; cbn [fst In]);
      try (unfold Sessions.watch at 1; cbn [fst In]);
      rewrite watch_clients_In; unfold Sessions.watch; cbn [fst In];
      intuition (try congruence). }
  assert (Hcov : Sessions.covers st).
  { unfold st, Sessions.build_read_fds.
    assert (H0 : Sessions.covers ([], -1)).
    { unfold Sessions.covers. cbn. split; [tauto|]. split; [left|]; lia. }
    destruct uds_dgram_fd as [d|], uds_stream_fd as [u|];
      repeat apply watch_covers; apply watch_clients_covers;
      repeat apply watch_covers; exact H0. }
  destruct Hcov as (Hle & Hmax & _).
  assert (Hpos : 0 <= snd st).
  { apply Hle. apply Hin. right. right. left. reflexivity. }
  split; [exact Hin|]. split; [|split].
  - intros fd Hfd. specialize (Hle fd Hfd). lia.
  - destruct Hmax as [Hmax|Hmax]; [lia | exact Hmax].
  - exact Hpos.
Qed.

(** ** Numbers as [printf] writes them and as [strtoull] reads them *)

Section Decimal.

Import Spec Shared.

Lemma digits_of_uint (d : Decimal.uint) :
  only_digits (NilEmpty.string_of_uint d) = true.
Proof. induction d; cbn [NilEmpty.string_of_uint only_digits]; auto. Qed.

Lemma length_of_uint (d : Decimal.uint) :
  String.length (NilEmpty.string_of_uint d) = Decimal.nb_digits d.
Proof.
  induction d; cbn [NilEmpty.string_of_uint String.length Decimal.nb_digits];
    congruence.
Qed.

Local Ltac digit_arith :=
  repeat match goal with
         | |- context [digit_val ?c] =>
             let v := eval vm_compute in (digit_val c) in
             change (digit_val c) with v
         end;
  lia.

Lemma value_of_uint_acc (d : Decimal.uint) :
  forall acc : positive,
    decimal_from (Zpos acc) (NilEmpty.string_of_uint d)
    = Zpos (Pos.of_uint_acc d acc).
Proof.
  induction d; intros acc;
    cbn [NilEmpty.string_of_uint decimal_from Pos.of_uint_acc];
    try reflexivity;
    match goal with
    | |- decimal_from ?x _ = Zpos (Pos.of_uint_acc _ ?p) =>
        replace x with (Zpos p) by digit_arith
    end; apply IHd.
Qed.

Lemma value_of_uint (d : Decimal.uint) :
  decimal_from 0 (NilEmpty.string_of_uint d) = Z.of_N (Pos.of_uint d).
Proof.
  induction d;
    cbn [NilEmpty.string_of_uint decimal_from Pos.of_uint];
    try reflexivity;
    try (match goal with
         | |- decimal_from ?x _ = Z.of_N (N.pos (Pos.of_uint_acc _ ?p)) =>
             replace x with (Zpos p) by digit_arith
         end; apply value_of_uint_acc).
  replace (10 * 0 + digit_val "0") with 0 by digit_arith.
  exact IHd.
Qed.

(** The digits after the first weigh at least their number of powers
    of ten. *)
Lemma of_uint_acc_lower (d : Decimal.uint) :
  forall acc : positive,
    Zpos acc * 10 ^ Z.of_nat (Decimal.nb_digits d)
    <= Zpos (Pos.of_uint_acc d acc).
Proof.
  induction d; intros acc; cbn [Pos.of_uint_acc Decimal.nb_digits];
    try (rewrite Z.pow_0_r; lia);
    rewrite Nat2Z.inj_succ, Z.pow_succ_r by lia;
    match goal with
    | |- _ <= Zpos (Pos.of_uint_acc _ ?p) =>
        specialize (IHd p);
        assert (Zpos acc * 10 <= Zpos p) by lia
    end;
    assert (0 < 10 ^ Z.of_nat (Decimal.nb_digits d))
      by (apply Z.pow_pos_nonneg; lia);
    nia.
Qed.

Lemma to_uint_normal (n : N) : Decimal.unorm (N.to_uint n) = N.to_uint n.
Proof.
  rewrite <- (DecimalN.Unsigned.of_to n) at 2.
  rewrite DecimalN.Unsigned.to_of. reflexivity.
Qed.

Lemma to_uint_nonnil (n : N) : N.to_uint n <> Decimal.Nil.
Proof. rewrite <- to_uint_normal. apply DecimalFacts.unorm_nonnil. Qed.

Lemma fmt_llu_string (z : Z) :
  fmt_llu z = NilEmpty.string_of_uint (N.to_uint (Z.to_N z)).
Proof.
  unfold fmt_llu, NilZero.string_of_uint.
  pose proof (to_uint_nonnil (Z.to_N z)) as H.
  destruct (N.to_uint (Z.to_N z)); [congruence | reflexivity ..].
Qed.

(** What [%llu] prints is an unsigned literal, and it denotes the number
    printed. *)
Lemma fmt_llu_literal (z : Z) : unsigned_literal (fmt_llu z) = true.
Proof.
  rewrite fmt_llu_string. unfold unsigned_literal.
  pose proof (to_uint_nonnil (Z.to_N z)) as H.
  pose proof (digits_of_uint (N.to_uint (Z.to_N z))) as Hd.
  destruct (N.to_uint (Z.to_N z)); [congruence | exact Hd ..].
Qed.

Lemma fmt_llu_value (z : Z) : 0 <= z -> decimal_value (fmt_llu z) = z.
Proof.
  intros Hz. rewrite fmt_llu_string. unfold decimal_value.
  rewrite value_of_uint.
  change (Pos.of_uint (N.to_uint (Z.to_N z)))
    with (N.of_uint (N.to_uint (Z.to_N z))).
  rewrite DecimalN.Unsigned.of_to. apply Z2N.id. exact Hz.
Qed.

(** A number below 2^64 has at most twenty digits. *)
Lemma fmt_llu_length (z : Z) :
  0 <= z < 2 ^ 64 -> (String.length (fmt_llu z) <= 20)%nat.
Proof.
  intros Hz. rewrite fmt_llu_string, length_of_uint.
  pose proof (to_uint_normal (Z.to_N z)) as Hnorm.
  pose proof (DecimalN.Unsigned.of_to (Z.to_N z)) as Hval.
  unfold N.of_uint in Hval.
  assert (Hbound : forall (l : Decimal.uint) (p : positive),
             Z.of_N (N.pos (Pos.of_uint_acc l p)) = z ->
             (S (Decimal.nb_digits l) <= 20)%nat).
  { intros l p Hp. pose proof (of_uint_acc_lower l p) as Hlow.
    destruct (Nat.le_gt_cases (S (Decimal.nb_digits l)) 20) as [|Hbig];
      [assumption|exfalso].
    assert (10 ^ 20 <= 10 ^ Z.of_nat (Decimal.nb_digits l))
      by (apply Z.pow_le_mono_r; lia).
    assert (H64 : 2 ^ 64 < 10 ^ 20) by reflexivity.
    assert (0 < 10 ^ Z.of_nat (Decimal.nb_digits l))
      by (apply Z.pow_pos_nonneg; lia).
    cbn [Z.of_N] in Hp. nia. }
  assert (Hz' : Z.of_N (Z.to_N z) = z) by (apply Z2N.id; lia).
  destruct (N.to_uint (Z.to_N z)) as [|l|l|l|l|l|l|l|l|l|l] eqn:Hd;
    cbn [Decimal.nb_digits Pos.of_uint] in *;
    try (apply (Hbound l) with (p := 1%positive); congruence);
    try (apply (Hbound l) with (p := 2%positive); congruence);
    try (apply (Hbound l) with (p := 3%positive); congruence);
    try (apply (Hbound l) with (p := 4%positive); congruence);
    try (apply (Hbound l) with (p := 5%positive); congruence);
    try (apply (Hbound l) with (p := 6%positive); congruence);
    try (apply (Hbound l) with (p := 7%positive); congruence);
    try (apply (Hbound l) with (p := 8%positive); congruence);
    try (apply (Hbound l) with (p := 9%positive); congruence).
  - lia.
  - unfold Decimal.unorm in Hnorm. cbn [Decimal.nzhead] in Hnorm.
    pose proof (DecimalFacts.nzhead_nonzero l) as Hnz.
    destruct (Decimal.nzhead l) eqn:Hh; try discriminate Hnorm.
    + inversion Hnorm; subst. cbn. lia.
    + exfalso. apply (Hnz u). reflexivity.
Qed.

Lemma length_append (a b : string) :
  String.length (a ++ b) = (String.length a + String.length b)%nat.
Proof. induction a; cbn [append String.length Nat.add]; congruence. Qed.

Lemma no_line_feed_append (a b : string) :
  no_line_feed (a ++ b) = no_line_feed a && no_line_feed b.
Proof.
  induction a as [|c a IH]; cbn [append no_line_feed]; [reflexivity|].
  rewrite IH. apply andb_assoc.
Qed.

Lemma digits_no_line_feed (s : string) :
  only_digits s = true -> no_line_feed s = true.
Proof.
  induction s as [|c s IH]; cbn [only_digits no_line_feed]; [reflexivity|].
  intros H. apply andb_true_iff in H. destruct H as [Hc Hs].
  rewrite (IH Hs), andb_true_r. apply negb_true_iff, Ascii.eqb_neq.
  intros ->. apply isdigit_range in Hc.
  change (nat_of_ascii "010") with 10%nat in Hc. lia.
Qed.

Lemma fmt_llu_no_line_feed (z : Z) : no_line_feed (fmt_llu z) = true.
Proof.
  apply digits_no_line_feed, unsigned_literal_digits, fmt_llu_literal.
Qed.

End Decimal.

(** ** The responses in their buffer *)

Section Responses.

Import Spec Shared.

Lemma append_assoc (a b c : string) : (a ++ b) ++ c = a ++ (b ++ c).
Proof. induction a; cbn [append]; congruence. Qed.

Local Ltac fixed_response :=
  cbv beta iota; cbn [snd];
  lazymatch goal with
  | |- framed (String _ _ ++ LF) =>
      split;
      [ unfold fits; apply Nat.ltb_lt; vm_compute; reflexivity
      | eexists; split; reflexivity ]
  end.

(** A response made of three labels and three counters. *)
Lemma counters_framed (l1 l2 l3 : string) (s : AtomStock) :
  u64_stock s ->
  (String.length l1 + String.length l2 + String.length l3 < 900)%nat ->
  no_line_feed l1 = true -> no_line_feed l2 = true ->
  no_line_feed l3 = true ->
  framed (l1 ++ fmt_llu (carbon s) ++ l2 ++ fmt_llu (oxygen s)
             ++ l3 ++ fmt_llu (hydrogen s) ++ LF).
Proof.
  intros (Hc & Ho & Hh) Hlen H1 H2 H3. split.
  - unfold fits, MAXBUF. rewrite !length_append.
    pose proof (fmt_llu_length _ Hc). pose proof (fmt_llu_length _ Ho).
    pose proof (fmt_llu_length _ Hh).
    change (String.length LF) with 1%nat. lia.
  - exists (l1 ++ fmt_llu (carbon s) ++ l2 ++ fmt_llu (oxygen s)
               ++ l3 ++ fmt_llu (hydrogen s)).
    split.
    + rewrite !append_assoc. reflexivity.
    + rewrite !no_line_feed_append, !fmt_llu_no_line_feed, H1, H2, H3.
      reflexivity.
Qed.

Lemma tcp_ok_framed (s : AtomStock) : u64_stock s -> framed (tcp_ok s).
Proof.
  intros Hu. unfold tcp_ok. apply counters_framed; try reflexivity;
    [exact Hu | apply Nat.ltb_lt; vm_compute; reflexivity].
Qed.

Lemma udp_ok_framed (s : AtomStock) : u64_stock s -> framed (udp_ok s).
Proof.
  intros Hu. unfold udp_ok. apply counters_framed; try reflexivity;
    [exact Hu | apply Nat.ltb_lt; vm_compute; reflexivity].
Qed.

(** The error responses of the checks of a request. *)
Lemma add_request_framed (line : string) :
  match add_request line with
  | inl response => framed response
  | inr _ => True
  end.
Proof.
  unfold add_request. cbv zeta.
  destruct (strtok_r (strncpy_buf MAXBUF line) DELIM) as [[cmd|] sp1];
    destruct (strtok_r sp1 DELIM) as [[ty|] sp2];
    destruct (strtok_r sp2 DELIM) as [[num|] sp3];
    try fixed_response.
  destruct (negb (String.eqb cmd "ADD")); [fixed_response|].
  destruct (String.eqb ty "CARBON");
    [|destruct (String.eqb ty "OXYGEN");
      [|destruct (String.eqb ty "HYDROGEN"); [|fixed_response]]];
    destruct (strtoull num) as [val endptr];
    (destruct (String.eqb endptr num || negb (String.eqb endptr ""));
     [fixed_response|]);
    (destruct (Z.ltb MAX_ATOMS val); [fixed_response|exact I]).
Qed.

Lemma deliver_quantity_framed (full_mol saveptr : string) :
  match deliver_quantity full_mol saveptr with
  | inl response => framed response
  | inr _ => True
  end.
Proof.
  unfold deliver_quantity.
  destruct (strtok_r saveptr DELIM) as [[num|] sp1]; [|fixed_response].
  destruct (strtok_r sp1 DELIM) as [[extra|] sp2]; [fixed_response|].
  destruct (strtoull num) as [count endptr].
  destruct (String.eqb endptr num || negb (String.eqb endptr ""));
    [fixed_response|].
  destruct (Z.ltb MAX_ATOMS count); [fixed_response|exact I].
Qed.

Lemma deliver_request_framed (line : string) :
  match deliver_request line with
  | inl response => framed response
  | inr _ => True
  end.
Proof.
  unfold deliver_request. cbv zeta.
  destruct (strtok_r (strncpy_buf MAXBUF line) DELIM) as [[cmd|] sp1];
    destruct (strtok_r sp1 DELIM) as [[mol|] sp2];
    try fixed_response.
  destruct (negb (String.eqb cmd "DELIVER")); [fixed_response|].
  destruct (String.eqb mol "CARBON").
  - destruct (strtok_r sp2 DELIM) as [[next|] sp3]; [|fixed_response].
    destruct (negb (String.eqb next "DIOXIDE")); [fixed_response|].
    apply deliver_quantity_framed.
  - destruct (String.eqb mol "WATER"); [apply deliver_quantity_framed|].
    destruct (String.eqb mol "GLUCOSE"); [apply deliver_quantity_framed|].
    destruct (String.eqb mol "ALCOHOL"); [apply deliver_quantity_framed|].
    fixed_response.
Qed.

Lemma tcp_response_framed (w : World) (line : string) :
  u64_stock (atom_stock w) -> framed (snd (parse_and_update_tcp w line)).
Proof.
  intros Hu. apply reload_u64 in Hu. unfold parse_and_update_tcp.
  pose proof (add_request_framed line) as Herr.
  destruct (add_request line) as [e | [type val]]; [exact Herr|].
  destruct Hu as (Hc & Ho & Hh).
  destruct type; try fixed_response;
    match goal with
    | |- context [Z.ltb MAX_ATOMS ?x] => destruct (Z.ltb MAX_ATOMS x)
    end; try fixed_response;
    cbn [snd]; rewrite save_stock; cbn [atom_stock set_stock];
    apply tcp_ok_framed;
    (split; [|split]); cbn [carbon oxygen hydrogen];
    try assumption; apply u64_range.
Qed.

Lemma udp_response_framed (w : World) (line : string) :
  u64_stock (atom_stock w) -> framed (snd (parse_and_update_udp w line)).
Proof.
  intros Hu. apply reload_u64 in Hu. unfold parse_and_update_udp.
  pose proof (deliver_request_framed line) as Herr.
  destruct (deliver_request line) as [e | [full_mol count]]; [exact Herr|].
  destruct (needed_atoms full_mol count) as [[[rc ro] rh]|];
    [|fixed_response].
  destruct (Z.ltb (carbon (atom_stock (reload w))) rc); [fixed_response|].
  destruct (Z.ltb (oxygen (atom_stock (reload w))) ro); [fixed_response|].
  destruct (Z.ltb (hydrogen (atom_stock (reload w))) rh); [fixed_response|].
  cbn [snd]. rewrite save_stock. cbn [atom_stock set_stock].
  apply udp_ok_framed. split; [|split]; apply u64_range.
Qed.

End Responses.

(** X17.  Every response of the two handlers is written whole and is one
    line: whatever the request, and whatever the counters that fit 64
    bits, the text that [parse_and_update_tcp] or [parse_and_update_udp]
    leaves in [response] is shorter than the [MAXBUF] bytes of the buffer
    that every caller passes, so that [snprintf] never cuts it, and it is
    made of characters other than the line feed followed by exactly one
    line feed. *)
Theorem responses_fit_one_line (w : World) (line : string) :
  Spec.u64_stock (atom_stock w) ->
  Shared.framed (snd (parse_and_update_tcp w line))
  /\ Shared.framed (snd (parse_and_update_udp w line)).
Proof.
  intros Hu. split;
    [apply tcp_response_framed | apply udp_response_framed]; exact Hu.
Qed.

Lemma responses_fit_one_line_witness :
  Spec.u64_stock (mkAtomStock 18446744073709551615 0 7)
  /\ Shared.framed
       (snd (parse_and_update_tcp
               (mkWorld (mkAtomStock 18446744073709551615 0 7) None None)
               ("ADD OXYGEN 5" ++ LF)))
  /\ Shared.framed
       (snd (parse_and_update_udp
               (mkWorld (mkAtomStock 18446744073709551615 0 7) None None)
               ("ADD OXYGEN 5" ++ LF))).
Proof.
  assert (Hu : Spec.u64_stock (mkAtomStock 18446744073709551615 0 7)).
  { unfold Spec.u64_stock, Spec.is_u64. cbn [carbon oxygen hydrogen].
    change (2 ^ 64) with 18446744073709551616. lia. }
  split; [exact Hu|].
  apply (responses_fit_one_line
           (mkWorld (mkAtomStock 18446744073709551615 0 7) None None)).
  exact Hu.
Defined.

(** X18.  Every quantity within the capacity can be asked for, in the
    form in which the server prints its counters: when the quantity token
    of an ADD request with a known atom, or of a DELIVER request with a
    known molecule, is what [%llu] prints for a number from 0 to
    [MAX_ATOMS], the checks of the request pass and [strtoull] gives back
    that very number. *)
Theorem printed_count_is_read_back (k : Spec.Element) (m : Spec.Molecule)
        (z : Z) (add_line deliver_line : string) (rest : list string) :
  0 <= z <= MAX_ATOMS ->
  Spec.words add_line
  = "ADD" :: Spec.element_name k :: fmt_llu z :: rest ->
  Spec.words deliver_line
  = ("DELIVER" :: Spec.molecule_tokens m ++ [fmt_llu z])%list ->
  add_request add_line = inr (Spec.atom_type k, z)
  /\ deliver_request deliver_line = inr (Spec.molecule_name m, z).
Proof.
  intros Hz Hadd Hdel.
  pose proof (fmt_llu_literal z) as Hlit.
  destruct (strtoull_literal_value (fmt_llu z) Hlit) as (_ & Hsmall & _).
  rewrite (fmt_llu_value z (proj1 Hz)) in Hsmall.
  specialize (Hsmall (proj2 Hz)).
  assert (Hle : Z.ltb MAX_ATOMS z = false) by (apply Z.ltb_ge; lia).
  split.
  - rewrite add_request_words, Hadd, add_well_formed, number_cases.
    rewrite (unsigned_is_signed _ Hlit), Hsmall. cbn [negb].
    rewrite Hle. reflexivity.
  - rewrite deliver_request_words, Hdel, deliver_well_formed, number_cases.
    rewrite (unsigned_is_signed _ Hlit), Hsmall. cbn [negb].
    rewrite Hle. reflexivity.
Qed.

Lemma printed_count_is_read_back_witness :
  add_request ("ADD HYDROGEN 1000000000000000000 now" ++ LF)
  = inr (HYDROGEN, 1000000000000000000)
  /\ deliver_request ("DELIVER CARBON DIOXIDE 1000000000000000000" ++ LF)
     = inr ("CARBON DIOXIDE", 1000000000000000000).
Proof.
  apply (printed_count_is_read_back
           Spec.Hydrogen Spec.CarbonDioxide 1000000000000000000
           ("ADD HYDROGEN 1000000000000000000 now" ++ LF)
           ("DELIVER CARBON DIOXIDE 1000000000000000000" ++ LF)
           ["now"]).
  - unfold MAX_ATOMS. lia.
  - vm_compute. reflexivity.
  - vm_compute. reflexivity.
Defined.
